(** * C2Buffer: ION linear allocations, blocks and views

    A shallow embedding of [media/libstagefright/codec2/vndk/C2Buffer.cpp]:
    the errno table, the ION handle check, the ION allocation and
    allocator, and the 1D blocks with their read and write views.

    Conventions.
    - C [int] values, [size_t] values and addresses are [Z]; the places
      where the source does machine arithmetic say so with [sint32],
      [size_t] and [ptr_add].
    - The ION driver and the mapping system calls are an oracle
      ([Driver]); every call is appended to a log kept in the [World],
      most recent call first.
    - Objects held through [std::shared_ptr<C2LinearAllocation>] live in
      a heap ([w_heap]) and are named by their location, so that two
      blocks over one allocation really alias.
    - A computation is [M A = World -> option (A * World)]; [None] is
      undefined behaviour of the C++ program (reading a member that was
      never written, following a pointer to no object). *)

From Stdlib Require Import ZArith List Lia Bool.
From stdpp Require Import base numbers option list gmap.
Import ListNotations.
Open Scope Z_scope.

(** ** Constants of the platform headers (bionic, Linux, gralloc) *)

Definition EPERM : Z := 1.
Definition ENOENT : Z := 2.
Definition ENOMEM : Z := 12.
Definition EACCES : Z := 13.
Definition EINVAL : Z := 22.

Definition PAGE_SIZE : Z := 4096.
Definition PROT_NONE : Z := 0.
Definition PROT_READ : Z := 1.
Definition PROT_WRITE : Z := 2.
Definition MAP_SHARED : Z := 1.
Definition MAP_PRIVATE : Z := 2.

Definition GRALLOC_USAGE_SW_READ_MASK : Z := 15.
Definition GRALLOC_USAGE_SW_WRITE_MASK : Z := 240.

(** Machine arithmetic of an LP64 target: [int] is 32 bits, [size_t] and
    addresses are 64 bits. *)
Definition sint32 (x : Z) : Z := (x + 2 ^ 31) mod 2 ^ 32 - 2 ^ 31.
Definition size_t (x : Z) : Z := x mod 2 ^ 64.
Definition ptr_add (p n : Z) : Z := (p + n) mod 2 ^ 64.

Definition nullptr : Z := 0.
(** [MAP_FAILED] is [(void * )-1]. *)
Definition MAP_FAILED : Z := 2 ^ 64 - 1.

(** ** Declarations of C2.h and C2Buffer.h

    The source includes them, they are not part of it.  [C2Error] is an
    integer type: [Impl(int, size_t, int)] stores the [int] returned by
    [ion_import] in a [C2Error] member and compares it with [0].  The
    named codes are taken as parameters, pairwise distinct. *)

Definition C2Error : Type := Z.

Class C2ErrorCodes : Type := {
  C2_OK : C2Error;
  C2_BAD_VALUE : C2Error;
  C2_NO_PERMISSION : C2Error;
  C2_NO_MEMORY : C2Error;
  C2_UNSUPPORTED : C2Error;
  C2_CORRUPTED : C2Error;
  C2_codes_distinct :
    NoDup [C2_OK; C2_BAD_VALUE; C2_NO_PERMISSION; C2_NO_MEMORY;
           C2_UNSUPPORTED; C2_CORRUPTED]
}.

(** [C2MemoryUsage] of C2Buffer.h as the source uses it: a consumer and
    a producer usage word, given in this order in a braced initialiser. *)
Record C2MemoryUsage : Type := { mConsumer : Z; mProducer : Z }.

(** The two named usage flags the blocks pass, taken as parameters. *)
Class C2MemoryUsageFlags : Type := {
  kSoftwareRead : Z;
  kSoftwareWrite : Z
}.

(** Modelled from the spec: [C2Fence] of C2Buffer.h, a token that the
    source only copies. *)
Inductive C2Fence : Type := C2Fence_default.

(** ** Standard errno mappings *)

(** The template [_c2_errno2error_impl<N>] is specialised for five values
    of [N]; an instantiation at any other value does not build.  The type
    of template arguments has these five inhabitants. *)
Inductive errno_case : Type :=
| N_0 | N_EINVAL | N_EACCES | N_EPERM | N_ENOMEM.

Definition errno_of (N : errno_case) : Z :=
  match N with
  | N_0 => 0
  | N_EINVAL => EINVAL
  | N_EACCES => EACCES
  | N_EPERM => EPERM
  | N_ENOMEM => ENOMEM
  end.

Section ErrnoMap.
Context `{EC : C2ErrorCodes}.

Definition _c2_errno2error_impl (N : errno_case) : C2Error :=
  match N with
  | N_0 => C2_OK
  | N_EINVAL => C2_BAD_VALUE
  | N_EACCES => C2_NO_PERMISSION
  | N_EPERM => C2_NO_PERMISSION
  | N_ENOMEM => C2_NO_MEMORY
  end.

(** [_c2_map_errno_impl<E, N...>::map] and, on the empty pack,
    [_c2_map_errno_impl<>::map]. *)
Fixpoint _c2_map_errno_impl (N : list errno_case) (result : Z) : C2Error :=
  match N with
  | E :: N' =>
      if result =? errno_of E then _c2_errno2error_impl E
      else _c2_map_errno_impl N' result
  | [] => if result =? 0 then C2_OK else C2_CORRUPTED
  end.

Definition c2_map_errno (N : list errno_case) (result : Z) : C2Error :=
  _c2_map_errno_impl N result.
End ErrnoMap.

(** ** The native handle and the ION handle *)

(** [C2Handle] is [native_handle_t]: three [int]s and a flexible array of
    [int]s. *)
Module C2Handle.
Record t : Type := {
  version : Z;
  numFds : Z;
  numInts : Z;
  data : list Z
}.
End C2Handle.

(** The object representation of an [int]: four bytes, least significant
    first. *)
Fixpoint le_bytes (n : nat) (v : Z) : list Z :=
  match n with
  | O => []
  | S n' => v mod 256 :: le_bytes n' (v / 256)
  end.

Definition int_bytes (v : Z) : list Z := le_bytes 4 v.

(** The first [sizeof(C2Handle)] bytes of a handle in memory. *)
Definition header_bytes (h : C2Handle.t) : list Z :=
  int_bytes (C2Handle.version h) ++ int_bytes (C2Handle.numFds h)
    ++ int_bytes (C2Handle.numInts h).

(** [memcmp] on the first [n] bytes of two buffers. *)
Fixpoint memcmp (a b : list Z) (n : nat) : Z :=
  match n, a, b with
  | S n', x :: a', y :: b' => if x =? y then memcmp a' b' n' else x - y
  | _, _, _ => 0
  end.

Module C2HandleIon.
(** ['ion1'], a multi-character constant. *)
Definition kMagic : Z := 105 * 2 ^ 24 + 111 * 2 ^ 16 + 110 * 2 ^ 8 + 49.
Definition sizeof_C2Handle : Z := 12.
Definition sizeof_mFds : Z := 8.
Definition sizeof_mInts : Z := 4.
Definition sizeof_int : Z := 4.
Definition numFds : Z := sizeof_mFds / sizeof_int.
Definition numInts : Z := sizeof_mInts / sizeof_int.
Definition version : Z := sizeof_C2Handle + sizeof_mFds + sizeof_mInts.

Definition cHeader : C2Handle.t :=
  {| C2Handle.version := version; C2Handle.numFds := numFds;
     C2Handle.numInts := numInts; C2Handle.data := [] |}.

(** [C2HandleIon(ionFd, buffer)]: the header, then [mFds] and [mInts]. *)
Definition new (ionFd buffer : Z) : C2Handle.t :=
  {| C2Handle.version := version; C2Handle.numFds := numFds;
     C2Handle.numInts := numInts; C2Handle.data := [ionFd; buffer; kMagic] |}.

(** The members seen through [static_cast<const C2HandleIon*>]: [mFds]
    is [data[0..1]], [mInts] is [data[2]].  A handle whose header passed
    the check announces three payload [int]s; [0] stands for a read past
    a shorter payload. *)
Definition mIon (h : C2Handle.t) : Z := nth 0 (C2Handle.data h) 0.
Definition mBuffer (h : C2Handle.t) : Z := nth 1 (C2Handle.data h) 0.
Definition mMagic (h : C2Handle.t) : Z := nth 2 (C2Handle.data h) 0.

Definition ionFd (h : C2Handle.t) : Z := mIon h.
Definition buffer (h : C2Handle.t) : Z := mBuffer h.

Definition setBuffer (h : C2Handle.t) (bufferFd : Z) : C2Handle.t :=
  {| C2Handle.version := C2Handle.version h;
     C2Handle.numFds := C2Handle.numFds h;
     C2Handle.numInts := C2Handle.numInts h;
     C2Handle.data := <[1%nat := bufferFd]> (C2Handle.data h) |}.

(** [isValid(const C2Handle * const o)]; [None] is the null pointer. *)
Definition isValid (o : option C2Handle.t) : bool :=
  match o with
  | None => false
  | Some h =>
      if negb (memcmp (header_bytes h) (header_bytes cHeader)
                 (Z.to_nat sizeof_C2Handle) =? 0)
      then false
      else mMagic h =? kMagic
  end.
End C2HandleIon.

(** ** The driver, the log of calls and the monad *)

(** The calls the source makes to libion and to the kernel, with their
    arguments in the order of the C prototypes (out-parameters left
    out). *)
Inductive DriverCall : Type :=
| IonOpen
| IonClose (fd : Z)
| IonAlloc (fd len align heap_mask flags : Z)
| IonFree (fd handle : Z)
| IonMap (fd handle length prot flags offset : Z)
| IonImport (fd share_fd : Z)
| Mmap (addr length prot flags fd offset : Z)
| Munmap (addr length : Z)
| Close (fd : Z).

(** What a call leaves behind: its return value, [errno] read right after
    it, and what it stored through its out-parameters.  [ion_alloc] and
    [ion_import] store the buffer in [r_out1]; [ion_map] stores the
    address in [r_out1] and the descriptor in [r_out2].  libion stores
    through its out-parameters when it returns [0], and only then. *)
Record DriverResp : Type := {
  r_ret : Z;
  r_errno : Z;
  r_out1 : Z;
  r_out2 : Z
}.

Definition Log : Type := list DriverCall.

(** The driver answers a call knowing the calls made before it. *)
Definition Driver : Type := Log -> DriverCall -> DriverResp.

Definition SF (S A : Type) : Type := S -> option (A * S).

Definition pure {S A : Type} (a : A) : SF S A := fun s => Some (a, s).

Definition bind {S A B : Type} (m : SF S A) (k : A -> SF S B) : SF S B :=
  fun s => match m s with
           | Some (a, s') => k a s'
           | None => None
           end.

(** Undefined behaviour. *)
Definition undefined {S A : Type} : SF S A := fun _ => None.

(** Reading a member that may never have been written. *)
Definition read {S A : Type} (o : option A) : SF S A :=
  match o with
  | Some a => pure a
  | None => undefined
  end.

Notation "'let*' x := m 'in' k" := (bind m (fun x => k))
  (at level 10, x name, m at level 100, k at level 200, only parsing).
Notation "'let*' ' p := m 'in' k" := (bind m (fun x => match x with p => k end))
  (at level 10, p pattern, m at level 100, k at level 200, only parsing).

Definition call (drv : Driver) (c : DriverCall) : SF Log DriverResp :=
  fun l => Some (drv l c, c :: l).

(** ** ION allocation *)

Module C2AllocationIon.

Record Impl : Type := {
  mInit : C2Error;
  mHandle : C2Handle.t;
  mMapFd : Z;
  mMapAddr : option Z;
  mMapAlignmentBytes : option Z;
  mMapSize : option Z;
  mCapacity : Z
}.

Definition set_mInit (this : Impl) (e : C2Error) : Impl :=
  {| mInit := e; mHandle := mHandle this; mMapFd := mMapFd this;
     mMapAddr := mMapAddr this;
     mMapAlignmentBytes := mMapAlignmentBytes this;
     mMapSize := mMapSize this; mCapacity := mCapacity this |}.

Definition set_mHandle (this : Impl) (h : C2Handle.t) : Impl :=
  {| mInit := mInit this; mHandle := h; mMapFd := mMapFd this;
     mMapAddr := mMapAddr this;
     mMapAlignmentBytes := mMapAlignmentBytes this;
     mMapSize := mMapSize this; mCapacity := mCapacity this |}.

Definition set_mMapFd (this : Impl) (fd : Z) : Impl :=
  {| mInit := mInit this; mHandle := mHandle this; mMapFd := fd;
     mMapAddr := mMapAddr this;
     mMapAlignmentBytes := mMapAlignmentBytes this;
     mMapSize := mMapSize this; mCapacity := mCapacity this |}.

Definition set_mMapAddr (this : Impl) (a : Z) : Impl :=
  {| mInit := mInit this; mHandle := mHandle this; mMapFd := mMapFd this;
     mMapAddr := Some a;
     mMapAlignmentBytes := mMapAlignmentBytes this;
     mMapSize := mMapSize this; mCapacity := mCapacity this |}.

(** [mMapAlignmentBytes = alignmentBytes; mMapSize = mapSize;] *)
Definition set_mMapExtent (this : Impl) (alignmentBytes mapSize : Z) : Impl :=
  {| mInit := mInit this; mHandle := mHandle this; mMapFd := mMapFd this;
     mMapAddr := mMapAddr this;
     mMapAlignmentBytes := Some alignmentBytes;
     mMapSize := Some mapSize; mCapacity := mCapacity this |}.

(** The object: the capacity of its [C2LinearAllocation] base and the
    [Impl] it owns. *)
Record t : Type := {
  capacity : Z;
  mImpl : Impl
}.

Section Methods.
Context `{EC : C2ErrorCodes} (drv : Driver).

(** [Impl(int ionFd, size_t capacity, size_t align, unsigned heapMask,
    unsigned flags)].  The three mapping members are not
    initialised. *)
Definition Impl_alloc (ionFd capacity align heapMask flags : Z)
  : SF Log Impl :=
  let this := {| mInit := C2_OK;
                 mHandle := C2HandleIon.new ionFd (-1);
                 mMapFd := -1;
                 mMapAddr := None;
                 mMapAlignmentBytes := None;
                 mMapSize := None;
                 mCapacity := capacity |} in
  let* r := call drv (IonAlloc (C2HandleIon.ionFd (mHandle this))
                        (mCapacity this) align heapMask flags) in
  let ret := r_ret r in
  if ret =? 0 then
    pure (set_mHandle this (C2HandleIon.setBuffer (mHandle this) (r_out1 r)))
  else
    pure (set_mInit this
            (c2_map_errno [N_ENOMEM; N_EACCES; N_EINVAL] (sint32 (- ret)))).

(** [Impl(int ionFd, size_t capacity, int shareFd)]. *)
Definition Impl_import (ionFd capacity shareFd : Z) : SF Log Impl :=
  let handle := C2HandleIon.new ionFd (-1) in
  let* r := call drv (IonImport (C2HandleIon.ionFd handle) shareFd) in
  let this := {| mInit := r_ret r;
                 mHandle := handle;
                 mMapFd := -1;
                 mMapAddr := None;
                 mMapAlignmentBytes := None;
                 mMapSize := None;
                 mCapacity := capacity |} in
  if mInit this =? 0 then
    pure (set_mHandle this (C2HandleIon.setBuffer (mHandle this) (r_out1 r)))
  else
    pure this.

(** The protection and the flags [map] computes from the usage. *)
Definition map_prot (usage : C2MemoryUsage) : Z :=
  let prot := PROT_NONE in
  let prot :=
    if negb (Z.land (mConsumer usage) GRALLOC_USAGE_SW_READ_MASK =? 0)
    then Z.lor prot PROT_READ else prot in
  if negb (Z.land (mProducer usage) GRALLOC_USAGE_SW_WRITE_MASK =? 0)
  then Z.lor prot PROT_WRITE else prot.

Definition map_flags (usage : C2MemoryUsage) : Z :=
  if negb (Z.land (mProducer usage) GRALLOC_USAGE_SW_WRITE_MASK =? 0)
  then MAP_SHARED else MAP_PRIVATE.

(** [Impl::map(offset, size, usage, fenceFd, addr)]; the fence is not
    used.  The result is the error and the final [*addr]. *)
Definition Impl_map (this : Impl) (offset size : Z) (usage : C2MemoryUsage)
  : SF Log (C2Error * Z * Impl) :=
  let prot := map_prot usage in
  let flags := map_flags usage in
  let alignmentBytes := offset mod PAGE_SIZE in
  let mapOffset := size_t (offset - alignmentBytes) in
  let mapSize := size_t (size + alignmentBytes) in
  if mMapFd this =? -1 then
    let* r := call drv (IonMap (C2HandleIon.ionFd (mHandle this))
                          (C2HandleIon.buffer (mHandle this))
                          mapSize prot flags mapOffset) in
    let ret := r_ret r in
    if negb (ret =? 0) then
      pure (c2_map_errno [N_EINVAL] (sint32 (- ret)), nullptr,
            set_mMapFd this (-1))
    else
      let this := set_mMapFd (set_mMapAddr this (r_out1 r)) (r_out2 r) in
      pure (C2_OK, ptr_add (r_out1 r) alignmentBytes,
            set_mMapExtent this alignmentBytes mapSize)
  else
    let* r := call drv (Mmap nullptr mapSize prot flags (mMapFd this)
                          mapOffset) in
    let this := set_mMapAddr this (r_ret r) in
    if r_ret r =? MAP_FAILED then
      pure (c2_map_errno [N_EINVAL] (r_errno r), nullptr,
            set_mMapAddr this nullptr)
    else
      pure (C2_OK, ptr_add (r_ret r) alignmentBytes,
            set_mMapExtent this alignmentBytes mapSize).

(** [Impl::unmap(addr, size, fenceFd)].  [fenceFd] is [None] for a null
    pointer, else the [int] it points to; the result carries that
    [int] after the call. *)
Definition Impl_unmap (this : Impl) (addr size : Z) (fenceFd : option Z)
  : SF Log (C2Error * option Z * Impl) :=
  let* a := read (mMapAddr this) in
  let* al := read (mMapAlignmentBytes this) in
  if negb (addr =? ptr_add a al) then pure (C2_BAD_VALUE, fenceFd, this)
  else
    let* sz := read (mMapSize this) in
    if negb (size_t (size + al) =? sz) then
      pure (C2_BAD_VALUE, fenceFd, this)
    else
      let* r := call drv (Munmap a sz) in
      let err := r_ret r in
      if negb (err =? 0) then
        pure (c2_map_errno [N_EINVAL] (r_errno r), fenceFd, this)
      else
        pure (C2_OK,
              match fenceFd with Some _ => Some (-1) | None => None end,
              this).

(** [~Impl()]. *)
Definition Impl_destroy (this : Impl) : SF Log unit :=
  let* _ := (if negb (mMapFd this =? -1)
             then let* _ := call drv (Close (mMapFd this)) in pure tt
             else pure tt) in
  let* _ := call drv (IonFree (C2HandleIon.ionFd (mHandle this))
                        (C2HandleIon.buffer (mHandle this))) in
  pure tt.

Definition Impl_status (this : Impl) : C2Error := mInit this.

(** [C2AllocationIon(ionFd, size, align, heapMask, flags)]: the base
    [C2LinearAllocation(size)], then [new Impl(...)].  Its callers
    pass a [uint32_t] size. *)
Definition new (ionFd size align heapMask flags : Z) : SF Log t :=
  let* impl := Impl_alloc ionFd size align heapMask flags in
  pure {| capacity := size; mImpl := impl |}.

(** [C2AllocationIon(ionFd, size, shareFd)]. *)
Definition import (ionFd size shareFd : Z) : SF Log t :=
  let* impl := Impl_import ionFd size shareFd in
  pure {| capacity := size; mImpl := impl |}.

Definition map (this : t) (offset size : Z) (usage : C2MemoryUsage)
  : SF Log (C2Error * Z * t) :=
  let* '(err, addr, impl) := Impl_map (mImpl this) offset size usage in
  pure (err, addr, {| capacity := capacity this; mImpl := impl |}).

Definition unmap (this : t) (addr size : Z) (fenceFd : option Z)
  : SF Log (C2Error * option Z * t) :=
  let* '(err, fence, impl) := Impl_unmap (mImpl this) addr size fenceFd in
  pure (err, fence, {| capacity := capacity this; mImpl := impl |}).

Definition status (this : t) : C2Error := Impl_status (mImpl this).

Definition isValid (this : t) : bool := status this =? C2_OK.

Definition handle (this : t) : C2Handle.t := mHandle (mImpl this).

(** [~C2AllocationIon()]. *)
Definition destroy (this : t) : SF Log unit := Impl_destroy (mImpl this).
End Methods.
End C2AllocationIon.

(** ** The world: the log and the heap of allocations *)

(** A location of the heap stands for a non-null
    [std::shared_ptr<C2LinearAllocation>]. *)
Definition loc : Type := positive.

Record World : Type := {
  w_log : Log;
  w_heap : gmap positive C2AllocationIon.t
}.

(** A computation on the log, run in the world. *)
Definition sys {A : Type} (m : SF Log A) : SF World A :=
  fun w => match m (w_log w) with
           | Some (a, l) => Some (a, {| w_log := l; w_heap := w_heap w |})
           | None => None
           end.

(** [std::make_shared]: run the constructor, place the object at a
    location that is not in use. *)
Definition make_shared (ctor : SF Log C2AllocationIon.t) : SF World loc :=
  let* a := sys ctor in
  fun w => let p := fresh (dom (w_heap w)) in
           Some (p, {| w_log := w_log w; w_heap := <[p := a]> (w_heap w) |}).

(** Reading through the pointer. *)
Definition deref (p : loc) : SF World C2AllocationIon.t :=
  fun w => match w_heap w !! p with
           | Some a => Some (a, w)
           | None => None
           end.

(** Calling a method that may change the object it is called on. *)
Definition invoke {A : Type} (p : loc)
    (method : C2AllocationIon.t -> SF Log (A * C2AllocationIon.t)) : SF World A :=
  let* a := deref p in
  let* '(r, a') := sys (method a) in
  fun w => Some (r, {| w_log := w_log w; w_heap := <[p := a']> (w_heap w) |}).

(** The last reference goes away: the destructor runs and the object is
    gone. *)
Definition release (drv : Driver) (p : loc) : SF World unit :=
  let* a := deref p in
  let* _ := sys (C2AllocationIon.destroy drv a) in
  fun w => Some (tt, {| w_log := w_log w; w_heap := delete p (w_heap w) |}).

(** ** ION allocator *)

Module C2AllocatorIon.

Record t : Type := {
  mInit : C2Error;
  mIonFd : Z
}.

Section Methods.
Context `{EC : C2ErrorCodes} (drv : Driver).

(** [C2AllocatorIon()]. *)
Definition new : SF Log t :=
  let* r := call drv IonOpen in
  let this := {| mInit := C2_OK; mIonFd := r_ret r |} in
  if mIonFd this <? 0 then
    let errno := r_errno r in
    if errno =? ENOENT then
      pure {| mInit := C2_UNSUPPORTED; mIonFd := mIonFd this |}
    else
      pure {| mInit := c2_map_errno [N_EACCES] errno;
              mIonFd := mIonFd this |}
  else
    pure this.

(** [~C2AllocatorIon()]. *)
Definition destroy (this : t) : SF Log unit :=
  if mInit this =? C2_OK then
    let* _ := call drv (IonClose (mIonFd this)) in pure tt
  else pure tt.

(** [allocateLinearBuffer(capacity, usage, allocation)].  The result is
    the error and the final [*allocation], [None] for [nullptr]; the
    pointer the caller passes is taken to hold nothing on entry. *)
Definition allocateLinearBuffer (this : t) (capacity : Z)
    (usage : C2MemoryUsage) : SF World (C2Error * option loc) :=
  let allocation : option loc := None in
  if negb (mInit this =? C2_OK) then pure (C2_UNSUPPORTED, allocation)
  else
    let align := 0 in
    let heapMask := 2 ^ 32 - 1 in
    let flags := 0 in
    let* alloc := make_shared
                    (C2AllocationIon.new drv (mIonFd this) capacity align
                       heapMask flags) in
    let* a := deref alloc in
    let ret := C2AllocationIon.status a in
    if ret =? C2_OK then
      let allocation := Some alloc in
      pure (ret, allocation)
    else
      let* _ := release drv alloc in
      pure (ret, allocation).

(** [recreateLinearBuffer(handle, allocation)]. *)
Definition recreateLinearBuffer (this : t) (handle : option C2Handle.t)
  : SF World (C2Error * option loc) :=
  let allocation : option loc := None in
  if negb (mInit this =? C2_OK) then pure (C2_UNSUPPORTED, allocation)
  else if negb (C2HandleIon.isValid handle) then
    pure (C2_BAD_VALUE, allocation)
  else
    let* h := read handle in
    let* alloc := make_shared
                    (C2AllocationIon.import drv (mIonFd this) 0
                       (C2HandleIon.buffer h)) in
    let* a := deref alloc in
    let ret := C2AllocationIon.status a in
    if ret =? C2_OK then
      let allocation := Some alloc in
      pure (ret, allocation)
    else
      let* _ := release drv alloc in
      pure (ret, allocation).
End Methods.
End C2AllocatorIon.

(** ** Capacity and range aspects *)

Module LinearRange.

(** Modelled from the spec: [_C2LinearCapacityAspect] and
    [_C2LinearRangeAspect] of C2Buffer.h, which the source includes
    and inherits from.  A range is a capacity with an offset and a
    size inside it. *)
Record t : Type := {
  capacity : Z;
  offset : Z;
  size : Z
}.

(** Modelled from the spec: the constructor [_C2LinearRangeAspect(parent)]
    of C2Buffer.h; a range built without offset and size covers the
    full capacity. *)
Definition full (capacity : Z) : t :=
  {| capacity := capacity; offset := 0; size := capacity |}.

(** Modelled from the spec: the constructor
    [_C2LinearRangeAspect(parent, offset, size)] of C2Buffer.h; the
    offset is clamped to the capacity and the size to what is left
    after the offset. *)
Definition clamped (capacity offset size : Z) : t :=
  let mOffset := Z.min offset capacity in
  {| capacity := capacity; offset := mOffset;
     size := Z.min size (capacity - mOffset) |}.

(** Modelled from the spec: [_C2EditableLinearRange::setOffset_be] of
    C2Buffer.h, the best-effort offset setter; the offset is clamped to
    the capacity and the size to what is left after it. *)
Definition setOffset_be (this : t) (offset : Z) : t :=
  let mOffset := Z.min offset (capacity this) in
  {| capacity := capacity this; offset := mOffset;
     size := Z.min (size this) (capacity this - mOffset) |}.

(** Modelled from the spec: [_C2EditableLinearRange::setSize_be] of
    C2Buffer.h, the best-effort size setter. *)
Definition setSize_be (this : t) (size : Z) : t :=
  {| capacity := capacity this; offset := offset this;
     size := Z.min size (capacity this - offset this) |}.

(** Modelled from the spec: the constructor
    [_C2EditableLinearRange(parent)] of C2Buffer.h, from which a write
    view starts before its offset and size are set: the full range over
    the capacity of the parent, over no capacity without a parent. *)
Definition editable (parent : option t) : t :=
  full (match parent with Some p => capacity p | None => 0 end).

(** The invariant of a range. *)
Definition ok (r : t) : Prop :=
  0 <= offset r /\ 0 <= size r /\ offset r + size r <= capacity r.
End LinearRange.

(** ** Views *)

(** Modelled from the spec: [C2Acquirable<T>] of C2Buffer.h, a read-only
    triple of an error, a fence and a view, built by the source in this
    order. *)
Record C2Acquirable (T : Type) : Type := {
  acq_error : C2Error;
  acq_fence : C2Fence;
  acq_view : T
}.
Arguments acq_error {T} _.
Arguments acq_fence {T} _.
Arguments acq_view {T} _.

Module C2ReadView.

(** The capacity of the [_C2LinearCapacityAspect] base, taken from the
    parent at construction, and the two members of the [Impl]. *)
Record t : Type := {
  capacity : Z;
  mData : Z;
  mError : C2Error
}.

Section Methods.
Context `{EC : C2ErrorCodes}.

(** [C2ReadView(parent, data)]. *)
Definition of_data (parent_capacity data : Z) : t :=
  {| capacity := parent_capacity; mData := data; mError := C2_OK |}.

(** [C2ReadView(error)]. *)
Definition of_error (error : C2Error) : t :=
  {| capacity := 0; mData := nullptr; mError := error |}.

Definition data (this : t) : Z := mData this.
Definition error (this : t) : C2Error := mError this.

(** [subView(offset, size)]. *)
Definition subView (this : t) (offset size : Z) : t :=
  let offset := if offset >? capacity this then capacity this else offset in
  let size := if size >? capacity this - offset
              then capacity this - offset else size in
  let newCapacity := size mod 2 ^ 32 in
  of_data newCapacity (ptr_add (data this) offset).
End Methods.
End C2ReadView.

Module C2WriteView.

(** The editable range and the two members of the [Impl]. *)
Record t : Type := {
  range : LinearRange.t;
  mBase : Z;
  mError : C2Error
}.

Section Methods.
Context `{EC : C2ErrorCodes}.

(** [C2WriteView(parent, base)]. *)
Definition of_base (parent : LinearRange.t) (base : Z) : t :=
  {| range := LinearRange.editable (Some parent);
     mBase := base; mError := C2_OK |}.

(** [C2WriteView(error)]: the range has no parent. *)
Definition of_error (error : C2Error) : t :=
  {| range := LinearRange.editable None; mBase := nullptr; mError := error |}.

Definition setOffset_be (this : t) (offset : Z) : t :=
  {| range := LinearRange.setOffset_be (range this) offset;
     mBase := mBase this; mError := mError this |}.

Definition setSize_be (this : t) (size : Z) : t :=
  {| range := LinearRange.setSize_be (range this) size;
     mBase := mBase this; mError := mError this |}.

Definition offset (this : t) : Z := LinearRange.offset (range this).
Definition size (this : t) : Z := LinearRange.size (range this).
Definition base (this : t) : Z := mBase this.
Definition data (this : t) : Z := ptr_add (mBase this) (offset this).
Definition error (this : t) : C2Error := mError this.
End Methods.
End C2WriteView.

(** ** Blocks *)

Module C2ConstLinearBlock.

Record Impl : Type := {
  mAllocation : loc;
  mBase : Z;
  mSize : Z;
  mError : C2Error
}.

(** The range aspect and the allocation of the [C2Block1D] base, the
    [Impl] and the fence. *)
Record t : Type := {
  range : LinearRange.t;
  block1D_mAllocation : loc;
  mImpl : Impl;
  mFence : C2Fence
}.

Definition capacity (this : t) : Z := LinearRange.capacity (range this).
Definition offset (this : t) : Z := LinearRange.offset (range this).
Definition size (this : t) : Z := LinearRange.size (range this).

Section Methods.
Context `{EC : C2ErrorCodes} `{MU : C2MemoryUsageFlags} (drv : Driver).

(** [Impl(alloc)]. *)
Definition Impl_new (alloc : loc) : Impl :=
  {| mAllocation := alloc; mBase := nullptr; mSize := 0;
     mError := C2_CORRUPTED |}.

(** [C2ConstLinearBlock(alloc)]; the range aspect reads the capacity
    of the allocation. *)
Definition new (alloc : loc) : SF World t :=
  let* a := deref alloc in
  pure {| range := LinearRange.full (C2AllocationIon.capacity a);
          block1D_mAllocation := alloc;
          mImpl := Impl_new alloc;
          mFence := C2Fence_default |}.

(** [C2ConstLinearBlock(alloc, offset, size)]. *)
Definition new_range (alloc : loc) (offset size : Z) : SF World t :=
  let* a := deref alloc in
  pure {| range := LinearRange.clamped (C2AllocationIon.capacity a)
                     offset size;
          block1D_mAllocation := alloc;
          mImpl := Impl_new alloc;
          mFence := C2Fence_default |}.

(** [Impl::subBlock(offset, size)]. *)
Definition Impl_subBlock (this : Impl) (offset size : Z) : SF World t :=
  new_range (mAllocation this) offset size.

(** [Impl::map(offset, size)]. *)
Definition Impl_map (this : Impl) (offset size : Z) : SF World Impl :=
  if mBase this =? nullptr then
    let* '(err, base) :=
      invoke (mAllocation this)
        (fun a => C2AllocationIon.map drv a offset size
                    {| mConsumer := kSoftwareRead; mProducer := 0 |}) in
    let this := {| mAllocation := mAllocation this; mBase := mBase this;
                   mSize := mSize this; mError := err |} in
    if mError this =? C2_OK then
      pure {| mAllocation := mAllocation this; mBase := base;
              mSize := size; mError := mError this |}
    else pure this
  else pure this.

Definition Impl_base (this : Impl) : Z := mBase this.
Definition Impl_error (this : Impl) : C2Error := mError this.

(** [map()].  The [Impl] is reached through a pointer and changes; the
    block comes back with it. *)
Definition map (this : t) : SF World (C2Acquirable C2ReadView.t * t) :=
  let* impl := Impl_map (mImpl this) (offset this) (size this) in
  let this := {| range := range this;
                 block1D_mAllocation := block1D_mAllocation this;
                 mImpl := impl; mFence := mFence this |} in
  if Impl_base (mImpl this) =? nullptr then
    let view := C2ReadView.of_error (Impl_error (mImpl this)) in
    pure ({| acq_error := Impl_error (mImpl this);
             acq_fence := mFence this; acq_view := view |}, this)
  else
    let newCapacity := size this in
    let view := C2ReadView.of_data newCapacity (Impl_base (mImpl this)) in
    pure ({| acq_error := Impl_error (mImpl this);
             acq_fence := mFence this; acq_view := view |}, this).

(** [subBlock(offset, size)]. *)
Definition subBlock (this : t) (offset size : Z) : SF World t :=
  Impl_subBlock (mImpl this) offset size.

(** [~Impl()]: a recorded base is unmapped with a null fence pointer, and
    the error of [unmap] is dropped.  Letting go of the reference to the
    allocation is not part of the model. *)
Definition Impl_destroy (this : Impl) : SF World unit :=
  if negb (mBase this =? nullptr) then
    let* _ := invoke (mAllocation this)
                (fun a => C2AllocationIon.unmap drv a (mBase this) (mSize this)
                            None) in
    pure tt
  else pure tt.
End Methods.
End C2ConstLinearBlock.

Module C2LinearBlock.

Record Impl : Type := {
  mAllocation : loc;
  mBase : Z;
  mSize : Z;
  mError : C2Error;
  mFence : C2Fence
}.

Record t : Type := {
  range : LinearRange.t;
  block1D_mAllocation : loc;
  mImpl : Impl
}.

Definition capacity (this : t) : Z := LinearRange.capacity (range this).
Definition offset (this : t) : Z := LinearRange.offset (range this).
Definition size (this : t) : Z := LinearRange.size (range this).

Section Methods.
Context `{EC : C2ErrorCodes} `{MU : C2MemoryUsageFlags} (drv : Driver).

(** [Impl(alloc)]. *)
Definition Impl_new (alloc : loc) : Impl :=
  {| mAllocation := alloc; mBase := nullptr; mSize := 0;
     mError := C2_CORRUPTED; mFence := C2Fence_default |}.

(** [C2LinearBlock(alloc)]. *)
Definition new (alloc : loc) : SF World t :=
  let* a := deref alloc in
  pure {| range := LinearRange.full (C2AllocationIon.capacity a);
          block1D_mAllocation := alloc;
          mImpl := Impl_new alloc |}.

(** [C2LinearBlock(alloc, offset, size)]. *)
Definition new_range (alloc : loc) (offset size : Z) : SF World t :=
  let* a := deref alloc in
  pure {| range := LinearRange.clamped (C2AllocationIon.capacity a)
                     offset size;
          block1D_mAllocation := alloc;
          mImpl := Impl_new alloc |}.

(** [Impl::map(capacity)]. *)
Definition Impl_map (this : Impl) (capacity : Z) : SF World Impl :=
  if mBase this =? nullptr then
    let* '(err, base) :=
      invoke (mAllocation this)
        (fun a => C2AllocationIon.map drv a 0 capacity
                    {| mConsumer := kSoftwareRead;
                       mProducer := kSoftwareWrite |}) in
    let this := {| mAllocation := mAllocation this; mBase := mBase this;
                   mSize := mSize this; mError := err;
                   mFence := mFence this |} in
    if mError this =? C2_OK then
      pure {| mAllocation := mAllocation this; mBase := base;
              mSize := capacity; mError := mError this;
              mFence := mFence this |}
    else pure this
  else pure this.

(** [Impl::share(offset, size, fence)]; the fence is not used. *)
Definition Impl_share (this : Impl) (offset size : Z) (fence : C2Fence)
  : SF World C2ConstLinearBlock.t :=
  C2ConstLinearBlock.new_range (mAllocation this) offset size.

Definition Impl_base (this : Impl) : Z := mBase this.
Definition Impl_error (this : Impl) : C2Error := mError this.
Definition Impl_fence (this : Impl) : C2Fence := mFence this.

(** [map()]. *)
Definition map (this : t) : SF World (C2Acquirable C2WriteView.t * t) :=
  let* impl := Impl_map (mImpl this) (capacity this) in
  let this := {| range := range this;
                 block1D_mAllocation := block1D_mAllocation this;
                 mImpl := impl |} in
  if Impl_base (mImpl this) =? nullptr then
    let view := C2WriteView.of_error (Impl_error (mImpl this)) in
    pure ({| acq_error := Impl_error (mImpl this);
             acq_fence := Impl_fence (mImpl this); acq_view := view |},
          this)
  else
    let view := C2WriteView.of_base (range this) (Impl_base (mImpl this)) in
    let view := C2WriteView.setOffset_be view (offset this) in
    let view := C2WriteView.setSize_be view (size this) in
    pure ({| acq_error := Impl_error (mImpl this);
             acq_fence := Impl_fence (mImpl this); acq_view := view |},
          this).

(** [share(offset, size, fence)]. *)
Definition share (this : t) (offset size : Z) (fence : C2Fence)
  : SF World C2ConstLinearBlock.t :=
  Impl_share (mImpl this) offset size fence.

(** [~Impl()]. *)
Definition Impl_destroy (this : Impl) : SF World unit :=
  if negb (mBase this =? nullptr) then
    let* _ := invoke (mAllocation this)
                (fun a => C2AllocationIon.unmap drv a (mBase this) (mSize this)
                            None) in
    pure tt
  else pure tt.
End Methods.
End C2LinearBlock.

(** ** Block allocator *)

Module C2DefaultBlockAllocator.

(** The allocator behind the [C2Allocator] interface is the ION
    allocator, the one implementation the source has. *)
Record t : Type := {
  mAllocator : C2AllocatorIon.t
}.

Section Methods.
Context `{EC : C2ErrorCodes} (drv : Driver).

(** [allocateLinearBlock(capacity, usage, block)].  The result is the
    error and the final [*block], [None] after [block->reset()]. *)
Definition allocateLinearBlock (this : t) (capacity : Z)
    (usage : C2MemoryUsage) : SF World (C2Error * option C2LinearBlock.t) :=
  let block : option C2LinearBlock.t := None in
  let* '(err, alloc) :=
    C2AllocatorIon.allocateLinearBuffer drv (mAllocator this) capacity usage in
  if negb (err =? C2_OK) then pure (err, block)
  else
    let* p := read alloc in
    let* b := C2LinearBlock.new p in
    pure (C2_OK, Some b).
End Methods.
End C2DefaultBlockAllocator.

(** ** Predicates used in the statements *)

(** The values of a C [int]. *)
Definition is_int (v : Z) : Prop := - 2 ^ 31 <= v < 2 ^ 31.

(** The allocation [Impl(ionFd, capacity, align, heapMask, flags)] builds
    when [ion_alloc] returns 0 and stores [buffer]. *)
Definition allocated_impl `{EC : C2ErrorCodes} (ionFd capacity buffer : Z)
  : C2AllocationIon.Impl :=
  {| C2AllocationIon.mInit := C2_OK;
     C2AllocationIon.mHandle := C2HandleIon.new ionFd buffer;
     C2AllocationIon.mMapFd := -1;
     C2AllocationIon.mMapAddr := None;
     C2AllocationIon.mMapAlignmentBytes := None;
     C2AllocationIon.mMapSize := None;
     C2AllocationIon.mCapacity := capacity |}.

(** ** A sample environment

    One assignment of distinct codes, one of usage flags, and three
    drivers, to run the model on concrete inputs. *)

Definition sample_codes : C2ErrorCodes :=
  {| C2_OK := 0;
     C2_BAD_VALUE := -22;
     C2_NO_PERMISSION := -13;
     C2_NO_MEMORY := -12;
     C2_UNSUPPORTED := -38;
     C2_CORRUPTED := -14;
     C2_codes_distinct := ltac:(apply (bool_decide_unpack _); vm_compute; exact I) |}.

Definition sample_flags : C2MemoryUsageFlags :=
  {| kSoftwareRead := 3; kSoftwareWrite := 48 |}.

Definition resp (ret errno out1 out2 : Z) : DriverResp :=
  {| r_ret := ret; r_errno := errno; r_out1 := out1; r_out2 := out2 |}.

(** A driver on which every call succeeds: descriptor 3 for the driver,
    buffer 7, a first mapping at [0x10000] through descriptor 5, later
    mappings at [0x20000]. *)
Definition good_driver : Driver :=
  fun _ c =>
    match c with
    | IonOpen => resp 3 0 0 0
    | IonAlloc _ _ _ _ _ => resp 0 0 7 0
    | IonImport _ _ => resp 0 0 7 0
    | IonMap _ _ _ _ _ _ => resp 0 0 65536 5
    | Mmap _ _ _ _ _ _ => resp 131072 0 0 0
    | _ => resp 0 0 0 0
    end.

(** The same driver, except that [munmap] fails with [EINVAL]. *)
Definition munmap_einval_driver : Driver :=
  fun l c =>
    match c with
    | Munmap _ _ => resp (-1) EINVAL 0 0
    | _ => good_driver l c
    end.

(** A system without the ION driver: the open fails with [ENOENT], and so
    would every other call. *)
Definition no_ion_driver : Driver :=
  fun _ _ => resp (-1) ENOENT 0 0.

(** A driver whose mappings fail with [ENOMEM]. *)
Definition map_failing_driver : Driver :=
  fun l c =>
    match c with
    | IonMap _ _ _ _ _ _ => resp (- ENOMEM) ENOMEM 0 0
    | Mmap _ _ _ _ _ _ => resp MAP_FAILED ENOMEM 0 0
    | _ => good_driver l c
    end.

Definition empty_world : World := {| w_log := []; w_heap := ∅ |}.

Definition rw_usage : C2MemoryUsage := {| mConsumer := 3; mProducer := 48 |}.

(** A working allocator on descriptor 3. *)
Definition sample_allocator : C2AllocatorIon.t :=
  {| C2AllocatorIon.mInit := 0; C2AllocatorIon.mIonFd := 3 |}.

(** An allocation of 4096 bytes as [Impl(3, 4096, 0, ~0, 0)] leaves it on
    [good_driver], and the same after [map(0, 4096, rw)]. *)
Definition fresh_impl : C2AllocationIon.Impl :=
  {| C2AllocationIon.mInit := 0;
     C2AllocationIon.mHandle := C2HandleIon.new 3 7;
     C2AllocationIon.mMapFd := -1;
     C2AllocationIon.mMapAddr := None;
     C2AllocationIon.mMapAlignmentBytes := None;
     C2AllocationIon.mMapSize := None;
     C2AllocationIon.mCapacity := 4096 |}.

Definition mapped_impl : C2AllocationIon.Impl :=
  {| C2AllocationIon.mInit := 0;
     C2AllocationIon.mHandle := C2HandleIon.new 3 7;
     C2AllocationIon.mMapFd := 5;
     C2AllocationIon.mMapAddr := Some 65536;
     C2AllocationIon.mMapAlignmentBytes := Some 0;
     C2AllocationIon.mMapSize := Some 4096;
     C2AllocationIon.mCapacity := 4096 |}.

(** A world holding one allocation of capacity 100 at location 1. *)
Definition small_alloc : C2AllocationIon.t :=
  {| C2AllocationIon.capacity := 100;
     C2AllocationIon.mImpl :=
       {| C2AllocationIon.mInit := 0;
          C2AllocationIon.mHandle := C2HandleIon.new 3 7;
          C2AllocationIon.mMapFd := -1;
          C2AllocationIon.mMapAddr := None;
          C2AllocationIon.mMapAlignmentBytes := None;
          C2AllocationIon.mMapSize := None;
          C2AllocationIon.mCapacity := 100 |} |}.

Definition small_world : World :=
  {| w_log := []; w_heap := {[ 1%positive := small_alloc ]} |}.

(** The block [C2LinearBlock(alloc, 10, 50)] and the block
    [C2ConstLinearBlock(alloc, 10, 50)] over the allocation at location
    1 of [small_world]. *)
Definition sample_linear_block : C2LinearBlock.t :=
  {| C2LinearBlock.range :=
       {| LinearRange.capacity := 100; LinearRange.offset := 10;
          LinearRange.size := 50 |};
     C2LinearBlock.block1D_mAllocation := 1%positive;
     C2LinearBlock.mImpl :=
       {| C2LinearBlock.mAllocation := 1%positive;
          C2LinearBlock.mBase := 0;
          C2LinearBlock.mSize := 0;
          C2LinearBlock.mError := -14;
          C2LinearBlock.mFence := C2Fence_default |} |}.

Definition sample_const_block : C2ConstLinearBlock.t :=
  {| C2ConstLinearBlock.range :=
       {| LinearRange.capacity := 100; LinearRange.offset := 10;
          LinearRange.size := 50 |};
     C2ConstLinearBlock.block1D_mAllocation := 1%positive;
     C2ConstLinearBlock.mImpl :=
       {| C2ConstLinearBlock.mAllocation := 1%positive;
          C2ConstLinearBlock.mBase := 0;
          C2ConstLinearBlock.mSize := 0;
          C2ConstLinearBlock.mError := -14 |};
     C2ConstLinearBlock.mFence := C2Fence_default |}.

(** A driver on which [ion_alloc] fails with [ENOMEM]. *)
Definition alloc_failing_driver : Driver :=
  fun l c =>
    match c with
    | IonAlloc _ _ _ _ _ => resp (- ENOMEM) ENOMEM 0 0
    | _ => good_driver l c
    end.

(** The allocation of [small_world] after the mutable sample block mapped
    it (a first mapping at [0x10000] through descriptor 5) and the const
    sample block mapped its window after that (a second mapping at
    [0x20000], padding 10, 60 bytes), and the world that holds it. *)
Definition remapped_alloc : C2AllocationIon.t :=
  {| C2AllocationIon.capacity := 100;
     C2AllocationIon.mImpl :=
       {| C2AllocationIon.mInit := 0;
          C2AllocationIon.mHandle := C2HandleIon.new 3 7;
          C2AllocationIon.mMapFd := 5;
          C2AllocationIon.mMapAddr := Some 131072;
          C2AllocationIon.mMapAlignmentBytes := Some 10;
          C2AllocationIon.mMapSize := Some 60;
          C2AllocationIon.mCapacity := 100 |} |}.

Definition remapped_world : World :=
  {| w_log := [Mmap 0 60 1 2 5 0; IonMap 3 7 100 3 1 0];
     w_heap := {[ 1%positive := remapped_alloc ]} |}.

(** The [Impl] of the mutable sample block after its mapping. *)
Definition mapped_linear_impl : C2LinearBlock.Impl :=
  {| C2LinearBlock.mAllocation := 1%positive;
     C2LinearBlock.mBase := 65536;
     C2LinearBlock.mSize := 100;
     C2LinearBlock.mError := 0;
     C2LinearBlock.mFence := C2Fence_default |}.

(** A read view of 50 bytes. *)
Definition sample_read_view : C2ReadView.t :=
  {| C2ReadView.capacity := 50; C2ReadView.mData := 65546;
     C2ReadView.mError := 0 |}.

(** * Properties *)

(** ** The errno table *)

Section ErrnoMapFacts.
Context `{EC : C2ErrorCodes}.

Lemma errno_of_inj (E E' : errno_case) : errno_of E = errno_of E' -> E = E'.
Proof. destruct E, E'; vm_compute; congruence. Qed.

Lemma c2_map_errno_listed (N : list errno_case) (E : errno_case) :
  In E N -> c2_map_errno N (errno_of E) = _c2_errno2error_impl E.
Proof.
  unfold c2_map_errno.
  induction N as [|E' N' IH]; simpl; [tauto|].
  intros [-> | HIn].
  - now rewrite Z.eqb_refl.
  - destruct (Z.eqb_spec (errno_of E) (errno_of E')) as [Heq | _].
    + now rewrite (errno_of_inj _ _ Heq).
    + auto.
Qed.

Lemma c2_map_errno_unlisted (N : list errno_case) (result : Z) :
  ~ In result (List.map errno_of N) ->
  c2_map_errno N result = if result =? 0 then C2_OK else C2_CORRUPTED.
Proof.
  unfold c2_map_errno.
  induction N as [|E' N' IH]; simpl; [reflexivity|].
  intros Hnot.
  destruct (Z.eqb_spec result (errno_of E')) as [Heq | _].
  - exfalso. apply Hnot. now left.
  - apply IH. tauto.
Qed.

Lemma c2_map_errno_zero (N : list errno_case) : c2_map_errno N 0 = C2_OK.
Proof.
  unfold c2_map_errno.
  induction N as [|E' N' IH]; cbn [_c2_map_errno_impl]; [reflexivity|].
  destruct (Z.eqb_spec 0 (errno_of E')) as [Heq | _]; [|exact IH].
  now destruct E'.
Qed.

(** The codes differ from [C2_OK]. *)
Lemma C2_codes_not_OK :
  C2_BAD_VALUE <> C2_OK /\ C2_NO_PERMISSION <> C2_OK /\
  C2_NO_MEMORY <> C2_OK /\ C2_UNSUPPORTED <> C2_OK /\ C2_CORRUPTED <> C2_OK.
Proof.
  pose proof C2_codes_distinct as H.
  apply NoDup_cons in H as [H _].
  rewrite !not_elem_of_cons in H.
  intuition congruence.
Qed.
End ErrnoMapFacts.

Section ErrnoClaims.
Context `{EC : C2ErrorCodes}.

(** C2.  [c2_map_errno] is a total function of the table [N] it is
    instantiated at and of the errno value: a value listed in [N] maps
    to its fixed code ([0] to [C2_OK], [EINVAL] to [C2_BAD_VALUE],
    [EACCES] and [EPERM] to [C2_NO_PERMISSION], [ENOMEM] to
    [C2_NO_MEMORY]), a nonzero value not listed in [N] maps to
    [C2_CORRUPTED], zero maps to [C2_OK], and equal inputs give equal
    outputs. *)
Theorem c2_map_errno_total_table (N : list errno_case) (result : Z) :
  (In N_0 N -> c2_map_errno N 0 = C2_OK) /\
  (In N_EINVAL N -> c2_map_errno N EINVAL = C2_BAD_VALUE) /\
  (In N_EACCES N -> c2_map_errno N EACCES = C2_NO_PERMISSION) /\
  (In N_EPERM N -> c2_map_errno N EPERM = C2_NO_PERMISSION) /\
  (In N_ENOMEM N -> c2_map_errno N ENOMEM = C2_NO_MEMORY) /\
  (forall E : errno_case,
      In E N -> result = errno_of E ->
      c2_map_errno N result = _c2_errno2error_impl E) /\
  (result <> 0 -> ~ In result (List.map errno_of N) ->
   c2_map_errno N result = C2_CORRUPTED) /\
  (result = 0 -> c2_map_errno N result = C2_OK) /\
  (exists e : C2Error, c2_map_errno N result = e) /\
  (forall result' : Z,
      result' = result -> c2_map_errno N result' = c2_map_errno N result).
Proof.
  repeat split.
  - intros _. apply c2_map_errno_zero.
  - apply (c2_map_errno_listed N N_EINVAL).
  - apply (c2_map_errno_listed N N_EACCES).
  - apply (c2_map_errno_listed N N_EPERM).
  - apply (c2_map_errno_listed N N_ENOMEM).
  - intros E HIn ->. now apply c2_map_errno_listed.
  - intros Hnz Hnot. rewrite (c2_map_errno_unlisted N result Hnot).
    now destruct (Z.eqb_spec result 0).
  - intros ->. apply c2_map_errno_zero.
  - eexists. reflexivity.
  - now intros result' ->.
Qed.

(** The three tables the source instantiates: [<ENOMEM, EACCES, EINVAL>]
    for [ion_alloc], [<EINVAL>] for the mapping calls and [<EACCES>] for
    [ion_open].  A value another table lists is unlisted here. *)
Lemma c2_map_errno_alloc_table (result : Z) :
  c2_map_errno [N_ENOMEM; N_EACCES; N_EINVAL] result =
  if result =? ENOMEM then C2_NO_MEMORY
  else if result =? EACCES then C2_NO_PERMISSION
  else if result =? EINVAL then C2_BAD_VALUE
  else if result =? 0 then C2_OK else C2_CORRUPTED.
Proof. reflexivity. Qed.

Lemma c2_map_errno_map_table (result : Z) :
  c2_map_errno [N_EINVAL] result =
  if result =? EINVAL then C2_BAD_VALUE
  else if result =? 0 then C2_OK else C2_CORRUPTED.
Proof. reflexivity. Qed.

Lemma c2_map_errno_open_table (result : Z) :
  c2_map_errno [N_EACCES] result =
  if result =? EACCES then C2_NO_PERMISSION
  else if result =? 0 then C2_OK else C2_CORRUPTED.
Proof. reflexivity. Qed.

Lemma c2_map_errno_nonzero (N : list errno_case) (result : Z) :
  ~ In N_0 N -> result <> 0 -> c2_map_errno N result <> C2_OK.
Proof.
  intros H0 Hnz.
  destruct C2_codes_not_OK as (Hb & Hp & Hm & Hu & Hc).
  unfold c2_map_errno.
  induction N as [|E N' IH]; cbn [_c2_map_errno_impl].
  - now destruct (Z.eqb_spec result 0).
  - destruct (Z.eqb_spec result (errno_of E)) as [Heq | Hne].
    + destruct E; simpl in *; try assumption. tauto.
    + apply IH. simpl in H0. tauto.
Qed.
End ErrnoClaims.

(** ** The handle check *)

Lemma memcmp_zero_iff (n : nat) (a b : list Z) :
  length a = n -> length b = n -> memcmp a b n = 0 <-> a = b.
Proof.
  revert a b.
  induction n as [|n IH]; intros [|x a] [|y b]; simpl; try discriminate.
  - tauto.
  - intros Ha Hb. injection Ha as Ha. injection Hb as Hb.
    destruct (Z.eqb_spec x y) as [-> | Hne].
    + rewrite (IH a b Ha Hb). split; congruence.
    + split; [lia | congruence].
Qed.

Lemma le_bytes_length (n : nat) (v : Z) : length (le_bytes n v) = n.
Proof. revert v. induction n as [|n IH]; intros v; simpl; auto. Qed.

Lemma le_bytes_inj (n : nat) (a b : Z) :
  le_bytes n a = le_bytes n b -> a mod 256 ^ Z.of_nat n = b mod 256 ^ Z.of_nat n.
Proof.
  revert a b.
  induction n as [|n IH]; intros a b Heq.
  - simpl. now rewrite !Z.mod_1_r.
  - simpl in Heq. injection Heq as H0 Hrest.
    apply IH in Hrest.
    rewrite Nat2Z.inj_succ, Z.pow_succ_r by lia.
    rewrite !Z.rem_mul_r by lia.
    congruence.
Qed.

Lemma int_bytes_inj (a b : Z) :
  is_int a -> is_int b -> int_bytes a = int_bytes b -> a = b.
Proof.
  unfold is_int, int_bytes. intros Ha Hb Heq.
  apply le_bytes_inj in Heq.
  change (256 ^ Z.of_nat 4) with (2 ^ 32) in Heq.
  pose proof (Z.div_mod a (2 ^ 32)) as Da.
  pose proof (Z.div_mod b (2 ^ 32)) as Db.
  lia.
Qed.

Lemma header_bytes_length (h : C2Handle.t) : length (header_bytes h) = 12%nat.
Proof. reflexivity. Qed.

Lemma header_bytes_inj (h h' : C2Handle.t) :
  header_bytes h = header_bytes h' ->
  int_bytes (C2Handle.version h) = int_bytes (C2Handle.version h') /\
  int_bytes (C2Handle.numFds h) = int_bytes (C2Handle.numFds h') /\
  int_bytes (C2Handle.numInts h) = int_bytes (C2Handle.numInts h').
Proof.
  unfold header_bytes. intros Heq.
  apply app_inj_1 in Heq as [H1 Heq]; [|reflexivity].
  apply app_inj_1 in Heq as [H2 H3]; [|reflexivity].
  auto.
Qed.

(** The check accepts exactly the handles with the bytes of [cHeader] and
    the magic. *)
Lemma isValid_true_iff (h : C2Handle.t) :
  C2HandleIon.isValid (Some h) = true <->
  header_bytes h = header_bytes C2HandleIon.cHeader /\
  C2HandleIon.mMagic h = C2HandleIon.kMagic.
Proof.
  unfold C2HandleIon.isValid.
  pose proof (memcmp_zero_iff 12 (header_bytes h)
                (header_bytes C2HandleIon.cHeader) eq_refl eq_refl) as Hcmp.
  change (Z.to_nat C2HandleIon.sizeof_C2Handle) with 12%nat.
  destruct (Z.eqb_spec (memcmp (header_bytes h)
                          (header_bytes C2HandleIon.cHeader) 12) 0)
    as [H0 | Hne]; simpl.
  - rewrite Z.eqb_eq. tauto.
  - split; [discriminate | tauto].
Qed.

(** A handle the allocation builds passes the check. *)
Lemma isValid_new (ionFd buffer : Z) :
  C2HandleIon.isValid (Some (C2HandleIon.new ionFd buffer)) = true.
Proof. reflexivity. Qed.

(** A handle that passes the check and announces its payload truly has
    the three payload [int]s the check reads. *)
Lemma isValid_payload (h : C2Handle.t) :
  is_int (C2Handle.numFds h) -> is_int (C2Handle.numInts h) ->
  Z.of_nat (length (C2Handle.data h)) = C2Handle.numFds h + C2Handle.numInts h ->
  C2HandleIon.isValid (Some h) = true ->
  length (C2Handle.data h) = 3%nat.
Proof.
  intros Hf Hi Hlen Hv.
  apply isValid_true_iff in Hv as [Hh _].
  apply header_bytes_inj in Hh as (_ & H2 & H3).
  apply int_bytes_inj in H2; [|assumption|vm_compute; split; congruence].
  apply int_bytes_inj in H3; [|assumption|vm_compute; split; congruence].
  simpl in H2, H3. rewrite H2, H3 in Hlen.
  change (C2HandleIon.numFds + C2HandleIon.numInts) with 3 in Hlen. lia.
Qed.

Section HandleClaims.
Context `{EC : C2ErrorCodes} (drv : Driver).

(** C3.  The ION handle check returns false on a null handle, on a
    handle one of whose header bytes (version, descriptor count,
    integer count) differs from the expected constants, and on a handle
    whose magic integer differs from the ION magic; on a working
    allocator [recreateLinearBuffer] returns [C2_BAD_VALUE] for every
    handle that fails the check, stores no allocation, and leaves the
    heap and the driver log as they were. *)
Theorem isValid_rejects_recreate_bad_value :
  C2HandleIon.isValid None = false /\
  (forall h : C2Handle.t,
      header_bytes h <> header_bytes C2HandleIon.cHeader ->
      C2HandleIon.isValid (Some h) = false) /\
  (forall h : C2Handle.t,
      is_int (C2Handle.version h) -> is_int (C2Handle.numFds h) ->
      is_int (C2Handle.numInts h) ->
      C2Handle.version h <> C2HandleIon.version \/
      C2Handle.numFds h <> C2HandleIon.numFds \/
      C2Handle.numInts h <> C2HandleIon.numInts ->
      C2HandleIon.isValid (Some h) = false) /\
  (forall h : C2Handle.t,
      C2HandleIon.mMagic h <> C2HandleIon.kMagic ->
      C2HandleIon.isValid (Some h) = false) /\
  (forall (this : C2AllocatorIon.t) (handle : option C2Handle.t) (w : World),
      C2AllocatorIon.mInit this = C2_OK ->
      C2HandleIon.isValid handle = false ->
      C2AllocatorIon.recreateLinearBuffer drv this handle w
      = Some ((C2_BAD_VALUE, None), w)).
Proof.
  split; [reflexivity|].
  split; [|split; [|split]].
  - intros h Hne. apply not_true_is_false. rewrite isValid_true_iff. tauto.
  - intros h Hv Hf Hi Hne. apply not_true_is_false.
    rewrite isValid_true_iff. intros [Hh _].
    apply header_bytes_inj in Hh as (H1 & H2 & H3).
    apply int_bytes_inj in H1; [|assumption|vm_compute; split; congruence].
    apply int_bytes_inj in H2; [|assumption|vm_compute; split; congruence].
    apply int_bytes_inj in H3; [|assumption|vm_compute; split; congruence].
    simpl in H1, H2, H3. tauto.
  - intros h Hne. apply not_true_is_false. rewrite isValid_true_iff. tauto.
  - intros this handle w Hinit Hbad.
    unfold C2AllocatorIon.recreateLinearBuffer.
    rewrite Hinit, Z.eqb_refl, Hbad. reflexivity.
Qed.
End HandleClaims.

(** ** The allocator *)

Section WorldFacts.
Context `{EC : C2ErrorCodes} (drv : Driver).

Lemma make_shared_run (ctor : SF Log C2AllocationIon.t) (w : World)
    (a : C2AllocationIon.t) (l : Log) :
  ctor (w_log w) = Some (a, l) ->
  make_shared ctor w
  = Some (fresh (dom (w_heap w)),
          {| w_log := l;
             w_heap := <[fresh (dom (w_heap w)) := a]> (w_heap w) |}).
Proof. intros H. unfold make_shared, bind, sys. now rewrite H. Qed.

Lemma fresh_not_in_heap (w : World) : w_heap w !! fresh (dom (w_heap w)) = None.
Proof. apply not_elem_of_dom. apply is_fresh. Qed.

Lemma release_run (p : loc) (w : World) (a : C2AllocationIon.t) :
  w_heap w !! p = Some a ->
  exists l, C2AllocationIon.destroy drv a (w_log w) = Some (tt, l) /\
    release drv p w = Some (tt, {| w_log := l; w_heap := delete p (w_heap w) |}).
Proof.
  intros H. unfold release, bind, deref, sys. rewrite H.
  unfold C2AllocationIon.destroy, C2AllocationIon.Impl_destroy, bind, call, pure.
  destruct (negb _); eexists; split; reflexivity.
Qed.
End WorldFacts.

Section AllocatorClaims.
Context `{EC : C2ErrorCodes} (drv : Driver).

(** C1.  When the driver open fails (it returns a negative descriptor
    and leaves its nonzero error number in [errno]), the allocator is
    built in a failed state, and from then on every call to
    [allocateLinearBuffer] and to [recreateLinearBuffer], in whatever
    world, returns [C2_UNSUPPORTED] with no allocation and without a
    driver call (the world, log included, is unchanged); when the open
    fails with [ENOENT] the status is [C2_UNSUPPORTED]. *)
Theorem failed_open_short_circuits (l : Log) :
  r_ret (drv l IonOpen) < 0 ->
  r_errno (drv l IonOpen) <> 0 ->
  exists this : C2AllocatorIon.t,
    C2AllocatorIon.new drv l = Some (this, IonOpen :: l) /\
    C2AllocatorIon.mInit this <> C2_OK /\
    (r_errno (drv l IonOpen) = ENOENT ->
     C2AllocatorIon.mInit this = C2_UNSUPPORTED) /\
    (forall (capacity : Z) (usage : C2MemoryUsage) (w : World),
        C2AllocatorIon.allocateLinearBuffer drv this capacity usage w
        = Some ((C2_UNSUPPORTED, None), w)) /\
    (forall (handle : option C2Handle.t) (w : World),
        C2AllocatorIon.recreateLinearBuffer drv this handle w
        = Some ((C2_UNSUPPORTED, None), w)).
Proof.
  intros Hfd Herrno.
  destruct C2_codes_not_OK as (_ & _ & _ & Hu & _).
  assert (Hshort : forall this : C2AllocatorIon.t,
             C2AllocatorIon.mInit this <> C2_OK ->
             (forall capacity usage w,
                 C2AllocatorIon.allocateLinearBuffer drv this capacity usage w
                 = Some ((C2_UNSUPPORTED, None), w)) /\
             (forall handle w,
                 C2AllocatorIon.recreateLinearBuffer drv this handle w
                 = Some ((C2_UNSUPPORTED, None), w))).
  { intros this Hne.
    unfold C2AllocatorIon.allocateLinearBuffer,
      C2AllocatorIon.recreateLinearBuffer.
    apply Z.eqb_neq in Hne. rewrite Hne. split; reflexivity. }
  unfold C2AllocatorIon.new, bind, call.
  cbn [C2AllocatorIon.mIonFd].
  apply Z.ltb_lt in Hfd. rewrite Hfd.
  destruct (Z.eqb_spec (r_errno (drv l IonOpen)) ENOENT) as [He | He].
  - eexists. split; [reflexivity|]. cbn [C2AllocatorIon.mInit].
    split; [exact Hu|]. split; [reflexivity|].
    apply Hshort. exact Hu.
  - eexists. split; [reflexivity|]. cbn [C2AllocatorIon.mInit].
    assert (Hne : c2_map_errno [N_EACCES] (r_errno (drv l IonOpen)) <> C2_OK).
    { apply c2_map_errno_nonzero; [|assumption].
      simpl. intros [H | []]. discriminate. }
    split; [exact Hne|]. split; [tauto|].
    apply Hshort. exact Hne.
Qed.

(** C10.  [allocateLinearBuffer] and [recreateLinearBuffer] always
    return; the allocation they hand back is non-null exactly when the
    error is [C2_OK].  With any other error the caller holds a null
    allocation and the heap is as it was before the call (an allocation
    whose construction failed is destroyed); with [C2_OK] the allocation
    is an object of the heap whose status is [C2_OK]. *)
Theorem allocation_stored_iff_ok :
  (forall (this : C2AllocatorIon.t) (capacity : Z) (usage : C2MemoryUsage)
          (w : World),
      exists (err : C2Error) (allocation : option loc) (w' : World),
        C2AllocatorIon.allocateLinearBuffer drv this capacity usage w
        = Some ((err, allocation), w') /\
        (err <> C2_OK -> allocation = None /\ w_heap w' = w_heap w) /\
        (err = C2_OK ->
         exists (p : loc) (a : C2AllocationIon.t),
           allocation = Some p /\ w_heap w' !! p = Some a /\
           C2AllocationIon.status a = C2_OK)) /\
  (forall (this : C2AllocatorIon.t) (handle : option C2Handle.t) (w : World),
      exists (err : C2Error) (allocation : option loc) (w' : World),
        C2AllocatorIon.recreateLinearBuffer drv this handle w
        = Some ((err, allocation), w') /\
        (err <> C2_OK -> allocation = None /\ w_heap w' = w_heap w) /\
        (err = C2_OK ->
         exists (p : loc) (a : C2AllocationIon.t),
           allocation = Some p /\ w_heap w' !! p = Some a /\
           C2AllocationIon.status a = C2_OK)).
Proof.
  destruct C2_codes_not_OK as (Hb & _ & _ & Hu & _).
  assert (Htail : forall (ctor : SF Log C2AllocationIon.t) (w : World),
    (exists a l, ctor (w_log w) = Some (a, l)) ->
    exists err allocation w',
      (let* alloc := make_shared ctor in
       let* a := deref alloc in
       let ret := C2AllocationIon.status a in
       if ret =? C2_OK then pure (ret, Some alloc)
       else let* _ := release drv alloc in pure (ret, None)) w
      = Some ((err, allocation), w') /\
      (err <> C2_OK -> allocation = None /\ w_heap w' = w_heap w) /\
      (err = C2_OK ->
       exists p a, allocation = Some p /\ w_heap w' !! p = Some a /\
                   C2AllocationIon.status a = C2_OK)).
  { intros ctor w (a & l & Hctor).
    unfold bind at 1. rewrite (make_shared_run ctor w a l Hctor).
    unfold bind at 1. unfold deref at 1. cbn [w_heap].
    rewrite lookup_insert_eq.
    destruct (Z.eqb_spec (C2AllocationIon.status a) C2_OK) as [Hok | Hno].
    - eexists _, _, _. split; [reflexivity|]. split; [tauto|].
      intros _. eexists _, _. split; [reflexivity|].
      cbn [w_heap]. rewrite lookup_insert_eq. auto.
    - set (w1 := {| w_log := l; w_heap := _ |}).
      destruct (release_run drv (fresh (dom (w_heap w))) w1 a) as (l' & _ & Hrel).
      { subst w1. cbn [w_heap]. apply lookup_insert_eq. }
      unfold bind at 1. rewrite Hrel.
      eexists _, _, _. split; [reflexivity|]. split; [|tauto].
      intros _. split; [reflexivity|].
      subst w1. cbn [w_heap]. apply delete_insert_id, fresh_not_in_heap. }
  split.
  - intros this capacity usage w.
    unfold C2AllocatorIon.allocateLinearBuffer.
    destruct (Z.eqb_spec (C2AllocatorIon.mInit this) C2_OK) as [Hok | Hno];
      cbn [negb].
    + apply Htail.
      unfold C2AllocationIon.new, C2AllocationIon.Impl_alloc, bind, call, pure.
      destruct (_ =? 0); eexists _, _; reflexivity.
    + eexists _, _, _. split; [reflexivity|]. split; [auto|tauto].
  - intros this handle w.
    unfold C2AllocatorIon.recreateLinearBuffer.
    destruct (Z.eqb_spec (C2AllocatorIon.mInit this) C2_OK) as [Hok | Hno];
      cbn [negb].
    + destruct (C2HandleIon.isValid handle) eqn:Hv; cbn [negb].
      * destruct handle as [h|]; [|discriminate].
        unfold bind at 1. cbn [read]. unfold pure at 1.
        apply Htail.
        unfold C2AllocationIon.import, C2AllocationIon.Impl_import, bind,
          call, pure.
        destruct (_ =? 0); eexists _, _; reflexivity.
      * eexists _, _, _. split; [reflexivity|]. split; [auto|tauto].
    + eexists _, _, _. split; [reflexivity|]. split; [auto|tauto].
Qed.
End AllocatorClaims.

(** ** The linear allocation *)

Section AllocationClaims.
Context `{EC : C2ErrorCodes} (drv : Driver).

Import C2AllocationIon.

(** C4, as amended.  On an allocation with a recorded mapping, [unmap]
    returns [C2_BAD_VALUE] without a driver call whenever the pair does
    not match the recorded mapping (the address is not the recorded
    address plus the padding, or the size plus the padding is not the
    recorded size).  When the pair matches it calls [munmap] on the
    recorded address and size, once; it returns [C2_OK] (and stores -1
    through a non-null fence pointer) when [munmap] returns 0, else the
    code the [EINVAL] table gives for [errno].  The recorded mapping is
    left as it was in every case. *)
Theorem unmap_checks_recorded_mapping
    (this : Impl) (addr size : Z) (fenceFd : option Z) (l : Log)
    (a al sz : Z) :
  mMapAddr this = Some a ->
  mMapAlignmentBytes this = Some al ->
  mMapSize this = Some sz ->
  exists (err : C2Error) (fence' : option Z) (l' : Log),
    Impl_unmap drv this addr size fenceFd l = Some ((err, fence', this), l') /\
    (addr <> ptr_add a al \/ size_t (size + al) <> sz ->
     err = C2_BAD_VALUE /\ fence' = fenceFd /\ l' = l) /\
    (addr = ptr_add a al /\ size_t (size + al) = sz ->
     l' = Munmap a sz :: l /\
     (r_ret (drv l (Munmap a sz)) = 0 ->
      err = C2_OK /\
      fence' = match fenceFd with Some _ => Some (-1) | None => None end) /\
     (r_ret (drv l (Munmap a sz)) <> 0 ->
      err = c2_map_errno [N_EINVAL] (r_errno (drv l (Munmap a sz))) /\
      fence' = fenceFd)).
Proof.
  intros Ha Hal Hsz.
  unfold Impl_unmap. rewrite Ha, Hal, Hsz.
  unfold bind, read, pure, call.
  destruct (Z.eqb_spec addr (ptr_add a al)) as [Haddr | Haddr]; cbn [negb].
  - destruct (Z.eqb_spec (size_t (size + al)) sz) as [Hsize | Hsize];
      cbn [negb].
    + destruct (Z.eqb_spec (r_ret (drv l (Munmap a sz))) 0) as [Hret | Hret];
        cbn [negb]; eexists _, _, _; (split; [reflexivity|]);
        (split; [tauto|]); intros _; (split; [reflexivity|]);
        split; intros Hr; try contradiction; auto.
    + eexists _, _, _. split; [reflexivity|]. split; [auto | tauto].
  - eexists _, _, _. split; [reflexivity|]. split; [auto | tauto].
Qed.

(** C6, as amended.  When a mapped descriptor is recorded, [map] does
    not call [ion_map] again: it makes one driver call, an [mmap] on the
    recorded descriptor for the page-aligned range, and keeps the
    descriptor.  If [mmap] succeeds, [map] returns [C2_OK] with the new
    address plus the padding and records the new address, padding and
    size; if [mmap] fails, [map] returns the code the [EINVAL] table
    gives for [errno] with a null address and records a null address,
    padding and size staying as they were. *)
Theorem map_with_mapped_fd_remaps
    (this : Impl) (offset size : Z) (usage : C2MemoryUsage) (l : Log) :
  mMapFd this <> -1 ->
  exists (err : C2Error) (addr : Z) (this' : Impl) (c : DriverCall),
    Impl_map drv this offset size usage l = Some ((err, addr, this'), c :: l) /\
    c = Mmap nullptr (size_t (size + offset mod PAGE_SIZE))
             (map_prot usage) (map_flags usage) (mMapFd this)
             (size_t (offset - offset mod PAGE_SIZE)) /\
    mMapFd this' = mMapFd this /\
    mInit this' = mInit this /\ mHandle this' = mHandle this /\
    mCapacity this' = mCapacity this /\
    (r_ret (drv l c) <> MAP_FAILED ->
     err = C2_OK /\
     addr = ptr_add (r_ret (drv l c)) (offset mod PAGE_SIZE) /\
     mMapAddr this' = Some (r_ret (drv l c)) /\
     mMapAlignmentBytes this' = Some (offset mod PAGE_SIZE) /\
     mMapSize this' = Some (size_t (size + offset mod PAGE_SIZE))) /\
    (r_ret (drv l c) = MAP_FAILED ->
     err = c2_map_errno [N_EINVAL] (r_errno (drv l c)) /\
     addr = nullptr /\
     mMapAddr this' = Some nullptr /\
     mMapAlignmentBytes this' = mMapAlignmentBytes this /\
     mMapSize this' = mMapSize this).
Proof.
  intros Hfd.
  unfold Impl_map. apply Z.eqb_neq in Hfd. rewrite Hfd.
  unfold bind, call, pure.
  match goal with
  | |- context [drv l ?c] => set (call_ := c)
  end.
  destruct (Z.eqb_spec (r_ret (drv l call_)) MAP_FAILED) as [Hf | Hf];
    eexists _, _, _, _; (split; [reflexivity|]); (split; [reflexivity|]);
    cbn; repeat split; intros; try contradiction; auto.
Qed.

(** Without a recorded descriptor, [map] makes one [ion_map] call for
    the page-aligned range. *)
Lemma map_first_time
    (this : Impl) (offset size : Z) (usage : C2MemoryUsage) (l : Log) :
  mMapFd this = -1 ->
  exists (err : C2Error) (addr : Z) (this' : Impl),
    Impl_map drv this offset size usage l
    = Some ((err, addr, this'),
            IonMap (C2HandleIon.ionFd (mHandle this))
              (C2HandleIon.buffer (mHandle this))
              (size_t (size + offset mod PAGE_SIZE))
              (map_prot usage) (map_flags usage)
              (size_t (offset - offset mod PAGE_SIZE)) :: l).
Proof.
  intros Hfd. unfold Impl_map. rewrite Hfd, Z.eqb_refl.
  unfold bind, call, pure.
  destruct (negb _); eexists _, _, _; reflexivity.
Qed.

(** With a recorded descriptor, [map] makes one [mmap] call on it. *)
Lemma map_again
    (this : Impl) (offset size : Z) (usage : C2MemoryUsage) (l : Log) :
  mMapFd this <> -1 ->
  exists (err : C2Error) (addr : Z) (this' : Impl),
    Impl_map drv this offset size usage l
    = Some ((err, addr, this'),
            Mmap nullptr (size_t (size + offset mod PAGE_SIZE))
              (map_prot usage) (map_flags usage) (mMapFd this)
              (size_t (offset - offset mod PAGE_SIZE)) :: l).
Proof.
  intros Hfd. unfold Impl_map. apply Z.eqb_neq in Hfd. rewrite Hfd.
  unfold bind, call, pure.
  destruct (_ =? MAP_FAILED); eexists _, _, _; reflexivity.
Qed.

(** [map] always returns, with one more call in the log. *)
Lemma Impl_map_total
    (this : Impl) (offset size : Z) (usage : C2MemoryUsage) (l : Log) :
  exists (err : C2Error) (addr : Z) (this' : Impl) (c : DriverCall),
    Impl_map drv this offset size usage l = Some ((err, addr, this'), c :: l).
Proof.
  destruct (Z.eq_dec (mMapFd this) (-1)) as [Hfd | Hfd].
  - destruct (map_first_time this offset size usage l Hfd) as (e & a & t & H).
    eauto.
  - destruct (map_again this offset size usage l Hfd) as (e & a & t & H).
    eauto.
Qed.
End AllocationClaims.

(** ** Blocks and views *)

Section HeapFacts.
Context `{EC : C2ErrorCodes} (drv : Driver).

Lemma invoke_run {A : Type} (p : loc)
    (method : C2AllocationIon.t -> SF Log (A * C2AllocationIon.t))
    (w : World) (a a' : C2AllocationIon.t) (r : A) (l' : Log) :
  w_heap w !! p = Some a ->
  method a (w_log w) = Some ((r, a'), l') ->
  invoke p method w
  = Some (r, {| w_log := l'; w_heap := <[p := a']> (w_heap w) |}).
Proof.
  intros Hp Hm. unfold invoke, bind, deref, sys. rewrite Hp.
  cbn [w_log w_heap]. now rewrite Hm.
Qed.

Lemma alloc_map_total (a : C2AllocationIon.t) (offset size : Z)
    (usage : C2MemoryUsage) (l : Log) :
  exists (err : C2Error) (addr : Z) (a' : C2AllocationIon.t) (c : DriverCall),
    C2AllocationIon.map drv a offset size usage l
    = Some ((err, addr, a'), c :: l) /\
    C2AllocationIon.capacity a' = C2AllocationIon.capacity a.
Proof.
  destruct (Impl_map_total drv (C2AllocationIon.mImpl a) offset size usage l)
    as (err & addr & impl & c & H).
  unfold C2AllocationIon.map, bind. rewrite H.
  eexists _, _, _, _. split; reflexivity.
Qed.

(** Mapping the whole of an allocation: one call, for [capacity] bytes
    from offset 0, through [ion_map] or through [mmap] on the recorded
    descriptor. *)
Lemma alloc_map_whole (a : C2AllocationIon.t) (capacity : Z)
    (usage : C2MemoryUsage) (l : Log) :
  exists (err : C2Error) (addr : Z) (a' : C2AllocationIon.t) (c : DriverCall),
    C2AllocationIon.map drv a 0 capacity usage l
    = Some ((err, addr, a'), c :: l) /\
    (c = IonMap (C2HandleIon.ionFd (C2AllocationIon.handle a))
           (C2HandleIon.buffer (C2AllocationIon.handle a))
           (size_t capacity) (C2AllocationIon.map_prot usage)
           (C2AllocationIon.map_flags usage) 0
     \/ c = Mmap nullptr (size_t capacity) (C2AllocationIon.map_prot usage)
              (C2AllocationIon.map_flags usage)
              (C2AllocationIon.mMapFd (C2AllocationIon.mImpl a)) 0).
Proof.
  unfold C2AllocationIon.map, bind, C2AllocationIon.handle.
  destruct (Z.eq_dec (C2AllocationIon.mMapFd (C2AllocationIon.mImpl a)) (-1))
    as [Hfd | Hfd].
  - destruct (map_first_time drv (C2AllocationIon.mImpl a) 0 capacity usage l
                Hfd) as (err & addr & impl & H).
    rewrite H. eexists _, _, _, _. split; [reflexivity|]. left.
    change (0 mod PAGE_SIZE) with 0. now rewrite Z.add_0_r.
  - destruct (map_again drv (C2AllocationIon.mImpl a) 0 capacity usage l
                Hfd) as (err & addr & impl & H).
    rewrite H. eexists _, _, _, _. split; [reflexivity|]. right.
    change (0 mod PAGE_SIZE) with 0. now rewrite Z.add_0_r.
Qed.
End HeapFacts.

Section ConstBlockFacts.
Context `{EC : C2ErrorCodes} `{MU : C2MemoryUsageFlags} (drv : Driver).

Import C2ConstLinearBlock.

Lemma const_Impl_map_mapped (this : Impl) (offset size : Z) (w : World) :
  mBase this <> nullptr -> Impl_map drv this offset size w = Some (this, w).
Proof.
  intros H. unfold Impl_map. apply Z.eqb_neq in H. now rewrite H.
Qed.

Lemma const_Impl_map_unmapped (this : Impl) (offset size : Z) (w : World)
    (a : C2AllocationIon.t) :
  mBase this = nullptr ->
  w_heap w !! mAllocation this = Some a ->
  exists (err : C2Error) (addr : Z) (a' : C2AllocationIon.t) (c : DriverCall),
    C2AllocationIon.map drv a offset size
      {| mConsumer := kSoftwareRead; mProducer := 0 |} (w_log w)
    = Some ((err, addr, a'), c :: w_log w) /\
    Impl_map drv this offset size w
    = Some ({| mAllocation := mAllocation this;
               mBase := if err =? C2_OK then addr else nullptr;
               mSize := if err =? C2_OK then size else mSize this;
               mError := err |},
            {| w_log := c :: w_log w;
               w_heap := <[mAllocation this := a']> (w_heap w) |}).
Proof.
  intros Hb Ha.
  destruct (alloc_map_total drv a offset size
              {| mConsumer := kSoftwareRead; mProducer := 0 |} (w_log w))
    as (err & addr & a' & c & Hmap & _).
  exists err, addr, a', c. split; [exact Hmap|].
  unfold Impl_map. rewrite Hb. cbn [Z.eqb nullptr].
  unfold bind at 1.
  rewrite (invoke_run _ _ w a a' (err, addr) (c :: w_log w) Ha Hmap).
  cbn [mError mAllocation mBase mSize].
  destruct (err =? C2_OK); unfold pure; rewrite ?Hb; reflexivity.
Qed.
End ConstBlockFacts.

Section LinearBlockFacts.
Context `{EC : C2ErrorCodes} `{MU : C2MemoryUsageFlags} (drv : Driver).

Import C2LinearBlock.

Lemma linear_Impl_map_mapped (this : Impl) (capacity : Z) (w : World) :
  mBase this <> nullptr -> Impl_map drv this capacity w = Some (this, w).
Proof.
  intros H. unfold Impl_map. apply Z.eqb_neq in H. now rewrite H.
Qed.

Lemma linear_Impl_map_unmapped (this : Impl) (capacity : Z) (w : World)
    (a : C2AllocationIon.t) :
  mBase this = nullptr ->
  w_heap w !! mAllocation this = Some a ->
  exists (err : C2Error) (addr : Z) (a' : C2AllocationIon.t) (c : DriverCall),
    C2AllocationIon.map drv a 0 capacity
      {| mConsumer := kSoftwareRead; mProducer := kSoftwareWrite |} (w_log w)
    = Some ((err, addr, a'), c :: w_log w) /\
    (c = IonMap (C2HandleIon.ionFd (C2AllocationIon.handle a))
           (C2HandleIon.buffer (C2AllocationIon.handle a))
           (size_t capacity)
           (C2AllocationIon.map_prot
              {| mConsumer := kSoftwareRead; mProducer := kSoftwareWrite |})
           (C2AllocationIon.map_flags
              {| mConsumer := kSoftwareRead; mProducer := kSoftwareWrite |}) 0
     \/ c = Mmap nullptr (size_t capacity)
              (C2AllocationIon.map_prot
                 {| mConsumer := kSoftwareRead; mProducer := kSoftwareWrite |})
              (C2AllocationIon.map_flags
                 {| mConsumer := kSoftwareRead; mProducer := kSoftwareWrite |})
              (C2AllocationIon.mMapFd (C2AllocationIon.mImpl a)) 0) /\
    Impl_map drv this capacity w
    = Some ({| mAllocation := mAllocation this;
               mBase := if err =? C2_OK then addr else nullptr;
               mSize := if err =? C2_OK then capacity else mSize this;
               mError := err;
               mFence := mFence this |},
            {| w_log := c :: w_log w;
               w_heap := <[mAllocation this := a']> (w_heap w) |}).
Proof.
  intros Hb Ha.
  destruct (alloc_map_whole drv a capacity
              {| mConsumer := kSoftwareRead; mProducer := kSoftwareWrite |}
              (w_log w))
    as (err & addr & a' & c & Hmap & Hc).
  exists err, addr, a', c. split; [exact Hmap|]. split; [exact Hc|].
  unfold Impl_map. rewrite Hb. cbn [Z.eqb nullptr].
  unfold bind at 1.
  rewrite (invoke_run _ _ w a a' (err, addr) (c :: w_log w) Ha Hmap).
  cbn [mError mAllocation mBase mSize mFence].
  destruct (err =? C2_OK); unfold pure; rewrite ?Hb; reflexivity.
Qed.
End LinearBlockFacts.

(** ** Ranges and block invariants *)

Lemma LinearRange_full_ok (capacity : Z) :
  0 <= capacity -> LinearRange.ok (LinearRange.full capacity).
Proof. unfold LinearRange.ok. simpl. lia. Qed.

Lemma LinearRange_clamped_ok (capacity offset size : Z) :
  0 <= capacity -> 0 <= offset -> 0 <= size ->
  LinearRange.ok (LinearRange.clamped capacity offset size).
Proof. unfold LinearRange.ok. simpl. lia. Qed.

(** The clamp policy: an offset past the capacity gives an empty block at
    the capacity. *)
Lemma LinearRange_clamped_past_capacity (capacity offset size : Z) :
  0 <= size -> capacity < offset ->
  LinearRange.offset (LinearRange.clamped capacity offset size) = capacity /\
  LinearRange.size (LinearRange.clamped capacity offset size) = 0.
Proof. simpl. lia. Qed.

Section BlockInvariant.
Context `{EC : C2ErrorCodes} `{MU : C2MemoryUsageFlags} (drv : Driver).

(** A const [Impl] holds a base only after a mapping that returned
    [C2_OK]: so it is at construction, and [map] keeps it so. *)
Lemma const_Impl_base_implies_ok_new (alloc : loc) :
  C2ConstLinearBlock.mBase (C2ConstLinearBlock.Impl_new alloc) <> nullptr ->
  C2ConstLinearBlock.mError (C2ConstLinearBlock.Impl_new alloc) = C2_OK.
Proof. simpl. congruence. Qed.

Lemma const_Impl_base_implies_ok_map
    (this this' : C2ConstLinearBlock.Impl) (offset size : Z) (w w' : World) :
  (C2ConstLinearBlock.mBase this <> nullptr ->
   C2ConstLinearBlock.mError this = C2_OK) ->
  C2ConstLinearBlock.Impl_map drv this offset size w = Some (this', w') ->
  C2ConstLinearBlock.mBase this' <> nullptr ->
  C2ConstLinearBlock.mError this' = C2_OK.
Proof.
  intros Hinv Hmap.
  destruct (Z.eq_dec (C2ConstLinearBlock.mBase this) nullptr) as [Hb | Hb].
  - destruct (w_heap w !! C2ConstLinearBlock.mAllocation this) as [a|] eqn:Ha.
    + destruct (const_Impl_map_unmapped drv this offset size w a Hb Ha)
        as (err & addr & a' & c & _ & Himpl).
      rewrite Himpl in Hmap. injection Hmap as <- _. simpl.
      destruct (Z.eqb_spec err C2_OK); congruence.
    + unfold C2ConstLinearBlock.Impl_map, bind, invoke, bind, deref in Hmap.
      rewrite Hb in Hmap. simpl in Hmap. rewrite Ha in Hmap. discriminate.
  - rewrite (const_Impl_map_mapped drv this offset size w Hb) in Hmap.
    injection Hmap as <- _. exact Hinv.
Qed.
End BlockInvariant.

Section BlockClaims.
Context `{EC : C2ErrorCodes} `{MU : C2MemoryUsageFlags} (drv : Driver).

(** C5.  Once the [Impl] of a block, const or mutable, has recorded a
    non-null base, [map] leaves its base, size and error as they are and
    leaves the world as it is: no second mapping is acquired through the
    allocation or the driver.  So when a first [map()] on a block ends
    with a non-null base, a second [map()] with nothing in between
    returns the same acquirable (same base address, same error), the
    same block and the same world. *)
Theorem map_twice_same_base :
  (forall (this : C2ConstLinearBlock.Impl) (offset size : Z) (w : World),
      C2ConstLinearBlock.mBase this <> nullptr ->
      C2ConstLinearBlock.Impl_map drv this offset size w = Some (this, w)) /\
  (forall (this : C2LinearBlock.Impl) (capacity : Z) (w : World),
      C2LinearBlock.mBase this <> nullptr ->
      C2LinearBlock.Impl_map drv this capacity w = Some (this, w)) /\
  (forall (b b1 : C2ConstLinearBlock.t) (w w1 : World)
          (acq1 : C2Acquirable C2ReadView.t),
      C2ConstLinearBlock.map drv b w = Some ((acq1, b1), w1) ->
      C2ConstLinearBlock.Impl_base (C2ConstLinearBlock.mImpl b1) <> nullptr ->
      C2ConstLinearBlock.map drv b1 w1 = Some ((acq1, b1), w1)) /\
  (forall (b b1 : C2LinearBlock.t) (w w1 : World)
          (acq1 : C2Acquirable C2WriteView.t),
      C2LinearBlock.map drv b w = Some ((acq1, b1), w1) ->
      C2LinearBlock.Impl_base (C2LinearBlock.mImpl b1) <> nullptr ->
      C2LinearBlock.map drv b1 w1 = Some ((acq1, b1), w1)).
Proof.
  split; [exact (const_Impl_map_mapped drv)|].
  split; [exact (linear_Impl_map_mapped drv)|].
  split.
  - intros b b1 w w1 acq1 Hmap Hbase.
    unfold C2ConstLinearBlock.map, bind in Hmap.
    destruct (C2ConstLinearBlock.Impl_map drv _ _ _ w) as [[impl1 w1']|];
      [|discriminate].
    cbn [C2ConstLinearBlock.mImpl C2ConstLinearBlock.range
           C2ConstLinearBlock.block1D_mAllocation C2ConstLinearBlock.mFence
           C2ConstLinearBlock.size C2ConstLinearBlock.offset] in Hmap.
    destruct (C2ConstLinearBlock.Impl_base impl1 =? nullptr) eqn:Hnull;
      injection Hmap as <- <- <-.
    + apply Z.eqb_eq in Hnull. contradiction.
    + unfold C2ConstLinearBlock.map, bind.
      cbn [C2ConstLinearBlock.mImpl C2ConstLinearBlock.range
             C2ConstLinearBlock.block1D_mAllocation C2ConstLinearBlock.mFence
             C2ConstLinearBlock.size C2ConstLinearBlock.offset].
      rewrite (const_Impl_map_mapped drv impl1 _ _ w1') by exact Hbase.
      cbn [C2ConstLinearBlock.mImpl C2ConstLinearBlock.range
             C2ConstLinearBlock.block1D_mAllocation C2ConstLinearBlock.mFence
             C2ConstLinearBlock.size C2ConstLinearBlock.offset].
      now rewrite Hnull.
  - intros b b1 w w1 acq1 Hmap Hbase.
    unfold C2LinearBlock.map, bind in Hmap.
    destruct (C2LinearBlock.Impl_map drv _ _ w) as [[impl1 w1']|];
      [|discriminate].
    cbn [C2LinearBlock.mImpl C2LinearBlock.range
           C2LinearBlock.block1D_mAllocation
           C2LinearBlock.size C2LinearBlock.offset C2LinearBlock.capacity]
      in Hmap.
    destruct (C2LinearBlock.Impl_base impl1 =? nullptr) eqn:Hnull;
      injection Hmap as <- <- <-.
    + apply Z.eqb_eq in Hnull. contradiction.
    + unfold C2LinearBlock.map, bind.
      cbn [C2LinearBlock.mImpl C2LinearBlock.range
             C2LinearBlock.block1D_mAllocation
             C2LinearBlock.size C2LinearBlock.offset C2LinearBlock.capacity].
      rewrite (linear_Impl_map_mapped drv impl1 _ w1') by exact Hbase.
      cbn [C2LinearBlock.mImpl C2LinearBlock.range
             C2LinearBlock.block1D_mAllocation
             C2LinearBlock.size C2LinearBlock.offset C2LinearBlock.capacity].
      now rewrite Hnull.
Qed.

(** C7.  [map()] on a mutable block over a live allocation returns.  If
    the block was not mapped yet, it maps the allocation once, from
    offset 0 for the whole capacity, with the software-read and
    software-write usage (one driver call, of length [capacity] at
    offset 0).  When the mapping succeeded (the base is not null), the
    write view is over the block's window: its offset and size are the
    block's, its base is the mapped base and [data()] is the base plus
    the view's offset. *)
Theorem linear_block_map_whole_capacity
    (b : C2LinearBlock.t) (w : World) (a : C2AllocationIon.t) :
  LinearRange.ok (C2LinearBlock.range b) ->
  w_heap w !! C2LinearBlock.mAllocation (C2LinearBlock.mImpl b) = Some a ->
  exists (acq : C2Acquirable C2WriteView.t) (b' : C2LinearBlock.t)
         (w' : World),
    C2LinearBlock.map drv b w = Some ((acq, b'), w') /\
    C2LinearBlock.range b' = C2LinearBlock.range b /\
    (C2LinearBlock.mBase (C2LinearBlock.mImpl b) = nullptr ->
     exists (err : C2Error) (addr : Z) (a' : C2AllocationIon.t)
            (c : DriverCall),
       C2AllocationIon.map drv a 0 (C2LinearBlock.capacity b)
         {| mConsumer := kSoftwareRead; mProducer := kSoftwareWrite |}
         (w_log w)
       = Some ((err, addr, a'), c :: w_log w) /\
       (c = IonMap (C2HandleIon.ionFd (C2AllocationIon.handle a))
              (C2HandleIon.buffer (C2AllocationIon.handle a))
              (size_t (C2LinearBlock.capacity b))
              (C2AllocationIon.map_prot
                 {| mConsumer := kSoftwareRead;
                    mProducer := kSoftwareWrite |})
              (C2AllocationIon.map_flags
                 {| mConsumer := kSoftwareRead;
                    mProducer := kSoftwareWrite |}) 0
        \/ c = Mmap nullptr (size_t (C2LinearBlock.capacity b))
                 (C2AllocationIon.map_prot
                    {| mConsumer := kSoftwareRead;
                       mProducer := kSoftwareWrite |})
                 (C2AllocationIon.map_flags
                    {| mConsumer := kSoftwareRead;
                       mProducer := kSoftwareWrite |})
                 (C2AllocationIon.mMapFd (C2AllocationIon.mImpl a)) 0) /\
       w' = {| w_log := c :: w_log w;
               w_heap := <[C2LinearBlock.mAllocation (C2LinearBlock.mImpl b)
                           := a']> (w_heap w) |} /\
       acq_error acq = err /\
       (err = C2_OK ->
        C2LinearBlock.Impl_base (C2LinearBlock.mImpl b') = addr)) /\
    (C2LinearBlock.Impl_base (C2LinearBlock.mImpl b') <> nullptr ->
     C2WriteView.offset (acq_view acq) = C2LinearBlock.offset b /\
     C2WriteView.size (acq_view acq) = C2LinearBlock.size b /\
     C2WriteView.base (acq_view acq)
     = C2LinearBlock.Impl_base (C2LinearBlock.mImpl b') /\
     C2WriteView.data (acq_view acq)
     = ptr_add (C2WriteView.base (acq_view acq))
         (C2WriteView.offset (acq_view acq))).
Proof.
  intros Hok Ha.
  assert (Hview : forall base : Z,
    let view := C2WriteView.setSize_be
                  (C2WriteView.setOffset_be
                     (C2WriteView.of_base (C2LinearBlock.range b) base)
                     (C2LinearBlock.offset b))
                  (C2LinearBlock.size b) in
    C2WriteView.offset view = C2LinearBlock.offset b /\
    C2WriteView.size view = C2LinearBlock.size b /\
    C2WriteView.base view = base /\
    C2WriteView.data view
    = ptr_add (C2WriteView.base view) (C2WriteView.offset view)).
  { intros base. destruct Hok as (Ho & Hs & Hc).
    unfold C2LinearBlock.offset, C2LinearBlock.size in *.
    cbn. repeat split; lia. }
  unfold C2LinearBlock.map, bind.
  destruct (Z.eq_dec (C2LinearBlock.mBase (C2LinearBlock.mImpl b)) nullptr)
    as [Hb | Hb].
  - destruct (linear_Impl_map_unmapped drv (C2LinearBlock.mImpl b)
                (C2LinearBlock.capacity b) w a Hb Ha)
      as (err & addr & a' & c & Hmap & Hc & Himpl).
    rewrite Himpl.
    cbn [C2LinearBlock.mImpl C2LinearBlock.range C2LinearBlock.Impl_base
           C2LinearBlock.mBase C2LinearBlock.Impl_error C2LinearBlock.mError
           C2LinearBlock.block1D_mAllocation].
    destruct ((if err =? C2_OK then addr else nullptr) =? nullptr) eqn:Hnull;
      eexists _, _, _; (split; [reflexivity|]); (split; [reflexivity|]);
      cbn [C2LinearBlock.mImpl C2LinearBlock.Impl_base C2LinearBlock.mBase
             acq_view acq_error].
    + split.
      * intros _. exists err, addr, a', c.
        repeat split; try assumption.
        intros ->. now rewrite Z.eqb_refl.
      * apply Z.eqb_eq in Hnull. intros Hne. contradiction.
    + split.
      * intros _. exists err, addr, a', c.
        repeat split; try assumption.
        intros ->. now rewrite Z.eqb_refl.
      * intros _. apply Hview.
  - rewrite (linear_Impl_map_mapped drv _ _ w Hb).
    cbn [C2LinearBlock.mImpl C2LinearBlock.range
           C2LinearBlock.block1D_mAllocation].
    unfold C2LinearBlock.Impl_base.
    pose proof Hb as Hb'. apply Z.eqb_neq in Hb'. rewrite Hb'.
    eexists _, _, _. split; [reflexivity|]. split; [reflexivity|].
    split; [intros Hnull; contradiction|].
    intros _. cbn [acq_view]. apply Hview.
Qed.

(** C8, as amended.  [subBlock(offset, size)] on a block over a live
    allocation returns a new, unmapped block over the same allocation
    and leaves the world as it is.  Its range is the given offset and
    size taken against the allocation, clamped to the capacity of the
    allocation the way block construction clamps: the offset is
    [min offset capacity], the size is [min size (capacity - offset)];
    the range of the block [subBlock] is called on plays no part. *)
Theorem subBlock_range_against_allocation
    (this : C2ConstLinearBlock.t) (offset size : Z) (w : World)
    (a : C2AllocationIon.t) :
  w_heap w !! C2ConstLinearBlock.mAllocation (C2ConstLinearBlock.mImpl this)
  = Some a ->
  exists child : C2ConstLinearBlock.t,
    C2ConstLinearBlock.subBlock this offset size w = Some (child, w) /\
    C2ConstLinearBlock.subBlock this offset size w
    = C2ConstLinearBlock.new_range
        (C2ConstLinearBlock.mAllocation (C2ConstLinearBlock.mImpl this))
        offset size w /\
    C2ConstLinearBlock.mAllocation (C2ConstLinearBlock.mImpl child)
    = C2ConstLinearBlock.mAllocation (C2ConstLinearBlock.mImpl this) /\
    C2ConstLinearBlock.block1D_mAllocation child
    = C2ConstLinearBlock.mAllocation (C2ConstLinearBlock.mImpl this) /\
    C2ConstLinearBlock.mBase (C2ConstLinearBlock.mImpl child) = nullptr /\
    C2ConstLinearBlock.capacity child = C2AllocationIon.capacity a /\
    C2ConstLinearBlock.offset child
    = Z.min offset (C2AllocationIon.capacity a) /\
    C2ConstLinearBlock.size child
    = Z.min size (C2AllocationIon.capacity a
                  - Z.min offset (C2AllocationIon.capacity a)).
Proof.
  intros Ha.
  unfold C2ConstLinearBlock.subBlock, C2ConstLinearBlock.Impl_subBlock,
    C2ConstLinearBlock.new_range, bind, deref.
  rewrite Ha. eexists. repeat split.
Qed.

(** C9.  [map()] on a const block over a live allocation always returns
    an acquirable.  On a block that is not mapped yet it maps the
    block's own window with software-read usage; if that mapping fails,
    the acquirable carries the mapping error and its read view has null
    data and the same error; if it succeeds with a non-null address,
    the acquirable carries [C2_OK] and its read view has the mapped
    address as data, the block's size as capacity and no error.  On a
    block that is mapped already the result is as on success, with the
    recorded base. *)
Theorem const_block_map_reports_in_view
    (b : C2ConstLinearBlock.t) (w : World) (a : C2AllocationIon.t) :
  w_heap w !! C2ConstLinearBlock.mAllocation (C2ConstLinearBlock.mImpl b)
  = Some a ->
  (C2ConstLinearBlock.mBase (C2ConstLinearBlock.mImpl b) <> nullptr ->
   C2ConstLinearBlock.mError (C2ConstLinearBlock.mImpl b) = C2_OK) ->
  exists (acq : C2Acquirable C2ReadView.t) (b' : C2ConstLinearBlock.t)
         (w' : World),
    C2ConstLinearBlock.map drv b w = Some ((acq, b'), w') /\
    (C2ConstLinearBlock.mBase (C2ConstLinearBlock.mImpl b) = nullptr ->
     exists (err : C2Error) (addr : Z) (a' : C2AllocationIon.t)
            (c : DriverCall),
       C2AllocationIon.map drv a (C2ConstLinearBlock.offset b)
         (C2ConstLinearBlock.size b)
         {| mConsumer := kSoftwareRead; mProducer := 0 |} (w_log w)
       = Some ((err, addr, a'), c :: w_log w) /\
       (err <> C2_OK ->
        acq_error acq = err /\
        C2ReadView.data (acq_view acq) = nullptr /\
        C2ReadView.error (acq_view acq) = err) /\
       (err = C2_OK -> addr <> nullptr ->
        acq_error acq = C2_OK /\
        C2ReadView.data (acq_view acq) = addr /\
        C2ReadView.capacity (acq_view acq) = C2ConstLinearBlock.size b /\
        C2ReadView.error (acq_view acq) = C2_OK)) /\
    (C2ConstLinearBlock.mBase (C2ConstLinearBlock.mImpl b) <> nullptr ->
     acq_error acq = C2_OK /\
     C2ReadView.data (acq_view acq)
     = C2ConstLinearBlock.mBase (C2ConstLinearBlock.mImpl b) /\
     C2ReadView.capacity (acq_view acq) = C2ConstLinearBlock.size b /\
     C2ReadView.error (acq_view acq) = C2_OK) /\
    (C2ConstLinearBlock.Impl_base (C2ConstLinearBlock.mImpl b') = nullptr ->
     C2ReadView.data (acq_view acq) = nullptr /\
     C2ReadView.error (acq_view acq) = acq_error acq /\
     acq_error acq
     = C2ConstLinearBlock.Impl_error (C2ConstLinearBlock.mImpl b')).
Proof.
  intros Ha Hinv.
  unfold C2ConstLinearBlock.map, bind.
  destruct (Z.eq_dec (C2ConstLinearBlock.mBase (C2ConstLinearBlock.mImpl b))
              nullptr) as [Hb | Hb].
  - destruct (const_Impl_map_unmapped drv (C2ConstLinearBlock.mImpl b)
                (C2ConstLinearBlock.offset b) (C2ConstLinearBlock.size b)
                w a Hb Ha)
      as (err & addr & a' & c & Hmap & Himpl).
    rewrite Himpl.
    cbn [C2ConstLinearBlock.mImpl C2ConstLinearBlock.Impl_base
           C2ConstLinearBlock.mBase C2ConstLinearBlock.Impl_error
           C2ConstLinearBlock.mError C2ConstLinearBlock.mFence
           C2ConstLinearBlock.range C2ConstLinearBlock.block1D_mAllocation].
    destruct (Z.eqb_spec err C2_OK) as [Herr | Herr].
    + destruct (Z.eqb_spec addr nullptr) as [Haddr | Haddr];
        eexists _, _, _; (split; [reflexivity|]);
        cbn [acq_error acq_view C2ConstLinearBlock.mImpl
               C2ConstLinearBlock.Impl_base C2ConstLinearBlock.mBase
               C2ConstLinearBlock.Impl_error C2ConstLinearBlock.mError].
      * split; [|split; [intros Hne; contradiction|]].
        -- intros _. exists err, addr, a', c.
           split; [exact Hmap|]. split; [tauto|]. intros _ Hne.
           contradiction.
        -- intros _. repeat split.
      * split; [|split; [intros Hne; contradiction|]].
        -- intros _. exists err, addr, a', c.
           split; [exact Hmap|]. split; [tauto|]. intros _ _.
           repeat split. exact Herr.
        -- intros Hnull. contradiction.
    + eexists _, _, _. split; [reflexivity|].
      cbn [acq_error acq_view C2ConstLinearBlock.mImpl
             C2ConstLinearBlock.Impl_base C2ConstLinearBlock.mBase
             C2ConstLinearBlock.Impl_error C2ConstLinearBlock.mError].
      split; [|split; [intros Hne; contradiction|]].
      * intros _. exists err, addr, a', c.
        split; [exact Hmap|]. split; [|tauto].
        intros _. repeat split.
      * intros _. repeat split.
  - rewrite (const_Impl_map_mapped drv _ _ _ w Hb).
    cbn [C2ConstLinearBlock.mImpl
           C2ConstLinearBlock.range C2ConstLinearBlock.block1D_mAllocation
           C2ConstLinearBlock.mFence].
    unfold C2ConstLinearBlock.Impl_base, C2ConstLinearBlock.Impl_error.
    pose proof Hb as Hb'. apply Z.eqb_neq in Hb'. rewrite Hb'.
    eexists _, _, _. split; [reflexivity|].
    cbn [acq_error acq_view C2ConstLinearBlock.mImpl
           C2ConstLinearBlock.Impl_base C2ConstLinearBlock.Impl_error].
    split; [intros Hnull; contradiction|].
    split; [|intros Hnull; contradiction].
    intros _. repeat split. now apply Hinv.
Qed.
End BlockClaims.

(** ** Runs on the sample environment *)

Section SampleRuns.
#[local] Existing Instance sample_codes.
#[local] Existing Instance sample_flags.

Lemma sample_impl_reached :
  C2AllocationIon.Impl_alloc good_driver 3 4096 0
    (2 ^ 32 - 1) 0 []
  = Some (fresh_impl, [IonAlloc 3 4096 0 (2 ^ 32 - 1) 0]) /\
  C2AllocationIon.Impl_map good_driver fresh_impl 0 4096
    rw_usage []
  = Some ((0, 65536, mapped_impl), [IonMap 3 7 4096 3 1 0]).
Proof. split; reflexivity. Qed.

Lemma sample_blocks_built :
  C2LinearBlock.new_range 1%positive 10 50 small_world
  = Some (sample_linear_block, small_world) /\
  C2ConstLinearBlock.new_range 1%positive 10 50 small_world
  = Some (sample_const_block, small_world).
Proof. split; reflexivity. Qed.

Lemma sample_allocation :
  exists w : World,
    C2AllocatorIon.allocateLinearBuffer good_driver
      sample_allocator 100 rw_usage empty_world
    = Some ((0, Some 1%positive), w) /\
    w_log w = [IonAlloc 3 100 0 (2 ^ 32 - 1) 0] /\
    w_heap w !! 1%positive = Some small_alloc.
Proof.
  eexists. split; [vm_compute; reflexivity|]. split; reflexivity.
Qed.

(** C1 at a system without the driver: the open fails with [ENOENT]. *)
Lemma failed_open_short_circuits_witness :
  r_ret (no_ion_driver [] IonOpen) < 0 /\
  r_errno (no_ion_driver [] IonOpen) <> 0 /\
  exists this : C2AllocatorIon.t,
    C2AllocatorIon.new no_ion_driver [] = Some (this, [IonOpen]) /\
    C2AllocatorIon.mInit this <> C2_OK /\
    (r_errno (no_ion_driver [] IonOpen) = ENOENT ->
     C2AllocatorIon.mInit this = C2_UNSUPPORTED) /\
    (forall (capacity : Z) (usage : C2MemoryUsage) (w : World),
        C2AllocatorIon.allocateLinearBuffer no_ion_driver this capacity usage w
        = Some ((C2_UNSUPPORTED, None), w)) /\
    (forall (handle : option C2Handle.t) (w : World),
        C2AllocatorIon.recreateLinearBuffer no_ion_driver this handle w
        = Some ((C2_UNSUPPORTED, None), w)).
Proof.
  assert (H1 : r_ret (no_ion_driver [] IonOpen) < 0) by reflexivity.
  assert (H2 : r_errno (no_ion_driver [] IonOpen) <> 0) by discriminate.
  split; [exact H1|]. split; [exact H2|].
  exact (failed_open_short_circuits no_ion_driver [] H1 H2).
Defined.

(** C4: a matching pair on the sample mapping. *)
Lemma unmap_checks_recorded_mapping_witness :
  C2AllocationIon.mMapAddr mapped_impl = Some 65536 /\
  C2AllocationIon.mMapAlignmentBytes mapped_impl = Some 0 /\
  C2AllocationIon.mMapSize mapped_impl = Some 4096 /\
  exists (err : C2Error) (fence' : option Z) (l' : Log),
    C2AllocationIon.Impl_unmap good_driver mapped_impl 65536 4096 (Some 9) []
    = Some ((err, fence', mapped_impl), l') /\
    (65536 <> ptr_add 65536 0 \/ size_t (4096 + 0) <> 4096 ->
     err = C2_BAD_VALUE /\ fence' = Some 9 /\ l' = []) /\
    (65536 = ptr_add 65536 0 /\ size_t (4096 + 0) = 4096 ->
     l' = [Munmap 65536 4096] /\
     (r_ret (good_driver [] (Munmap 65536 4096)) = 0 ->
      err = C2_OK /\ fence' = Some (-1)) /\
     (r_ret (good_driver [] (Munmap 65536 4096)) <> 0 ->
      err = c2_map_errno [N_EINVAL]
              (r_errno (good_driver [] (Munmap 65536 4096))) /\
      fence' = Some 9)).
Proof.
  repeat (split; [reflexivity|]).
  exact (unmap_checks_recorded_mapping good_driver mapped_impl 65536 4096
           (Some 9) [] 65536 0 4096 eq_refl eq_refl eq_refl).
Defined.

(** C4, the claim as stated fails.  On the sample mapping and the
    matching pair [(0x10000, 4096)]: when [munmap] succeeds, [unmap]
    returns [C2_OK] and the allocation still records the descriptor, the
    address, the padding and the size it recorded before, so the same
    pair matches again; when [munmap] fails with [EINVAL], [unmap]
    returns [C2_BAD_VALUE] although the pair matches. *)
Lemma unmap_keeps_recorded_mapping :
  65536 = ptr_add 65536 0 /\ size_t (4096 + 0) = 4096 /\
  C2AllocationIon.Impl_unmap good_driver mapped_impl 65536 4096 None []
  = Some ((C2_OK, None, mapped_impl), [Munmap 65536 4096]) /\
  C2AllocationIon.mMapFd mapped_impl = 5 /\
  C2AllocationIon.mMapAddr mapped_impl = Some 65536 /\
  C2AllocationIon.mMapAlignmentBytes mapped_impl = Some 0 /\
  C2AllocationIon.mMapSize mapped_impl = Some 4096 /\
  C2AllocationIon.Impl_unmap good_driver mapped_impl 65536 4096 None
    [Munmap 65536 4096]
  = Some ((C2_OK, None, mapped_impl), [Munmap 65536 4096; Munmap 65536 4096]) /\
  C2AllocationIon.Impl_unmap munmap_einval_driver mapped_impl 65536 4096 None []
  = Some ((C2_BAD_VALUE, None, mapped_impl), [Munmap 65536 4096]).
Proof. repeat split. Qed.

(** C6: a second [map] on the sample mapping. *)
Lemma map_with_mapped_fd_remaps_witness :
  C2AllocationIon.mMapFd mapped_impl <> -1 /\
  exists (err : C2Error) (addr : Z) (this' : C2AllocationIon.Impl)
         (c : DriverCall),
    C2AllocationIon.Impl_map good_driver mapped_impl 4096 4096 rw_usage []
    = Some ((err, addr, this'), [c]) /\
    c = Mmap nullptr (size_t (4096 + 4096 mod PAGE_SIZE))
             (C2AllocationIon.map_prot rw_usage)
             (C2AllocationIon.map_flags rw_usage)
             (C2AllocationIon.mMapFd mapped_impl)
             (size_t (4096 - 4096 mod PAGE_SIZE)) /\
    C2AllocationIon.mMapFd this' = C2AllocationIon.mMapFd mapped_impl /\
    C2AllocationIon.mInit this' = C2AllocationIon.mInit mapped_impl /\
    C2AllocationIon.mHandle this' = C2AllocationIon.mHandle mapped_impl /\
    C2AllocationIon.mCapacity this' = C2AllocationIon.mCapacity mapped_impl /\
    (r_ret (good_driver [] c) <> MAP_FAILED ->
     err = C2_OK /\
     addr = ptr_add (r_ret (good_driver [] c)) (4096 mod PAGE_SIZE) /\
     C2AllocationIon.mMapAddr this' = Some (r_ret (good_driver [] c)) /\
     C2AllocationIon.mMapAlignmentBytes this' = Some (4096 mod PAGE_SIZE) /\
     C2AllocationIon.mMapSize this'
     = Some (size_t (4096 + 4096 mod PAGE_SIZE))) /\
    (r_ret (good_driver [] c) = MAP_FAILED ->
     err = c2_map_errno [N_EINVAL] (r_errno (good_driver [] c)) /\
     addr = nullptr /\
     C2AllocationIon.mMapAddr this' = Some nullptr /\
     C2AllocationIon.mMapAlignmentBytes this'
     = C2AllocationIon.mMapAlignmentBytes mapped_impl /\
     C2AllocationIon.mMapSize this' = C2AllocationIon.mMapSize mapped_impl).
Proof.
  assert (H : C2AllocationIon.mMapFd mapped_impl <> -1) by discriminate.
  split; [exact H|].
  exact (map_with_mapped_fd_remaps good_driver mapped_impl 4096 4096 rw_usage
           [] H).
Defined.

(** C6, the claim as stated fails.  The sample mapping records the
    descriptor 5; a second [map] of the same range calls [mmap] on that
    descriptor and replaces the recorded address [0x10000] by the new
    one. *)
Lemma map_on_mapped_fd_is_not_a_noop :
  C2AllocationIon.mMapFd mapped_impl = 5 /\
  exists this' : C2AllocationIon.Impl,
    C2AllocationIon.Impl_map good_driver mapped_impl 0 4096 rw_usage []
    = Some ((C2_OK, 131072, this'), [Mmap nullptr 4096 3 1 5 0]) /\
    C2AllocationIon.mMapAddr mapped_impl = Some 65536 /\
    C2AllocationIon.mMapAddr this' = Some 131072 /\
    this' <> mapped_impl.
Proof.
  split; [reflexivity|]. eexists.
  split; [vm_compute; reflexivity|].
  split; [reflexivity|]. split; [reflexivity|].
  discriminate.
Qed.

(** C7 on the sample block: offset 10 and size 50 in a capacity of
    100. *)
Lemma linear_block_map_whole_capacity_witness :
  LinearRange.ok (C2LinearBlock.range sample_linear_block) /\
  w_heap small_world
    !! C2LinearBlock.mAllocation (C2LinearBlock.mImpl sample_linear_block)
  = Some small_alloc /\
  exists (acq : C2Acquirable C2WriteView.t) (b' : C2LinearBlock.t)
         (w' : World),
    C2LinearBlock.map good_driver sample_linear_block small_world
    = Some ((acq, b'), w') /\
    C2LinearBlock.range b' = C2LinearBlock.range sample_linear_block /\
    (C2LinearBlock.mBase (C2LinearBlock.mImpl sample_linear_block) = nullptr ->
     exists (err : C2Error) (addr : Z) (a' : C2AllocationIon.t)
            (c : DriverCall),
       C2AllocationIon.map good_driver small_alloc 0
         (C2LinearBlock.capacity sample_linear_block)
         {| mConsumer := kSoftwareRead; mProducer := kSoftwareWrite |}
         (w_log small_world)
       = Some ((err, addr, a'), c :: w_log small_world) /\
       (c = IonMap (C2HandleIon.ionFd (C2AllocationIon.handle small_alloc))
              (C2HandleIon.buffer (C2AllocationIon.handle small_alloc))
              (size_t (C2LinearBlock.capacity sample_linear_block))
              (C2AllocationIon.map_prot
                 {| mConsumer := kSoftwareRead;
                    mProducer := kSoftwareWrite |})
              (C2AllocationIon.map_flags
                 {| mConsumer := kSoftwareRead;
                    mProducer := kSoftwareWrite |}) 0
        \/ c = Mmap nullptr
                 (size_t (C2LinearBlock.capacity sample_linear_block))
                 (C2AllocationIon.map_prot
                    {| mConsumer := kSoftwareRead;
                       mProducer := kSoftwareWrite |})
                 (C2AllocationIon.map_flags
                    {| mConsumer := kSoftwareRead;
                       mProducer := kSoftwareWrite |})
                 (C2AllocationIon.mMapFd
                    (C2AllocationIon.mImpl small_alloc)) 0) /\
       w' = {| w_log := c :: w_log small_world;
               w_heap :=
                 <[C2LinearBlock.mAllocation
                     (C2LinearBlock.mImpl sample_linear_block) := a']>
                   (w_heap small_world) |} /\
       acq_error acq = err /\
       (err = C2_OK ->
        C2LinearBlock.Impl_base (C2LinearBlock.mImpl b') = addr)) /\
    (C2LinearBlock.Impl_base (C2LinearBlock.mImpl b') <> nullptr ->
     C2WriteView.offset (acq_view acq)
     = C2LinearBlock.offset sample_linear_block /\
     C2WriteView.size (acq_view acq)
     = C2LinearBlock.size sample_linear_block /\
     C2WriteView.base (acq_view acq)
     = C2LinearBlock.Impl_base (C2LinearBlock.mImpl b') /\
     C2WriteView.data (acq_view acq)
     = ptr_add (C2WriteView.base (acq_view acq))
         (C2WriteView.offset (acq_view acq))).
Proof.
  assert (H1 : LinearRange.ok (C2LinearBlock.range sample_linear_block)).
  { unfold LinearRange.ok. simpl. lia. }
  assert (H2 : w_heap small_world
                 !! C2LinearBlock.mAllocation
                      (C2LinearBlock.mImpl sample_linear_block)
               = Some small_alloc) by reflexivity.
  split; [exact H1|]. split; [exact H2|].
  exact (linear_block_map_whole_capacity good_driver sample_linear_block
           small_world small_alloc H1 H2).
Defined.

(** What the sample block gets: one [ion_map] of 100 bytes at offset 0,
    readable and writable, and a view at offset 10 of size 50. *)
Lemma sample_linear_block_map :
  exists (acq : C2Acquirable C2WriteView.t) (b' : C2LinearBlock.t)
         (w' : World),
    C2LinearBlock.map good_driver sample_linear_block small_world
    = Some ((acq, b'), w') /\
    w_log w' = [IonMap 3 7 100 (Z.lor PROT_READ PROT_WRITE) MAP_SHARED 0] /\
    acq_error acq = C2_OK /\
    C2WriteView.base (acq_view acq) = 65536 /\
    C2WriteView.offset (acq_view acq) = 10 /\
    C2WriteView.size (acq_view acq) = 50 /\
    C2WriteView.data (acq_view acq) = 65546.
Proof. eexists _, _, _. split; [vm_compute; reflexivity|]. repeat split. Qed.

(** C8 on the sample block. *)
Lemma subBlock_range_against_allocation_witness :
  w_heap small_world
    !! C2ConstLinearBlock.mAllocation
         (C2ConstLinearBlock.mImpl sample_const_block)
  = Some small_alloc /\
  exists child : C2ConstLinearBlock.t,
    C2ConstLinearBlock.subBlock sample_const_block 5 10 small_world
    = Some (child, small_world) /\
    C2ConstLinearBlock.subBlock sample_const_block 5 10 small_world
    = C2ConstLinearBlock.new_range
        (C2ConstLinearBlock.mAllocation
           (C2ConstLinearBlock.mImpl sample_const_block))
        5 10 small_world /\
    C2ConstLinearBlock.mAllocation (C2ConstLinearBlock.mImpl child)
    = C2ConstLinearBlock.mAllocation
        (C2ConstLinearBlock.mImpl sample_const_block) /\
    C2ConstLinearBlock.block1D_mAllocation child
    = C2ConstLinearBlock.mAllocation
        (C2ConstLinearBlock.mImpl sample_const_block) /\
    C2ConstLinearBlock.mBase (C2ConstLinearBlock.mImpl child) = nullptr /\
    C2ConstLinearBlock.capacity child = C2AllocationIon.capacity small_alloc /\
    C2ConstLinearBlock.offset child
    = Z.min 5 (C2AllocationIon.capacity small_alloc) /\
    C2ConstLinearBlock.size child
    = Z.min 10 (C2AllocationIon.capacity small_alloc
                - Z.min 5 (C2AllocationIon.capacity small_alloc)).
Proof.
  assert (H : w_heap small_world
                !! C2ConstLinearBlock.mAllocation
                     (C2ConstLinearBlock.mImpl sample_const_block)
              = Some small_alloc) by reflexivity.
  split; [exact H|].
  exact (subBlock_range_against_allocation sample_const_block 5 10
           small_world small_alloc H).
Defined.

(** C8, the claim as stated fails.  The sample block has offset 10 and
    size 50 in a capacity of 100.  [subBlock(5, 10)] is at offset 5 of
    the allocation, not at 10 + 5, and starts before its parent;
    [subBlock(0, 100)] has size 100, which the parent's 50 bytes do not
    bound. *)
Lemma subBlock_ignores_parent_range :
  C2ConstLinearBlock.offset sample_const_block = 10 /\
  C2ConstLinearBlock.size sample_const_block = 50 /\
  exists child wide : C2ConstLinearBlock.t,
    C2ConstLinearBlock.subBlock sample_const_block 5 10 small_world
    = Some (child, small_world) /\
    C2ConstLinearBlock.offset child = 5 /\
    C2ConstLinearBlock.offset child
    <> C2ConstLinearBlock.offset sample_const_block + 5 /\
    C2ConstLinearBlock.subBlock sample_const_block 0 100 small_world
    = Some (wide, small_world) /\
    C2ConstLinearBlock.offset wide = 0 /\
    C2ConstLinearBlock.size wide = 100 /\
    ~ C2ConstLinearBlock.size wide <= C2ConstLinearBlock.size sample_const_block.
Proof.
  split; [reflexivity|]. split; [reflexivity|].
  eexists _, _.
  split; [vm_compute; reflexivity|].
  split; [reflexivity|]. split; [discriminate|].
  split; [vm_compute; reflexivity|].
  split; [reflexivity|]. split; [reflexivity|].
  vm_compute. intros H. now apply H.
Qed.

(** C9 on the sample block, with a driver whose mappings fail. *)
Lemma const_block_map_reports_in_view_witness :
  w_heap small_world
    !! C2ConstLinearBlock.mAllocation
         (C2ConstLinearBlock.mImpl sample_const_block)
  = Some small_alloc /\
  (C2ConstLinearBlock.mBase (C2ConstLinearBlock.mImpl sample_const_block)
   <> nullptr ->
   C2ConstLinearBlock.mError (C2ConstLinearBlock.mImpl sample_const_block)
   = C2_OK) /\
  exists (acq : C2Acquirable C2ReadView.t) (b' : C2ConstLinearBlock.t)
         (w' : World),
    C2ConstLinearBlock.map map_failing_driver sample_const_block small_world
    = Some ((acq, b'), w') /\
    (C2ConstLinearBlock.mBase (C2ConstLinearBlock.mImpl sample_const_block)
     = nullptr ->
     exists (err : C2Error) (addr : Z) (a' : C2AllocationIon.t)
            (c : DriverCall),
       C2AllocationIon.map map_failing_driver small_alloc
         (C2ConstLinearBlock.offset sample_const_block)
         (C2ConstLinearBlock.size sample_const_block)
         {| mConsumer := kSoftwareRead; mProducer := 0 |}
         (w_log small_world)
       = Some ((err, addr, a'), c :: w_log small_world) /\
       (err <> C2_OK ->
        acq_error acq = err /\
        C2ReadView.data (acq_view acq) = nullptr /\
        C2ReadView.error (acq_view acq) = err) /\
       (err = C2_OK -> addr <> nullptr ->
        acq_error acq = C2_OK /\
        C2ReadView.data (acq_view acq) = addr /\
        C2ReadView.capacity (acq_view acq)
        = C2ConstLinearBlock.size sample_const_block /\
        C2ReadView.error (acq_view acq) = C2_OK)) /\
    (C2ConstLinearBlock.mBase (C2ConstLinearBlock.mImpl sample_const_block)
     <> nullptr ->
     acq_error acq = C2_OK /\
     C2ReadView.data (acq_view acq)
     = C2ConstLinearBlock.mBase (C2ConstLinearBlock.mImpl sample_const_block) /\
     C2ReadView.capacity (acq_view acq)
     = C2ConstLinearBlock.size sample_const_block /\
     C2ReadView.error (acq_view acq) = C2_OK) /\
    (C2ConstLinearBlock.Impl_base (C2ConstLinearBlock.mImpl b') = nullptr ->
     C2ReadView.data (acq_view acq) = nullptr /\
     C2ReadView.error (acq_view acq) = acq_error acq /\
     acq_error acq
     = C2ConstLinearBlock.Impl_error (C2ConstLinearBlock.mImpl b')).
Proof.
  assert (H1 : w_heap small_world
                 !! C2ConstLinearBlock.mAllocation
                      (C2ConstLinearBlock.mImpl sample_const_block)
               = Some small_alloc) by reflexivity.
  assert (H2 : C2ConstLinearBlock.mBase
                 (C2ConstLinearBlock.mImpl sample_const_block) <> nullptr ->
               C2ConstLinearBlock.mError
                 (C2ConstLinearBlock.mImpl sample_const_block) = C2_OK).
  { intros H. exfalso. apply H. reflexivity. }
  split; [exact H1|]. split; [exact H2|].
  exact (const_block_map_reports_in_view map_failing_driver sample_const_block
           small_world small_alloc H1 H2).
Defined.

(** What the sample const block gets.  On the failing driver, an
    acquirable and a view that carry [C2_CORRUPTED] (the [EINVAL] table
    has no entry for [ENOMEM]) and no data; on the good driver, a view
    of its 50 bytes at the mapped address. *)
Lemma sample_const_block_map :
  (exists (acq : C2Acquirable C2ReadView.t) (b' : C2ConstLinearBlock.t)
          (w' : World),
      C2ConstLinearBlock.map map_failing_driver sample_const_block small_world
      = Some ((acq, b'), w') /\
      w_log w' = [IonMap 3 7 60 PROT_READ MAP_PRIVATE 0] /\
      acq_error acq = C2_CORRUPTED /\
      C2ReadView.data (acq_view acq) = nullptr /\
      C2ReadView.error (acq_view acq) = C2_CORRUPTED) /\
  (exists (acq : C2Acquirable C2ReadView.t) (b' : C2ConstLinearBlock.t)
          (w' : World),
      C2ConstLinearBlock.map good_driver sample_const_block small_world
      = Some ((acq, b'), w') /\
      w_log w' = [IonMap 3 7 60 PROT_READ MAP_PRIVATE 0] /\
      acq_error acq = C2_OK /\
      C2ReadView.data (acq_view acq) = 65546 /\
      C2ReadView.capacity (acq_view acq) = 50 /\
      C2ReadView.error (acq_view acq) = C2_OK).
Proof.
  split; eexists _, _, _; (split; [vm_compute; reflexivity|]); repeat split.
Qed.
End SampleRuns.

(** * Further properties *)

(** ** The errno table and machine integers *)

Lemma sint32_small (x : Z) : is_int x -> sint32 x = x.
Proof.
  unfold is_int, sint32. intros H.
  rewrite Z.mod_small by lia. lia.
Qed.

Lemma sint32_neg_nonzero (r : Z) : is_int r -> r <> 0 -> sint32 (- r) <> 0.
Proof.
  intros H Hnz.
  destruct (Z.eq_dec r (- 2 ^ 31)) as [-> | Hmin]; [vm_compute; discriminate|].
  rewrite sint32_small; unfold is_int in *; lia.
Qed.

Section CodeFacts.
Context `{EC : C2ErrorCodes}.

(** The six named codes are pairwise different. *)
Lemma C2_codes_pairwise :
  C2_OK <> C2_BAD_VALUE /\ C2_OK <> C2_NO_PERMISSION /\ C2_OK <> C2_NO_MEMORY /\
  C2_OK <> C2_UNSUPPORTED /\ C2_OK <> C2_CORRUPTED /\
  C2_BAD_VALUE <> C2_NO_PERMISSION /\ C2_BAD_VALUE <> C2_NO_MEMORY /\
  C2_BAD_VALUE <> C2_UNSUPPORTED /\ C2_BAD_VALUE <> C2_CORRUPTED /\
  C2_NO_PERMISSION <> C2_NO_MEMORY /\ C2_NO_PERMISSION <> C2_UNSUPPORTED /\
  C2_NO_PERMISSION <> C2_CORRUPTED /\
  C2_NO_MEMORY <> C2_UNSUPPORTED /\ C2_NO_MEMORY <> C2_CORRUPTED /\
  C2_UNSUPPORTED <> C2_CORRUPTED.
Proof.
  pose proof C2_codes_distinct as H.
  repeat (apply NoDup_cons in H as [? H]).
  repeat match goal with
         | H : _ ∉ _ |- _ => rewrite !not_elem_of_cons in H
         end.
  intuition congruence.
Qed.

(** X1.  Whatever table it is instantiated at, [c2_map_errno] returns
    [C2_OK] for the value 0 and for no other value. *)
Theorem c2_map_errno_ok_iff_zero (N : list errno_case) (result : Z) :
  c2_map_errno N result = C2_OK <-> result = 0.
Proof.
  destruct C2_codes_pairwise as (Hb & Hp & Hm & _ & Hc & _).
  split; [|intros ->; apply c2_map_errno_zero].
  unfold c2_map_errno.
  induction N as [|E N' IH]; cbn [_c2_map_errno_impl].
  - destruct (Z.eqb_spec result 0); [auto | congruence].
  - destruct (Z.eqb_spec result (errno_of E)) as [-> | _]; [|exact IH].
    destruct E; cbn [_c2_errno2error_impl errno_of]; congruence.
Qed.

(** X2.  The order and the repetitions of the template arguments do not
    matter: two tables that list the same errno values map every value
    alike. *)
Theorem c2_map_errno_order_irrelevant (N N' : list errno_case) (result : Z) :
  (forall E : errno_case, In E N <-> In E N') ->
  c2_map_errno N result = c2_map_errno N' result.
Proof.
  intros Hsame.
  destruct (in_dec Z.eq_dec result (List.map errno_of N)) as [HIn | Hout].
  - apply in_map_iff in HIn as (E & <- & HE).
    rewrite (c2_map_errno_listed N E HE).
    now rewrite (c2_map_errno_listed N' E (proj1 (Hsame E) HE)).
  - rewrite (c2_map_errno_unlisted N result Hout).
    rewrite (c2_map_errno_unlisted N' result); [reflexivity|].
    intros HIn. apply Hout.
    apply in_map_iff in HIn as (E & <- & HE).
    apply in_map. now apply Hsame.
Qed.

(** Every value [c2_map_errno] returns is one of five codes. *)
Lemma c2_map_errno_range (N : list errno_case) (result : Z) :
  c2_map_errno N result = C2_OK \/ c2_map_errno N result = C2_BAD_VALUE \/
  c2_map_errno N result = C2_NO_PERMISSION \/
  c2_map_errno N result = C2_NO_MEMORY \/ c2_map_errno N result = C2_CORRUPTED.
Proof.
  unfold c2_map_errno.
  induction N as [|E N' IH]; cbn [_c2_map_errno_impl].
  - destruct (result =? 0); auto.
  - destruct (result =? errno_of E); [|exact IH].
    destruct E; cbn [_c2_errno2error_impl]; auto.
Qed.
End CodeFacts.

(** ** The allocator, from construction to destruction *)

Section AllocatorLife.
Context `{EC : C2ErrorCodes} (drv : Driver).

(** X3.  The status the constructor leaves, by what [ion_open] returned
    and what [errno] holds: [C2_OK] when the descriptor is not negative
    (or [errno] is 0), [C2_UNSUPPORTED] for [ENOENT], [C2_NO_PERMISSION]
    for [EACCES], [C2_CORRUPTED] for every other error; the descriptor is
    kept as returned. *)
Theorem allocator_status_table (l : Log) :
  exists this : C2AllocatorIon.t,
    C2AllocatorIon.new drv l = Some (this, IonOpen :: l) /\
    C2AllocatorIon.mIonFd this = r_ret (drv l IonOpen) /\
    (C2AllocatorIon.mInit this = C2_OK <->
     0 <= r_ret (drv l IonOpen) \/ r_errno (drv l IonOpen) = 0) /\
    (C2AllocatorIon.mInit this = C2_UNSUPPORTED <->
     r_ret (drv l IonOpen) < 0 /\ r_errno (drv l IonOpen) = ENOENT) /\
    (C2AllocatorIon.mInit this = C2_NO_PERMISSION <->
     r_ret (drv l IonOpen) < 0 /\ r_errno (drv l IonOpen) = EACCES) /\
    (C2AllocatorIon.mInit this = C2_CORRUPTED <->
     r_ret (drv l IonOpen) < 0 /\ r_errno (drv l IonOpen) <> 0 /\
     r_errno (drv l IonOpen) <> ENOENT /\ r_errno (drv l IonOpen) <> EACCES).
Proof.
  destruct C2_codes_pairwise
    as (_ & Hop & _ & Hou & Hoc & _ & _ & _ & _ & _ & Hpu & Hpc & _ & _ & Huc).
  unfold C2AllocatorIon.new, bind, call. cbn [C2AllocatorIon.mIonFd].
  set (r := drv l IonOpen).
  destruct (Z.ltb_spec (r_ret r) 0) as [Hneg | Hpos].
  - destruct (Z.eqb_spec (r_errno r) ENOENT) as [He | He].
    + eexists. split; [reflexivity|]. cbn.
      rewrite He. unfold ENOENT, EACCES.
      repeat split; intros; try lia; try congruence;
        intuition (try lia; try congruence).
    + eexists. split; [reflexivity|]. cbn [C2AllocatorIon.mInit C2AllocatorIon.mIonFd].
      rewrite c2_map_errno_open_table.
      destruct (Z.eqb_spec (r_errno r) EACCES) as [Ha | Ha].
      * rewrite Ha. unfold ENOENT, EACCES.
        repeat split; intros; try lia; try congruence;
          intuition (try lia; try congruence).
      * destruct (Z.eqb_spec (r_errno r) 0) as [Hz | Hz];
          repeat split; intros; try lia; try congruence;
            intuition (try lia; try congruence).
  - eexists. split; [reflexivity|]. cbn.
    repeat split; intros; try lia; try congruence;
      intuition (try lia; try congruence).
Qed.

(** X4.  An allocator that is built and then destroyed closes the
    descriptor it opened when its status is [C2_OK], and makes no call
    beyond [ion_open] otherwise: a broken allocator closes nothing. *)
Theorem allocator_closes_iff_ok (l : Log) :
  exists (this : C2AllocatorIon.t) (l' : Log),
    C2AllocatorIon.new drv l = Some (this, IonOpen :: l) /\
    C2AllocatorIon.destroy drv this (IonOpen :: l) = Some (tt, l') /\
    (C2AllocatorIon.mInit this = C2_OK ->
     l' = IonClose (r_ret (drv l IonOpen)) :: IonOpen :: l) /\
    (C2AllocatorIon.mInit this <> C2_OK -> l' = IonOpen :: l).
Proof.
  assert (Hd : forall this : C2AllocatorIon.t,
             exists l',
               C2AllocatorIon.destroy drv this (IonOpen :: l) = Some (tt, l') /\
               (C2AllocatorIon.mInit this = C2_OK ->
                l' = IonClose (C2AllocatorIon.mIonFd this) :: IonOpen :: l) /\
               (C2AllocatorIon.mInit this <> C2_OK -> l' = IonOpen :: l)).
  { intros this. unfold C2AllocatorIon.destroy, bind, call, pure.
    destruct (Z.eqb_spec (C2AllocatorIon.mInit this) C2_OK);
      eexists; (split; [reflexivity|]); split; intros; congruence. }
  unfold C2AllocatorIon.new, bind, call. cbn [C2AllocatorIon.mIonFd].
  destruct (r_ret (drv l IonOpen) <? 0);
    [destruct (r_errno (drv l IonOpen) =? ENOENT)|];
    match goal with
    | |- context [pure ?t (IonOpen :: l)] =>
        destruct (Hd t) as (l' & H1 & H2 & H3); exists t, l'
    end; repeat split; assumption.
Qed.
End AllocatorLife.

(** ** Allocating and recreating *)

Section AllocateFacts.
Context `{EC : C2ErrorCodes} (drv : Driver).

Lemma Impl_alloc_success (ionFd capacity align heapMask flags : Z) (l : Log) :
  r_ret (drv l (IonAlloc ionFd capacity align heapMask flags)) = 0 ->
  C2AllocationIon.Impl_alloc drv ionFd capacity align heapMask flags l
  = Some (allocated_impl ionFd capacity
            (r_out1 (drv l (IonAlloc ionFd capacity align heapMask flags))),
          IonAlloc ionFd capacity align heapMask flags :: l).
Proof.
  intros H. unfold C2AllocationIon.Impl_alloc, bind, call.
  cbn [C2AllocationIon.mHandle C2AllocationIon.mCapacity].
  change (C2HandleIon.ionFd (C2HandleIon.new ionFd (-1))) with ionFd.
  rewrite H. reflexivity.
Qed.

Lemma Impl_alloc_failure (ionFd capacity align heapMask flags : Z) (l : Log) :
  r_ret (drv l (IonAlloc ionFd capacity align heapMask flags)) <> 0 ->
  C2AllocationIon.Impl_alloc drv ionFd capacity align heapMask flags l
  = Some (C2AllocationIon.set_mInit (allocated_impl ionFd capacity (-1))
            (c2_map_errno [N_ENOMEM; N_EACCES; N_EINVAL]
               (sint32 (- r_ret (drv l (IonAlloc ionFd capacity align
                                          heapMask flags))))),
          IonAlloc ionFd capacity align heapMask flags :: l).
Proof.
  intros H. unfold C2AllocationIon.Impl_alloc, bind, call.
  cbn [C2AllocationIon.mHandle C2AllocationIon.mCapacity].
  change (C2HandleIon.ionFd (C2HandleIon.new ionFd (-1))) with ionFd.
  apply Z.eqb_neq in H. rewrite H. reflexivity.
Qed.

(** What [allocateLinearBuffer] does after the status check, by whether
    the object it built has status [C2_OK]. *)
Lemma build_and_keep (ctor : SF Log C2AllocationIon.t) (w : World)
    (a : C2AllocationIon.t) (l : Log) :
  ctor (w_log w) = Some (a, l) ->
  C2AllocationIon.status a = C2_OK ->
  (let* alloc := make_shared ctor in
   let* a := deref alloc in
   let ret := C2AllocationIon.status a in
   if ret =? C2_OK then pure (ret, Some alloc)
   else let* _ := release drv alloc in pure (ret, None)) w
  = Some ((C2_OK, Some (fresh (dom (w_heap w)))),
          {| w_log := l;
             w_heap := <[fresh (dom (w_heap w)) := a]> (w_heap w) |}).
Proof.
  intros Hctor Hok.
  unfold bind at 1. rewrite (make_shared_run ctor w a l Hctor).
  unfold bind at 1. unfold deref at 1. cbn [w_heap].
  rewrite lookup_insert_eq, Hok, Z.eqb_refl. reflexivity.
Qed.

Lemma build_and_drop (ctor : SF Log C2AllocationIon.t) (w : World)
    (a : C2AllocationIon.t) (l : Log) :
  ctor (w_log w) = Some (a, l) ->
  C2AllocationIon.status a <> C2_OK ->
  C2AllocationIon.mMapFd (C2AllocationIon.mImpl a) = -1 ->
  (let* alloc := make_shared ctor in
   let* a := deref alloc in
   let ret := C2AllocationIon.status a in
   if ret =? C2_OK then pure (ret, Some alloc)
   else let* _ := release drv alloc in pure (ret, None)) w
  = Some ((C2AllocationIon.status a, None),
          {| w_log := IonFree (C2HandleIon.ionFd (C2AllocationIon.handle a))
                        (C2HandleIon.buffer (C2AllocationIon.handle a)) :: l;
             w_heap := w_heap w |}).
Proof.
  intros Hctor Hno Hfd.
  unfold bind at 1. rewrite (make_shared_run ctor w a l Hctor).
  unfold bind at 1. unfold deref at 1. cbn [w_heap].
  rewrite lookup_insert_eq.
  apply Z.eqb_neq in Hno. rewrite Hno.
  unfold bind at 1, release, bind, deref, sys. cbn [w_heap w_log].
  rewrite lookup_insert_eq.
  unfold C2AllocationIon.destroy, C2AllocationIon.Impl_destroy, bind, call, pure.
  rewrite Hfd. cbn [Z.eqb negb Pos.eqb].
  cbn [w_heap w_log].
  rewrite delete_insert_id by apply fresh_not_in_heap.
  reflexivity.
Qed.

Lemma allocateLinearBuffer_success (this : C2AllocatorIon.t) (capacity : Z)
    (usage : C2MemoryUsage) (w : World) :
  C2AllocatorIon.mInit this = C2_OK ->
  r_ret (drv (w_log w)
           (IonAlloc (C2AllocatorIon.mIonFd this) capacity 0 (2 ^ 32 - 1) 0)) = 0 ->
  C2AllocatorIon.allocateLinearBuffer drv this capacity usage w
  = Some ((C2_OK, Some (fresh (dom (w_heap w)))),
          {| w_log := IonAlloc (C2AllocatorIon.mIonFd this) capacity 0
                        (2 ^ 32 - 1) 0 :: w_log w;
             w_heap :=
               <[fresh (dom (w_heap w)) :=
                   {| C2AllocationIon.capacity := capacity;
                      C2AllocationIon.mImpl :=
                        allocated_impl (C2AllocatorIon.mIonFd this) capacity
                          (r_out1 (drv (w_log w)
                                     (IonAlloc (C2AllocatorIon.mIonFd this)
                                        capacity 0 (2 ^ 32 - 1) 0))) |}]>
                 (w_heap w) |}).
Proof.
  intros Hinit Hret.
  unfold C2AllocatorIon.allocateLinearBuffer.
  rewrite Hinit, Z.eqb_refl. cbn [negb].
  apply build_and_keep; [|reflexivity].
  unfold C2AllocationIon.new, bind.
  now rewrite (Impl_alloc_success _ _ _ _ _ _ Hret).
Qed.

Lemma allocateLinearBuffer_failure (this : C2AllocatorIon.t) (capacity : Z)
    (usage : C2MemoryUsage) (w : World) :
  C2AllocatorIon.mInit this = C2_OK ->
  is_int (r_ret (drv (w_log w)
                   (IonAlloc (C2AllocatorIon.mIonFd this) capacity 0
                      (2 ^ 32 - 1) 0))) ->
  r_ret (drv (w_log w)
           (IonAlloc (C2AllocatorIon.mIonFd this) capacity 0 (2 ^ 32 - 1) 0))
  <> 0 ->
  C2AllocatorIon.allocateLinearBuffer drv this capacity usage w
  = Some ((c2_map_errno [N_ENOMEM; N_EACCES; N_EINVAL]
             (sint32 (- r_ret (drv (w_log w)
                                 (IonAlloc (C2AllocatorIon.mIonFd this)
                                    capacity 0 (2 ^ 32 - 1) 0)))), None),
          {| w_log := IonFree (C2AllocatorIon.mIonFd this) (-1)
                      :: IonAlloc (C2AllocatorIon.mIonFd this) capacity 0
                           (2 ^ 32 - 1) 0 :: w_log w;
             w_heap := w_heap w |}).
Proof.
  intros Hinit Hint Hret.
  unfold C2AllocatorIon.allocateLinearBuffer.
  rewrite Hinit, Z.eqb_refl. cbn [negb].
  rewrite (build_and_drop _ w
             {| C2AllocationIon.capacity := capacity;
                C2AllocationIon.mImpl :=
                  C2AllocationIon.set_mInit
                    (allocated_impl (C2AllocatorIon.mIonFd this) capacity (-1))
                    (c2_map_errno [N_ENOMEM; N_EACCES; N_EINVAL]
                       (sint32 (- r_ret (drv (w_log w)
                                           (IonAlloc (C2AllocatorIon.mIonFd this)
                                              capacity 0 (2 ^ 32 - 1) 0))))) |}
             (IonAlloc (C2AllocatorIon.mIonFd this) capacity 0 (2 ^ 32 - 1) 0
              :: w_log w)).
  - reflexivity.
  - unfold C2AllocationIon.new, bind.
    rewrite (Impl_alloc_failure _ _ _ _ _ _ Hret). reflexivity.
  - unfold C2AllocationIon.status, C2AllocationIon.Impl_status.
    cbn [C2AllocationIon.mImpl C2AllocationIon.set_mInit C2AllocationIon.mInit].
    apply c2_map_errno_nonzero.
    + simpl. intros [H | [H | [H | []]]]; discriminate.
    + now apply sint32_neg_nonzero.
  - reflexivity.
Qed.

(** X5.  On a working allocator, when [ion_alloc] returns 0,
    [allocateLinearBuffer] makes this one driver call, for the requested
    capacity with alignment 0, every heap and no flags, and returns
    [C2_OK] with a new allocation: it is at a location that was not in
    use, the objects already in the heap stay as they are, its capacity
    is the requested one, it is valid and nothing is mapped, and its
    handle passes the validity check and carries the allocator's
    descriptor and the buffer the driver stored. *)
Theorem allocateLinearBuffer_new_allocation
    (this : C2AllocatorIon.t) (capacity : Z) (usage : C2MemoryUsage)
    (w : World) :
  C2AllocatorIon.mInit this = C2_OK ->
  r_ret (drv (w_log w)
           (IonAlloc (C2AllocatorIon.mIonFd this) capacity 0 (2 ^ 32 - 1) 0)) = 0 ->
  exists (p : loc) (a : C2AllocationIon.t) (w' : World),
    C2AllocatorIon.allocateLinearBuffer drv this capacity usage w
    = Some ((C2_OK, Some p), w') /\
    w_log w' = IonAlloc (C2AllocatorIon.mIonFd this) capacity 0 (2 ^ 32 - 1) 0
               :: w_log w /\
    w_heap w !! p = None /\
    w_heap w' !! p = Some a /\
    (forall q : loc, q <> p -> w_heap w' !! q = w_heap w !! q) /\
    C2AllocationIon.capacity a = capacity /\
    C2AllocationIon.isValid a = true /\
    C2AllocationIon.mMapFd (C2AllocationIon.mImpl a) = -1 /\
    C2HandleIon.isValid (Some (C2AllocationIon.handle a)) = true /\
    C2HandleIon.ionFd (C2AllocationIon.handle a) = C2AllocatorIon.mIonFd this /\
    C2HandleIon.buffer (C2AllocationIon.handle a)
    = r_out1 (drv (w_log w)
                (IonAlloc (C2AllocatorIon.mIonFd this) capacity 0
                   (2 ^ 32 - 1) 0)).
Proof.
  intros Hinit Hret.
  rewrite (allocateLinearBuffer_success this capacity usage w Hinit Hret).
  eexists _, _, _. split; [reflexivity|].
  cbn [w_log w_heap].
  split; [reflexivity|]. split; [apply fresh_not_in_heap|].
  split; [apply lookup_insert_eq|].
  split; [intros q Hq; now apply lookup_insert_ne|].
  split; [reflexivity|].
  split; [unfold C2AllocationIon.isValid; cbn; apply Z.eqb_refl|].
  repeat split.
Qed.

(** X6.  On a working allocator, when [ion_alloc] fails,
    [allocateLinearBuffer] returns a null allocation and leaves the heap
    as it was; the allocation it had built is destroyed, which calls
    [ion_free] on the buffer -1 that was never allocated.  The error is
    never [C2_OK]: [C2_NO_MEMORY] for [-ENOMEM], [C2_NO_PERMISSION] for
    [-EACCES], [C2_BAD_VALUE] for [-EINVAL], [C2_CORRUPTED] for every
    other value. *)
Theorem allocateLinearBuffer_failure_codes
    (this : C2AllocatorIon.t) (capacity : Z) (usage : C2MemoryUsage)
    (w : World) (ret : Z) :
  C2AllocatorIon.mInit this = C2_OK ->
  ret = r_ret (drv (w_log w)
                 (IonAlloc (C2AllocatorIon.mIonFd this) capacity 0
                    (2 ^ 32 - 1) 0)) ->
  is_int ret -> ret <> 0 ->
  exists (err : C2Error) (w' : World),
    C2AllocatorIon.allocateLinearBuffer drv this capacity usage w
    = Some ((err, None), w') /\
    w_heap w' = w_heap w /\
    w_log w' = IonFree (C2AllocatorIon.mIonFd this) (-1)
               :: IonAlloc (C2AllocatorIon.mIonFd this) capacity 0
                    (2 ^ 32 - 1) 0 :: w_log w /\
    err <> C2_OK /\
    (ret = - ENOMEM -> err = C2_NO_MEMORY) /\
    (ret = - EACCES -> err = C2_NO_PERMISSION) /\
    (ret = - EINVAL -> err = C2_BAD_VALUE) /\
    (ret <> - ENOMEM -> ret <> - EACCES -> ret <> - EINVAL ->
     err = C2_CORRUPTED).
Proof.
  intros Hinit -> Hint Hret.
  rewrite (allocateLinearBuffer_failure this capacity usage w Hinit Hint Hret).
  set (r := r_ret _) in *.
  eexists _, _. split; [reflexivity|].
  split; [reflexivity|]. split; [reflexivity|].
  split.
  { apply c2_map_errno_nonzero.
    - simpl. intros [H | [H | [H | []]]]; discriminate.
    - now apply sint32_neg_nonzero. }
  rewrite c2_map_errno_alloc_table.
  split; [intros ->; reflexivity|].
  split; [intros ->; reflexivity|].
  split; [intros ->; reflexivity|].
  intros H1 H2 H3.
  assert (Hs : sint32 (- r) <> ENOMEM /\ sint32 (- r) <> EACCES /\
               sint32 (- r) <> EINVAL /\ sint32 (- r) <> 0).
  { destruct (Z.eq_dec r (- 2 ^ 31)) as [-> | Hmin];
      [vm_compute; repeat split; discriminate|].
    rewrite sint32_small by (unfold is_int in *; lia).
    unfold ENOMEM, EACCES, EINVAL in *. lia. }
  destruct Hs as (S1 & S2 & S3 & S4).
  apply Z.eqb_neq in S1, S2, S3, S4. now rewrite S1, S2, S3, S4.
Qed.

(** X7.  On a working allocator and a handle that passes the check,
    [recreateLinearBuffer] imports the buffer the handle names, on the
    allocator's descriptor, and returns what [ion_import] returned, as it
    is: the value does not go through the errno table.  The allocation is
    stored exactly when that value is [C2_OK], and a recreated allocation
    has capacity 0. *)
Theorem recreateLinearBuffer_imports
    (this : C2AllocatorIon.t) (h : C2Handle.t) (w : World) :
  C2AllocatorIon.mInit this = C2_OK ->
  C2HandleIon.isValid (Some h) = true ->
  exists (allocation : option loc) (w' : World) (rest : Log),
    C2AllocatorIon.recreateLinearBuffer drv this (Some h) w
    = Some ((r_ret (drv (w_log w)
                      (IonImport (C2AllocatorIon.mIonFd this)
                         (C2HandleIon.buffer h))), allocation), w') /\
    w_log w' = rest ++ IonImport (C2AllocatorIon.mIonFd this)
                         (C2HandleIon.buffer h) :: w_log w /\
    (allocation <> None <->
     r_ret (drv (w_log w)
              (IonImport (C2AllocatorIon.mIonFd this) (C2HandleIon.buffer h)))
     = C2_OK) /\
    (forall (p : loc), allocation = Some p ->
       exists a : C2AllocationIon.t,
         w_heap w' !! p = Some a /\ w_heap w !! p = None /\
         C2AllocationIon.capacity a = 0 /\
         C2HandleIon.ionFd (C2AllocationIon.handle a)
         = C2AllocatorIon.mIonFd this).
Proof.
  intros Hinit Hvalid.
  assert (Hunf :
    C2AllocatorIon.recreateLinearBuffer drv this (Some h) w
    = (let* alloc := make_shared
                       (C2AllocationIon.import drv (C2AllocatorIon.mIonFd this)
                          0 (C2HandleIon.buffer h)) in
       let* a := deref alloc in
       let ret := C2AllocationIon.status a in
       if ret =? C2_OK then pure (ret, Some alloc)
       else let* _ := release drv alloc in pure (ret, None)) w).
  { unfold C2AllocatorIon.recreateLinearBuffer.
    rewrite Hinit, Z.eqb_refl, Hvalid. reflexivity. }
  rewrite Hunf. clear Hunf.
  set (r := drv (w_log w)
              (IonImport (C2AllocatorIon.mIonFd this) (C2HandleIon.buffer h))).
  assert (Hctor : exists a : C2AllocationIon.t,
             C2AllocationIon.import drv (C2AllocatorIon.mIonFd this) 0
               (C2HandleIon.buffer h) (w_log w)
             = Some (a, IonImport (C2AllocatorIon.mIonFd this)
                          (C2HandleIon.buffer h) :: w_log w) /\
             C2AllocationIon.status a = r_ret r /\
             C2AllocationIon.capacity a = 0 /\
             C2AllocationIon.mMapFd (C2AllocationIon.mImpl a) = -1 /\
             C2HandleIon.ionFd (C2AllocationIon.handle a)
             = C2AllocatorIon.mIonFd this).
  { unfold C2AllocationIon.import, C2AllocationIon.Impl_import, bind, call, pure.
    change (C2HandleIon.ionFd (C2HandleIon.new (C2AllocatorIon.mIonFd this) (-1)))
      with (C2AllocatorIon.mIonFd this).
    fold r. cbn [C2AllocationIon.mInit].
    destruct (r_ret r =? 0); eexists; repeat split. }
  destruct Hctor as (a & Hctor & Hst & Hcap & Hfd & Hion).
  destruct (Z.eq_dec (r_ret r) C2_OK) as [Hok | Hno].
  - rewrite (build_and_keep _ w a _ Hctor) by congruence.
    eexists (Some (fresh (dom (w_heap w)))), _, [].
    split; [now rewrite Hok|]. split; [reflexivity|].
    split; [split; [auto | discriminate]|].
    intros p [= <-]. exists a. cbn [w_heap].
    rewrite lookup_insert_eq. repeat split; auto using fresh_not_in_heap.
  - rewrite (build_and_drop _ w a _ Hctor) by congruence.
    eexists None, _, [_].
    split; [now rewrite Hst|]. split; [reflexivity|].
    split; [split; [congruence | intros; contradiction]|].
    discriminate.
Qed.
End AllocateFacts.

(** ** The handle, accepted and updated *)

(** X8.  The check accepts a handle exactly when its three header fields
    are the expected constants and its magic is the ION magic; the two
    descriptors of the payload are not looked at. *)
Theorem isValid_accepts_iff (h : C2Handle.t) :
  is_int (C2Handle.version h) ->
  is_int (C2Handle.numFds h) ->
  is_int (C2Handle.numInts h) ->
  C2HandleIon.isValid (Some h) = true <->
  C2Handle.version h = C2HandleIon.version /\
  C2Handle.numFds h = C2HandleIon.numFds /\
  C2Handle.numInts h = C2HandleIon.numInts /\
  C2HandleIon.mMagic h = C2HandleIon.kMagic.
Proof.
  intros Hv Hf Hi. rewrite isValid_true_iff. split.
  - intros [Hh Hm].
    apply header_bytes_inj in Hh as (H1 & H2 & H3).
    apply int_bytes_inj in H1; [|assumption|vm_compute; split; congruence].
    apply int_bytes_inj in H2; [|assumption|vm_compute; split; congruence].
    apply int_bytes_inj in H3; [|assumption|vm_compute; split; congruence].
    auto.
  - intros (H1 & H2 & H3 & Hm). split; [|exact Hm].
    unfold header_bytes. rewrite H1, H2, H3. reflexivity.
Qed.

(** X9.  [setBuffer] keeps the header, the driver descriptor and the
    magic, so a handle is valid after it exactly when it was before; on a
    payload with its two descriptor slots [buffer()] then reads the value
    that was set. *)
Theorem setBuffer_then_buffer (h : C2Handle.t) (bufferFd : Z) :
  C2HandleIon.isValid (Some (C2HandleIon.setBuffer h bufferFd))
  = C2HandleIon.isValid (Some h) /\
  C2HandleIon.ionFd (C2HandleIon.setBuffer h bufferFd) = C2HandleIon.ionFd h /\
  ((2 <= length (C2Handle.data h))%nat ->
   C2HandleIon.buffer (C2HandleIon.setBuffer h bufferFd) = bufferFd).
Proof.
  unfold C2HandleIon.isValid, C2HandleIon.setBuffer, C2HandleIon.ionFd,
    C2HandleIon.buffer, C2HandleIon.mIon, C2HandleIon.mBuffer,
    C2HandleIon.mMagic, header_bytes.
  cbn [C2Handle.version C2Handle.numFds C2Handle.numInts C2Handle.data].
  rewrite !nth_lookup.
  rewrite !list_lookup_insert_ne by discriminate.
  split; [reflexivity|]. split; [reflexivity|].
  intros Hlen. now rewrite list_lookup_insert_eq by lia.
Qed.

(** ** Mapping and unmapping an allocation *)

Section MappingFacts.
Context `{EC : C2ErrorCodes} (drv : Driver).

Import C2AllocationIon.

(** What [Impl::map] returns, case by case. *)
Lemma Impl_map_cases
    (this : Impl) (offset size : Z) (usage : C2MemoryUsage) (l : Log) :
  let al := offset mod PAGE_SIZE in
  let ms := size_t (size + al) in
  let mo := size_t (offset - al) in
  let c1 := IonMap (C2HandleIon.ionFd (mHandle this))
              (C2HandleIon.buffer (mHandle this)) ms (map_prot usage)
              (map_flags usage) mo in
  let c2 := Mmap nullptr ms (map_prot usage) (map_flags usage) (mMapFd this)
              mo in
  (mMapFd this = -1 /\ r_ret (drv l c1) <> 0 /\
   Impl_map drv this offset size usage l
   = Some ((c2_map_errno [N_EINVAL] (sint32 (- r_ret (drv l c1))), nullptr,
            this), c1 :: l)) \/
  (mMapFd this = -1 /\ r_ret (drv l c1) = 0 /\
   Impl_map drv this offset size usage l
   = Some ((C2_OK, ptr_add (r_out1 (drv l c1)) al,
            {| mInit := mInit this; mHandle := mHandle this;
               mMapFd := r_out2 (drv l c1);
               mMapAddr := Some (r_out1 (drv l c1));
               mMapAlignmentBytes := Some al; mMapSize := Some ms;
               mCapacity := mCapacity this |}), c1 :: l)) \/
  (mMapFd this <> -1 /\ r_ret (drv l c2) = MAP_FAILED /\
   Impl_map drv this offset size usage l
   = Some ((c2_map_errno [N_EINVAL] (r_errno (drv l c2)), nullptr,
            {| mInit := mInit this; mHandle := mHandle this;
               mMapFd := mMapFd this; mMapAddr := Some nullptr;
               mMapAlignmentBytes := mMapAlignmentBytes this;
               mMapSize := mMapSize this;
               mCapacity := mCapacity this |}), c2 :: l)) \/
  (mMapFd this <> -1 /\ r_ret (drv l c2) <> MAP_FAILED /\
   Impl_map drv this offset size usage l
   = Some ((C2_OK, ptr_add (r_ret (drv l c2)) al,
            {| mInit := mInit this; mHandle := mHandle this;
               mMapFd := mMapFd this; mMapAddr := Some (r_ret (drv l c2));
               mMapAlignmentBytes := Some al; mMapSize := Some ms;
               mCapacity := mCapacity this |}), c2 :: l)).
Proof.
  intros al ms mo c1 c2.
  unfold Impl_map, bind, call, pure. fold al. fold ms. fold mo. fold c1. fold c2.
  destruct (Z.eqb_spec (mMapFd this) (-1)) as [Hfd | Hfd].
  - destruct (Z.eqb_spec (r_ret (drv l c1)) 0) as [Hr | Hr]; cbn [negb].
    + right. left. repeat split; assumption.
    + left. repeat split; try assumption.
      destruct this; cbn in Hfd; subst; reflexivity.
  - right. right.
    destruct (Z.eqb_spec (r_ret (drv l c2)) MAP_FAILED) as [Hr | Hr].
    + left. repeat split; assumption.
    + right. repeat split; assumption.
Qed.

(** X10.  Mapping and unmapping never touch what identifies an
    allocation: [map] keeps its status, its handle and its capacity, and
    [unmap] changes no member at all. *)
Theorem map_unmap_keep_identity :
  (forall (this this' : Impl) (offset size : Z) (usage : C2MemoryUsage)
          (l l' : Log) (err : C2Error) (addr : Z),
      Impl_map drv this offset size usage l = Some ((err, addr, this'), l') ->
      mInit this' = mInit this /\ mHandle this' = mHandle this /\
      mCapacity this' = mCapacity this) /\
  (forall (this this' : Impl) (addr size : Z) (fenceFd fence' : option Z)
          (l l' : Log) (err : C2Error),
      Impl_unmap drv this addr size fenceFd l = Some ((err, fence', this'), l') ->
      this' = this).
Proof.
  split.
  - intros this this' offset size usage l l' err addr H.
    destruct (Impl_map_cases this offset size usage l)
      as [(_ & _ & E) | [(_ & _ & E) | [(_ & _ & E) | (_ & _ & E)]]];
      rewrite E in H; injection H as <- <- <- <-; repeat split.
  - intros this this' addr size fenceFd fence' l l' err H.
    unfold Impl_unmap, bind, read, pure, undefined, call in H.
    destruct (mMapAddr this); [|discriminate].
    destruct (mMapAlignmentBytes this); [|discriminate].
    destruct (negb _); [now injection H|].
    destruct (mMapSize this); [|discriminate].
    destruct (negb _); [now injection H|].
    destruct (negb _); now injection H.
Qed.

(** The pair a successful [map] hands out is the pair [unmap] accepts. *)
Lemma Impl_map_unmap_roundtrip
    (this this' : Impl) (offset size : Z) (usage : C2MemoryUsage)
    (l l' : Log) (err : C2Error) (addr : Z) (fenceFd : option Z) :
  Impl_map drv this offset size usage l = Some ((err, addr, this'), l') ->
  addr <> nullptr ->
  err = C2_OK /\
  exists (a : Z) (err' : C2Error) (fence' : option Z),
    mMapAddr this' = Some a /\
    addr = ptr_add a (offset mod PAGE_SIZE) /\
    Impl_unmap drv this' addr size fenceFd l'
    = Some ((err', fence', this'),
            Munmap a (size_t (size + offset mod PAGE_SIZE)) :: l') /\
    (r_ret (drv l' (Munmap a (size_t (size + offset mod PAGE_SIZE)))) = 0 ->
     err' = C2_OK).
Proof.
  intros H Haddr.
  assert (Hun : forall this1 : Impl, forall a : Z,
             mMapAddr this1 = Some a ->
             mMapAlignmentBytes this1 = Some (offset mod PAGE_SIZE) ->
             mMapSize this1 = Some (size_t (size + offset mod PAGE_SIZE)) ->
             exists err' fence',
               Impl_unmap drv this1 (ptr_add a (offset mod PAGE_SIZE)) size
                 fenceFd l'
               = Some ((err', fence', this1),
                       Munmap a (size_t (size + offset mod PAGE_SIZE)) :: l') /\
               (r_ret (drv l' (Munmap a (size_t (size + offset mod PAGE_SIZE))))
                = 0 -> err' = C2_OK)).
  { intros this1 a Ha Hal Hsz.
    unfold Impl_unmap. rewrite Ha, Hal, Hsz.
    unfold bind, read, pure, call. rewrite !Z.eqb_refl. cbn [negb].
    destruct (Z.eqb_spec (r_ret (drv l' (Munmap a (size_t (size + offset mod PAGE_SIZE))))) 0)
      as [Hr | Hr]; cbn [negb]; eexists _, _; split; try reflexivity;
      intros; congruence. }
  destruct (Impl_map_cases this offset size usage l)
    as [(_ & _ & E) | [(_ & _ & E) | [(_ & _ & E) | (_ & _ & E)]]];
    rewrite E in H; injection H as <- <- <- <-;
    try (exfalso; apply Haddr; reflexivity);
    (split; [reflexivity|]);
    match goal with
    | |- context [Impl_unmap drv ?t] =>
        edestruct (Hun t) as (e' & f' & Hu & Hz);
        [reflexivity | reflexivity | reflexivity |];
        eexists _, e', f'; repeat split; eassumption
    end.
Qed.

(** X11.  Round trip.  When [map(offset, size)] hands out a non-null
    address, it returned [C2_OK], and [unmap] of that address with that
    size is accepted: it reaches [munmap], on the recorded mapping address
    and the page-padded size, and returns [C2_OK] when [munmap]
    returns 0. *)
Theorem map_then_unmap_accepted
    (this this' : Impl) (offset size : Z) (usage : C2MemoryUsage)
    (l l' : Log) (err : C2Error) (addr : Z) (fenceFd : option Z) :
  Impl_map drv this offset size usage l = Some ((err, addr, this'), l') ->
  addr <> nullptr ->
  err = C2_OK /\
  exists (a : Z) (err' : C2Error) (fence' : option Z),
    mMapAddr this' = Some a /\
    addr = ptr_add a (offset mod PAGE_SIZE) /\
    Impl_unmap drv this' addr size fenceFd l'
    = Some ((err', fence', this'),
            Munmap a (size_t (size + offset mod PAGE_SIZE)) :: l') /\
    (r_ret (drv l' (Munmap a (size_t (size + offset mod PAGE_SIZE)))) = 0 ->
     err' = C2_OK).
Proof.
  exact (Impl_map_unmap_roundtrip this this' offset size usage l l' err addr
           fenceFd).
Qed.

(** X12.  The range [map] asks the driver for.  For an offset and a size
    of an object ([offset + size] below [2 ^ 64]), the one call [map]
    makes, [ion_map] or [mmap], starts at the page boundary at or below
    the offset and ends exactly at [offset + size]: the start is rounded
    down to a page, the end is not rounded.  The address handed out on
    success is the mapping address moved up by what was rounded off. *)
Theorem map_requests_page_aligned_range
    (this : Impl) (offset size : Z) (usage : C2MemoryUsage) (l : Log) :
  0 <= offset -> 0 <= size -> offset + size < 2 ^ 64 ->
  exists (err : C2Error) (addr : Z) (this' : Impl) (c : DriverCall)
         (mo ms : Z),
    Impl_map drv this offset size usage l = Some ((err, addr, this'), c :: l) /\
    (c = IonMap (C2HandleIon.ionFd (mHandle this))
           (C2HandleIon.buffer (mHandle this)) ms (map_prot usage)
           (map_flags usage) mo
     \/ c = Mmap nullptr ms (map_prot usage) (map_flags usage) (mMapFd this)
              mo) /\
    mo mod PAGE_SIZE = 0 /\
    mo <= offset < mo + PAGE_SIZE /\
    mo + ms = offset + size /\
    (addr <> nullptr ->
     exists a : Z, mMapAddr this' = Some a /\ addr = ptr_add a (offset - mo)).
Proof.
  intros Ho Hs Hlt.
  assert (Hal : 0 <= offset mod PAGE_SIZE < PAGE_SIZE)
    by (apply Z.mod_pos_bound; reflexivity).
  assert (Hdiv : offset = PAGE_SIZE * (offset / PAGE_SIZE) + offset mod PAGE_SIZE)
    by (apply Z.div_mod; discriminate).
  assert (Hle : offset mod PAGE_SIZE <= offset)
    by (apply Z.mod_le; [assumption | reflexivity]).
  assert (Hmo : size_t (offset - offset mod PAGE_SIZE)
                = offset - offset mod PAGE_SIZE).
  { unfold size_t. apply Z.mod_small. lia. }
  assert (Hms : size_t (size + offset mod PAGE_SIZE)
                = size + offset mod PAGE_SIZE).
  { unfold size_t. apply Z.mod_small. lia. }
  assert (Hzero : (offset - offset mod PAGE_SIZE) mod PAGE_SIZE = 0).
  { replace (offset - offset mod PAGE_SIZE)
      with ((offset / PAGE_SIZE) * PAGE_SIZE) by lia.
    apply Z.mod_mul. discriminate. }
  assert (Hback : offset - (offset - offset mod PAGE_SIZE)
                  = offset mod PAGE_SIZE) by lia.
  destruct (Impl_map_cases this offset size usage l)
    as [(_ & _ & E) | [(_ & _ & E) | [(_ & _ & E) | (_ & _ & E)]]];
    rewrite E; rewrite Hmo, Hms;
    eexists _, _, _, _, _, _; (split; [reflexivity|]);
    (split; [first [left; reflexivity | right; reflexivity]|]);
    (split; [exact Hzero|]); (split; [lia|]); (split; [lia|]);
    intros Hnn; try contradiction;
    eexists; (split; [reflexivity|]); now rewrite Hback.
Qed.

(** X13.  A first mapping that fails changes nothing: when no descriptor
    is recorded and [ion_map] fails, [map] returns a null address, leaves
    every member of the allocation as it was (so the next [map] goes to
    [ion_map] again), and reports [C2_BAD_VALUE] for [-EINVAL] and
    [C2_CORRUPTED] for every other value, [-ENOMEM] included. *)
Theorem failed_ion_map_changes_nothing
    (this : Impl) (offset size : Z) (usage : C2MemoryUsage) (l : Log)
    (ret : Z) :
  mMapFd this = -1 ->
  ret = r_ret (drv l (IonMap (C2HandleIon.ionFd (mHandle this))
                        (C2HandleIon.buffer (mHandle this))
                        (size_t (size + offset mod PAGE_SIZE))
                        (map_prot usage) (map_flags usage)
                        (size_t (offset - offset mod PAGE_SIZE)))) ->
  is_int ret -> ret <> 0 ->
  exists err : C2Error,
    Impl_map drv this offset size usage l
    = Some ((err, nullptr, this),
            IonMap (C2HandleIon.ionFd (mHandle this))
              (C2HandleIon.buffer (mHandle this))
              (size_t (size + offset mod PAGE_SIZE))
              (map_prot usage) (map_flags usage)
              (size_t (offset - offset mod PAGE_SIZE)) :: l) /\
    err <> C2_OK /\
    (ret = - EINVAL -> err = C2_BAD_VALUE) /\
    (ret <> - EINVAL -> err = C2_CORRUPTED).
Proof.
  intros Hfd -> Hint Hret.
  destruct (Impl_map_cases this offset size usage l)
    as [(_ & _ & E) | [(_ & Hz & _) | [(Hne & _) | (Hne & _)]]];
    try contradiction.
  rewrite E. eexists. split; [reflexivity|].
  set (r := r_ret _) in *.
  split.
  { apply c2_map_errno_nonzero.
    - simpl. intros [H | []]. discriminate.
    - now apply sint32_neg_nonzero. }
  rewrite c2_map_errno_map_table.
  split; [intros ->; reflexivity|].
  intros Hne.
  assert (Hs : sint32 (- r) <> EINVAL /\ sint32 (- r) <> 0).
  { destruct (Z.eq_dec r (- 2 ^ 31)) as [-> | Hmin];
      [vm_compute; split; discriminate|].
    rewrite sint32_small by (unfold is_int in *; lia).
    unfold EINVAL in *. lia. }
  destruct Hs as (S1 & S2).
  apply Z.eqb_neq in S1, S2. now rewrite S1, S2.
Qed.

(** X14.  The codes [map] and [unmap] can return are [C2_OK],
    [C2_BAD_VALUE] and [C2_CORRUPTED] and no other; and with every code
    but [C2_OK], [map] hands out a null address. *)
Theorem map_unmap_codes :
  (forall (this this' : Impl) (offset size : Z) (usage : C2MemoryUsage)
          (l l' : Log) (err : C2Error) (addr : Z),
      Impl_map drv this offset size usage l = Some ((err, addr, this'), l') ->
      (err = C2_OK \/ err = C2_BAD_VALUE \/ err = C2_CORRUPTED) /\
      (err <> C2_OK -> addr = nullptr)) /\
  (forall (this this' : Impl) (addr size : Z) (fenceFd fence' : option Z)
          (l l' : Log) (err : C2Error),
      Impl_unmap drv this addr size fenceFd l = Some ((err, fence', this'), l') ->
      err = C2_OK \/ err = C2_BAD_VALUE \/ err = C2_CORRUPTED).
Proof.
  assert (Htab : forall e : Z,
             c2_map_errno [N_EINVAL] e = C2_OK \/
             c2_map_errno [N_EINVAL] e = C2_BAD_VALUE \/
             c2_map_errno [N_EINVAL] e = C2_CORRUPTED).
  { intros e. rewrite c2_map_errno_map_table.
    destruct (e =? EINVAL); [auto|]. destruct (e =? 0); auto. }
  split.
  - intros this this' offset size usage l l' err addr H.
    destruct (Impl_map_cases this offset size usage l)
      as [(_ & _ & E) | [(_ & _ & E) | [(_ & _ & E) | (_ & _ & E)]]];
      rewrite E in H; injection H as <- <- <- <-;
      (split; [first [apply Htab | now left] | intros Hne; congruence]).
  - intros this this' addr size fenceFd fence' l l' err H.
    unfold Impl_unmap, bind, read, pure, undefined, call in H.
    destruct (mMapAddr this); [|discriminate].
    destruct (mMapAlignmentBytes this); [|discriminate].
    destruct (negb _); [injection H as <- _ _ _; auto|].
    destruct (mMapSize this); [|discriminate].
    destruct (negb _); [injection H as <- _ _ _; auto|].
    destruct (negb _); injection H as <- _ _ _; [apply Htab | auto].
Qed.
End MappingFacts.

Section ReleaseFacts.
Context `{EC : C2ErrorCodes} (drv : Driver).

(** X15.  Destroying an allocation never unmaps: when the last reference
    to a live allocation goes, the driver sees [close] on the mapped
    descriptor if one is recorded, then [ion_free] on the buffer of the
    handle, and nothing else; the object leaves the heap and the other
    objects stay. *)
Theorem release_never_unmaps (p : loc) (w : World) (a : C2AllocationIon.t) :
  w_heap w !! p = Some a ->
  exists (w' : World) (calls : list DriverCall),
    release drv p w = Some (tt, w') /\
    w_log w' = calls ++ w_log w /\
    w_heap w' = delete p (w_heap w) /\
    (forall q : loc, q <> p -> w_heap w' !! q = w_heap w !! q) /\
    (C2AllocationIon.mMapFd (C2AllocationIon.mImpl a) = -1 ->
     calls = [IonFree (C2HandleIon.ionFd (C2AllocationIon.handle a))
                (C2HandleIon.buffer (C2AllocationIon.handle a))]) /\
    (C2AllocationIon.mMapFd (C2AllocationIon.mImpl a) <> -1 ->
     calls = [IonFree (C2HandleIon.ionFd (C2AllocationIon.handle a))
                (C2HandleIon.buffer (C2AllocationIon.handle a));
              Close (C2AllocationIon.mMapFd (C2AllocationIon.mImpl a))]) /\
    (forall addr length : Z, ~ In (Munmap addr length) calls).
Proof.
  intros Hp.
  unfold release, bind, deref, sys. rewrite Hp.
  unfold C2AllocationIon.destroy, C2AllocationIon.Impl_destroy, bind, call, pure.
  destruct (Z.eqb_spec (C2AllocationIon.mMapFd (C2AllocationIon.mImpl a)) (-1))
    as [Hfd | Hfd]; cbn [negb w_log w_heap].
  - eexists _, [_]. split; [reflexivity|]. cbn [w_log w_heap].
    split; [reflexivity|]. split; [reflexivity|].
    split; [intros q Hq; now apply lookup_delete_ne|].
    split; [reflexivity|]. split; [contradiction|].
    intros addr length [H | []]. discriminate.
  - eexists _, [_; _]. split; [reflexivity|]. cbn [w_log w_heap].
    split; [reflexivity|]. split; [reflexivity|].
    split; [intros q Hq; now apply lookup_delete_ne|].
    split; [contradiction|]. split; [reflexivity|].
    intros addr length [H | [H | []]]; discriminate.
Qed.
End ReleaseFacts.

(** ** Blocks: what they map and what they unmap *)

Section BlockLife.
Context `{EC : C2ErrorCodes} `{MU : C2MemoryUsageFlags} (drv : Driver).

(** The call [C2AllocationIon::map] logs. *)
Lemma alloc_map_call (a : C2AllocationIon.t) (offset size : Z)
    (usage : C2MemoryUsage) (l l' : Log) (err : C2Error) (addr : Z)
    (a' : C2AllocationIon.t) :
  C2AllocationIon.map drv a offset size usage l = Some ((err, addr, a'), l') ->
  C2AllocationIon.Impl_map drv (C2AllocationIon.mImpl a) offset size usage l
  = Some ((err, addr, C2AllocationIon.mImpl a'), l') /\
  C2AllocationIon.capacity a' = C2AllocationIon.capacity a /\
  (l' = IonMap (C2HandleIon.ionFd (C2AllocationIon.handle a))
          (C2HandleIon.buffer (C2AllocationIon.handle a))
          (size_t (size + offset mod PAGE_SIZE))
          (C2AllocationIon.map_prot usage) (C2AllocationIon.map_flags usage)
          (size_t (offset - offset mod PAGE_SIZE)) :: l
   \/ l' = Mmap nullptr (size_t (size + offset mod PAGE_SIZE))
             (C2AllocationIon.map_prot usage) (C2AllocationIon.map_flags usage)
             (C2AllocationIon.mMapFd (C2AllocationIon.mImpl a))
             (size_t (offset - offset mod PAGE_SIZE)) :: l).
Proof.
  unfold C2AllocationIon.map, bind, C2AllocationIon.handle. intros H.
  destruct (Impl_map_cases drv (C2AllocationIon.mImpl a) offset size usage l)
    as [(_ & _ & E) | [(_ & _ & E) | [(_ & _ & E) | (_ & _ & E)]]];
    rewrite E in H |- *; injection H as <- <- <- <-;
    (split; [reflexivity|]); (split; [reflexivity|]); auto.
Qed.

(** The world after a method call on the object it was called on. *)
Lemma invoke_same_object {A : Type} (p : loc)
    (method : C2AllocationIon.t -> SF Log (A * C2AllocationIon.t))
    (w : World) (a : C2AllocationIon.t) (r : A) (l' : Log) :
  w_heap w !! p = Some a ->
  method a (w_log w) = Some ((r, a), l') ->
  invoke p method w = Some (r, {| w_log := l'; w_heap := w_heap w |}).
Proof.
  intros Hp Hm. rewrite (invoke_run p method w a a r l' Hp Hm).
  now rewrite insert_id.
Qed.

Lemma alloc_unmap_run (a : C2AllocationIon.t) (addr size : Z) (l l' : Log)
    (err : C2Error) (fence' : option Z) :
  C2AllocationIon.Impl_unmap drv (C2AllocationIon.mImpl a) addr size None l
  = Some ((err, fence', C2AllocationIon.mImpl a), l') ->
  C2AllocationIon.unmap drv a addr size None l = Some ((err, fence', a), l').
Proof.
  intros H. unfold C2AllocationIon.unmap, bind. rewrite H.
  destruct a; reflexivity.
Qed.

(** X16.  A const block never asks for a writable or a shared mapping.
    On a block that is not mapped yet, [Impl::map] makes one driver call
    for the page-aligned window, [ion_map] when the allocation records no
    mapped descriptor and [mmap] on the recorded descriptor otherwise;
    the flags are [MAP_PRIVATE] and the protection is [PROT_READ] or
    [PROT_NONE], whatever the value of [kSoftwareRead]. *)
Theorem const_block_maps_read_only
    (this : C2ConstLinearBlock.Impl) (offset size : Z) (w : World)
    (a : C2AllocationIon.t) :
  C2ConstLinearBlock.mBase this = nullptr ->
  w_heap w !! C2ConstLinearBlock.mAllocation this = Some a ->
  exists (this' : C2ConstLinearBlock.Impl) (w' : World) (prot : Z),
    C2ConstLinearBlock.Impl_map drv this offset size w = Some (this', w') /\
    (prot = PROT_READ \/ prot = PROT_NONE) /\
    (w_log w' = IonMap (C2HandleIon.ionFd (C2AllocationIon.handle a))
                  (C2HandleIon.buffer (C2AllocationIon.handle a))
                  (size_t (size + offset mod PAGE_SIZE)) prot MAP_PRIVATE
                  (size_t (offset - offset mod PAGE_SIZE)) :: w_log w /\
     C2AllocationIon.mMapFd (C2AllocationIon.mImpl a) = -1
     \/ w_log w' = Mmap nullptr (size_t (size + offset mod PAGE_SIZE)) prot
                     MAP_PRIVATE
                     (C2AllocationIon.mMapFd (C2AllocationIon.mImpl a))
                     (size_t (offset - offset mod PAGE_SIZE)) :: w_log w /\
        C2AllocationIon.mMapFd (C2AllocationIon.mImpl a) <> -1).
Proof.
  intros Hb Ha.
  destruct (const_Impl_map_unmapped drv this offset size w a Hb Ha)
    as (err & addr & a' & c & Hmap & Himpl).
  rewrite Himpl.
  eexists _, _, (C2AllocationIon.map_prot
                   {| mConsumer := kSoftwareRead; mProducer := 0 |}).
  split; [reflexivity|]. cbn [w_log].
  split.
  - unfold C2AllocationIon.map_prot. cbn [mConsumer mProducer].
    change (Z.land 0 GRALLOC_USAGE_SW_WRITE_MASK =? 0) with true. cbn [negb].
    destruct (negb _); [left | right]; reflexivity.
  - unfold C2AllocationIon.map, bind in Hmap.
    destruct (Impl_map_cases drv (C2AllocationIon.mImpl a) offset size
                {| mConsumer := kSoftwareRead; mProducer := 0 |} (w_log w))
      as [(Hfd & _ & E) | [(Hfd & _ & E) | [(Hfd & _ & E) | (Hfd & _ & E)]]];
      rewrite E in Hmap; injection Hmap as _ _ _ <-;
      [left | left | right | right]; (split; [reflexivity | exact Hfd]).
Qed.

(** X17.  A failed mapping is tried again.  When [Impl::map] of a const
    block ends with an error, the block stays unmapped, keeps the error
    and its recorded size, and the next [Impl::map] goes to the driver
    once more. *)
Theorem const_block_failed_map_is_retried
    (this this' : C2ConstLinearBlock.Impl) (offset size : Z) (w w' : World)
    (a : C2AllocationIon.t) :
  C2ConstLinearBlock.mBase this = nullptr ->
  w_heap w !! C2ConstLinearBlock.mAllocation this = Some a ->
  C2ConstLinearBlock.Impl_map drv this offset size w = Some (this', w') ->
  C2ConstLinearBlock.mError this' <> C2_OK ->
  C2ConstLinearBlock.mBase this' = nullptr /\
  C2ConstLinearBlock.mSize this' = C2ConstLinearBlock.mSize this /\
  C2ConstLinearBlock.mAllocation this' = C2ConstLinearBlock.mAllocation this /\
  exists (this'' : C2ConstLinearBlock.Impl) (w'' : World) (c1 c2 : DriverCall),
    w_log w' = c1 :: w_log w /\
    C2ConstLinearBlock.Impl_map drv this' offset size w' = Some (this'', w'') /\
    w_log w'' = c2 :: c1 :: w_log w.
Proof.
  intros Hb Ha Hmap Herr.
  destruct (const_Impl_map_unmapped drv this offset size w a Hb Ha)
    as (err & addr & a' & c & _ & Himpl).
  rewrite Himpl in Hmap. injection Hmap as <- <-.
  cbn [C2ConstLinearBlock.mError] in Herr.
  apply Z.eqb_neq in Herr. rewrite Herr.
  cbn [C2ConstLinearBlock.mBase C2ConstLinearBlock.mSize
         C2ConstLinearBlock.mAllocation].
  repeat split.
  set (this1 := {| C2ConstLinearBlock.mAllocation := _ |}).
  set (w1 := {| w_log := _ |}).
  destruct (const_Impl_map_unmapped drv this1 offset size w1 a')
    as (err2 & addr2 & a2 & c2 & _ & Himpl2).
  { reflexivity. }
  { subst this1 w1. cbn [w_heap C2ConstLinearBlock.mAllocation].
    apply lookup_insert_eq. }
  rewrite Himpl2. eexists _, _, c, c2.
  split; [reflexivity|]. split; [reflexivity|]. reflexivity.
Qed.

(** X18.  A mutable block reports a failed mapping in what it returns:
    when [map()] on a block that is not mapped yet ends with an error,
    the acquirable carries that error, the write view carries it too and
    has a null base, the block keeps its range and stays unmapped. *)
Theorem linear_block_failed_map_view
    (b b' : C2LinearBlock.t) (w w' : World) (a : C2AllocationIon.t)
    (acq : C2Acquirable C2WriteView.t) :
  C2LinearBlock.mBase (C2LinearBlock.mImpl b) = nullptr ->
  w_heap w !! C2LinearBlock.mAllocation (C2LinearBlock.mImpl b) = Some a ->
  C2LinearBlock.map drv b w = Some ((acq, b'), w') ->
  acq_error acq <> C2_OK ->
  C2WriteView.error (acq_view acq) = acq_error acq /\
  C2WriteView.base (acq_view acq) = nullptr /\
  C2LinearBlock.Impl_error (C2LinearBlock.mImpl b') = acq_error acq /\
  C2LinearBlock.Impl_base (C2LinearBlock.mImpl b') = nullptr /\
  C2LinearBlock.range b' = C2LinearBlock.range b /\
  exists (addr : Z) (a' : C2AllocationIon.t) (c : DriverCall),
    C2AllocationIon.map drv a 0 (C2LinearBlock.capacity b)
      {| mConsumer := kSoftwareRead; mProducer := kSoftwareWrite |} (w_log w)
    = Some ((acq_error acq, addr, a'), c :: w_log w).
Proof.
  intros Hb Ha Hmap Herr.
  unfold C2LinearBlock.map, bind in Hmap.
  destruct (linear_Impl_map_unmapped drv (C2LinearBlock.mImpl b)
              (C2LinearBlock.capacity b) w a Hb Ha)
    as (err & addr & a' & c & Hamap & _ & Himpl).
  rewrite Himpl in Hmap.
  cbn [C2LinearBlock.mImpl C2LinearBlock.Impl_base C2LinearBlock.mBase
         C2LinearBlock.Impl_error C2LinearBlock.mError C2LinearBlock.range
         C2LinearBlock.block1D_mAllocation] in Hmap.
  destruct (Z.eqb_spec err C2_OK) as [Hok | Hno].
  - exfalso. apply Herr.
    destruct (addr =? nullptr); injection Hmap as <- _ _; exact Hok.
  - change (nullptr =? nullptr) with true in Hmap.
    injection Hmap as <- <- <-. cbn.
    repeat split. eauto.
Qed.

(** X19.  A block unmaps at destruction what it mapped.  When [Impl::map]
    of a block, const or mutable, recorded a non-null base, the
    destructor run next hands [unmap] a pair that is accepted: [munmap]
    is called on the mapping the allocation records, with the page-padded
    size, and the heap stays as it is.  A block that never mapped makes
    no call in its destructor. *)
Theorem block_destructor_unmaps_own_mapping :
  (forall (this this' : C2ConstLinearBlock.Impl) (offset size : Z)
          (w w' : World) (a : C2AllocationIon.t),
      C2ConstLinearBlock.mBase this = nullptr ->
      w_heap w !! C2ConstLinearBlock.mAllocation this = Some a ->
      C2ConstLinearBlock.Impl_map drv this offset size w = Some (this', w') ->
      C2ConstLinearBlock.mBase this' <> nullptr ->
      exists (addr : Z) (w'' : World),
        C2ConstLinearBlock.Impl_destroy drv this' w' = Some (tt, w'') /\
        C2ConstLinearBlock.mBase this' = ptr_add addr (offset mod PAGE_SIZE) /\
        w_log w'' = Munmap addr (size_t (size + offset mod PAGE_SIZE))
                    :: w_log w' /\
        w_heap w'' = w_heap w') /\
  (forall (this this' : C2LinearBlock.Impl) (capacity : Z)
          (w w' : World) (a : C2AllocationIon.t),
      C2LinearBlock.mBase this = nullptr ->
      w_heap w !! C2LinearBlock.mAllocation this = Some a ->
      C2LinearBlock.Impl_map drv this capacity w = Some (this', w') ->
      C2LinearBlock.mBase this' <> nullptr ->
      exists (addr : Z) (w'' : World),
        C2LinearBlock.Impl_destroy drv this' w' = Some (tt, w'') /\
        C2LinearBlock.mBase this' = ptr_add addr 0 /\
        w_log w'' = Munmap addr (size_t capacity) :: w_log w' /\
        w_heap w'' = w_heap w') /\
  (forall (this : C2ConstLinearBlock.Impl) (w : World),
      C2ConstLinearBlock.mBase this = nullptr ->
      C2ConstLinearBlock.Impl_destroy drv this w = Some (tt, w)) /\
  (forall (this : C2LinearBlock.Impl) (w : World),
      C2LinearBlock.mBase this = nullptr ->
      C2LinearBlock.Impl_destroy drv this w = Some (tt, w)).
Proof.
  assert (Hcore : forall (p : loc) (a a' : C2AllocationIon.t) (offset size : Z)
                         (usage : C2MemoryUsage) (w : World) (addr : Z)
                         (err : C2Error) (c : DriverCall),
    C2AllocationIon.map drv a offset size usage (w_log w)
    = Some ((err, addr, a'), c :: w_log w) ->
    addr <> nullptr ->
    let w' := {| w_log := c :: w_log w; w_heap := <[p := a']> (w_heap w) |} in
    exists (m : Z) (w'' : World),
      (let* _ := invoke p (fun a0 => C2AllocationIon.unmap drv a0 addr size None)
       in pure tt) w' = Some (tt, w'') /\
      addr = ptr_add m (offset mod PAGE_SIZE) /\
      w_log w'' = Munmap m (size_t (size + offset mod PAGE_SIZE)) :: w_log w' /\
      w_heap w'' = w_heap w').
  { intros p a a' offset size usage w addr err c Hmap Haddr w'.
    apply alloc_map_call in Hmap as (Himpl & _ & _).
    destruct (Impl_map_unmap_roundtrip drv _ _ _ _ _ _ _ _ _ None Himpl Haddr)
      as (_ & m & err' & fence' & _ & Hm & Hun & _).
    apply alloc_unmap_run in Hun.
    unfold bind at 1.
    rewrite (invoke_same_object p _ w' a' (err', fence') _
               (lookup_insert_eq _ _ _) Hun).
    eexists m, _. split; [reflexivity|]. cbn [w_log w_heap]. auto. }
  split; [|split; [|split]].
  - intros this this' offset size w w' a Hb Ha Hmap Hbase.
    destruct (const_Impl_map_unmapped drv this offset size w a Hb Ha)
      as (err & addr & a' & c & Hamap & Himpl).
    rewrite Himpl in Hmap. injection Hmap as <- <-.
    cbn [C2ConstLinearBlock.mBase] in Hbase.
    unfold C2ConstLinearBlock.Impl_destroy.
    cbn [C2ConstLinearBlock.mBase C2ConstLinearBlock.mSize
           C2ConstLinearBlock.mAllocation].
    destruct (err =? C2_OK); [|contradiction].
    pose proof Hbase as Hb'. apply Z.eqb_neq in Hb'. rewrite Hb'. cbn [negb].
    exact (Hcore _ a a' offset size _ w addr err c Hamap Hbase).
  - intros this this' capacity w w' a Hb Ha Hmap Hbase.
    destruct (linear_Impl_map_unmapped drv this capacity w a Hb Ha)
      as (err & addr & a' & c & Hamap & _ & Himpl).
    rewrite Himpl in Hmap. injection Hmap as <- <-.
    cbn [C2LinearBlock.mBase] in Hbase.
    unfold C2LinearBlock.Impl_destroy.
    cbn [C2LinearBlock.mBase C2LinearBlock.mSize C2LinearBlock.mAllocation].
    destruct (err =? C2_OK); [|contradiction].
    pose proof Hbase as Hb'. apply Z.eqb_neq in Hb'. rewrite Hb'. cbn [negb].
    destruct (Hcore (C2LinearBlock.mAllocation this) a a' 0 capacity _ w addr
                err c Hamap Hbase) as (m & w'' & H1 & H2 & H3 & H4).
    change (0 mod PAGE_SIZE) with 0 in H2, H3. rewrite Z.add_0_r in H3.
    exists m, w''. auto.
  - intros this w Hb. unfold C2ConstLinearBlock.Impl_destroy.
    now rewrite Hb.
  - intros this w Hb. unfold C2LinearBlock.Impl_destroy.
    now rewrite Hb.
Qed.

(** X20.  A block whose mapping is not the one the allocation records any
    more is not unmapped.  When a block holds a base that differs from
    the recorded mapping address plus the recorded padding (another block
    has mapped the same allocation since), its destructor makes no driver
    call and changes nothing: the mapping stays. *)
Theorem stale_block_is_not_unmapped
    (this : C2LinearBlock.Impl) (w : World) (a : C2AllocationIon.t)
    (addr al : Z) :
  C2LinearBlock.mBase this <> nullptr ->
  w_heap w !! C2LinearBlock.mAllocation this = Some a ->
  C2AllocationIon.mMapAddr (C2AllocationIon.mImpl a) = Some addr ->
  C2AllocationIon.mMapAlignmentBytes (C2AllocationIon.mImpl a) = Some al ->
  C2LinearBlock.mBase this <> ptr_add addr al ->
  C2LinearBlock.Impl_destroy drv this w = Some (tt, w).
Proof.
  intros Hb Ha Haddr Hal Hne.
  unfold C2LinearBlock.Impl_destroy.
  apply Z.eqb_neq in Hb. rewrite Hb. cbn [negb].
  unfold bind at 1.
  rewrite (invoke_same_object _ _ w a (C2_BAD_VALUE, None) (w_log w) Ha).
  - destruct w; reflexivity.
  - apply alloc_unmap_run.
    unfold C2AllocationIon.Impl_unmap. rewrite Haddr, Hal.
    unfold bind, read, pure.
    apply Z.eqb_neq in Hne. now rewrite Hne.
Qed.
End BlockLife.

(** ** Sub-views, shared blocks and the block allocator *)

Section ViewFacts.
Context `{EC : C2ErrorCodes}.

(** X21.  [subView] clamps and never fails.  On a view of capacity below
    [2 ^ 32], the offset is clamped to the capacity and the size to what
    is left after it; the data pointer moves up by the clamped offset and
    the new capacity is the clamped size, never more than the capacity of
    the view.  The result carries [C2_OK] whatever error the view it is
    taken from carries. *)
Theorem subView_clamps (v : C2ReadView.t) (offset size : Z) :
  0 <= C2ReadView.capacity v < 2 ^ 32 -> 0 <= offset -> 0 <= size ->
  C2ReadView.capacity (C2ReadView.subView v offset size)
  = Z.min size (C2ReadView.capacity v - Z.min offset (C2ReadView.capacity v)) /\
  C2ReadView.data (C2ReadView.subView v offset size)
  = ptr_add (C2ReadView.data v) (Z.min offset (C2ReadView.capacity v)) /\
  0 <= C2ReadView.capacity (C2ReadView.subView v offset size)
    <= C2ReadView.capacity v /\
  C2ReadView.error (C2ReadView.subView v offset size) = C2_OK.
Proof.
  intros Hc Ho Hs.
  unfold C2ReadView.subView, C2ReadView.of_data, C2ReadView.data,
    C2ReadView.error.
  cbn [C2ReadView.capacity C2ReadView.mData C2ReadView.mError].
  destruct (Z.gtb_spec offset (C2ReadView.capacity v)) as [Hgt | Hle].
  - rewrite (Z.min_r offset) by lia.
    destruct (Z.gtb_spec size (C2ReadView.capacity v - C2ReadView.capacity v));
      rewrite Z.mod_small by lia; repeat split; lia.
  - rewrite (Z.min_l offset) by lia.
    destruct (Z.gtb_spec size (C2ReadView.capacity v - offset));
      rewrite Z.mod_small by lia; repeat split; lia.
Qed.

(** X22.  Sub-views compose.  Inside the bounds, a sub-view of a
    sub-view is the sub-view of the original at the sum of the
    offsets. *)
Theorem subView_of_subView (v : C2ReadView.t) (o1 s1 o2 s2 : Z) :
  C2ReadView.capacity v < 2 ^ 32 ->
  0 <= o1 -> 0 <= s1 -> o1 + s1 <= C2ReadView.capacity v ->
  0 <= o2 -> 0 <= s2 -> o2 + s2 <= s1 ->
  C2ReadView.subView (C2ReadView.subView v o1 s1) o2 s2
  = C2ReadView.subView v (o1 + o2) s2.
Proof.
  intros Hc Ho1 Hs1 H1 Ho2 Hs2 H2.
  unfold C2ReadView.subView, C2ReadView.of_data, C2ReadView.data.
  cbn [C2ReadView.capacity C2ReadView.mData C2ReadView.mError].
  destruct (Z.gtb_spec o1 (C2ReadView.capacity v)); [lia|].
  destruct (Z.gtb_spec s1 (C2ReadView.capacity v - o1)); [lia|].
  rewrite (Z.mod_small s1) by lia.
  destruct (Z.gtb_spec o2 s1); [lia|].
  destruct (Z.gtb_spec s2 (s1 - o2)); [lia|].
  destruct (Z.gtb_spec (o1 + o2) (C2ReadView.capacity v)); [lia|].
  destruct (Z.gtb_spec s2 (C2ReadView.capacity v - (o1 + o2))); [lia|].
  f_equal. unfold ptr_add.
  rewrite Zplus_mod_idemp_l. f_equal. lia.
Qed.
End ViewFacts.

Section ShareFacts.
Context `{EC : C2ErrorCodes} `{MU : C2MemoryUsageFlags} (drv : Driver).

(** X23.  [share] hands out a const block that starts from nothing the
    writer holds: whatever the mutable block has mapped and whatever
    fence is passed, the shared block is over the same allocation, is not
    mapped, records no size and the initial error [C2_CORRUPTED], and
    building it makes no driver call and changes nothing.  It is the
    block [subBlock] with the same offset and size builds on a const
    block over that allocation. *)
Theorem share_starts_unmapped
    (this : C2LinearBlock.t) (offset size : Z) (fence : C2Fence) (w : World)
    (a : C2AllocationIon.t) :
  w_heap w !! C2LinearBlock.mAllocation (C2LinearBlock.mImpl this) = Some a ->
  exists shared : C2ConstLinearBlock.t,
    C2LinearBlock.share this offset size fence w = Some (shared, w) /\
    C2ConstLinearBlock.mAllocation (C2ConstLinearBlock.mImpl shared)
    = C2LinearBlock.mAllocation (C2LinearBlock.mImpl this) /\
    C2ConstLinearBlock.mBase (C2ConstLinearBlock.mImpl shared) = nullptr /\
    C2ConstLinearBlock.mSize (C2ConstLinearBlock.mImpl shared) = 0 /\
    C2ConstLinearBlock.mError (C2ConstLinearBlock.mImpl shared) = C2_CORRUPTED /\
    C2ConstLinearBlock.capacity shared = C2AllocationIon.capacity a /\
    (forall other : C2ConstLinearBlock.t,
        C2ConstLinearBlock.mAllocation (C2ConstLinearBlock.mImpl other)
        = C2LinearBlock.mAllocation (C2LinearBlock.mImpl this) ->
        C2ConstLinearBlock.subBlock other offset size w = Some (shared, w)).
Proof.
  intros Ha.
  unfold C2LinearBlock.share, C2LinearBlock.Impl_share,
    C2ConstLinearBlock.new_range, bind, deref.
  rewrite Ha. eexists. split; [reflexivity|].
  repeat split.
  intros other Hother.
  unfold C2ConstLinearBlock.subBlock, C2ConstLinearBlock.Impl_subBlock,
    C2ConstLinearBlock.new_range, bind, deref.
  now rewrite Hother, Ha.
Qed.
End ShareFacts.

Section BlockAllocatorFacts.
Context `{EC : C2ErrorCodes} (drv : Driver).

(** X24.  [allocateLinearBlock] hands out a block exactly when it returns
    [C2_OK].  On a broken allocator it returns [C2_UNSUPPORTED] and
    touches nothing.  On a working one, when [ion_alloc] returns 0 it
    returns [C2_OK] with a block that is not mapped, is over the new
    allocation and has the requested capacity; when [ion_alloc] fails it
    returns an error that is not [C2_OK], no block, and the heap as it
    was. *)
Theorem allocateLinearBlock_block_iff_ok :
  (forall (this : C2DefaultBlockAllocator.t) (capacity : Z)
          (usage : C2MemoryUsage) (w : World),
      C2AllocatorIon.mInit (C2DefaultBlockAllocator.mAllocator this) <> C2_OK ->
      C2DefaultBlockAllocator.allocateLinearBlock drv this capacity usage w
      = Some ((C2_UNSUPPORTED, None), w)) /\
  (forall (this : C2DefaultBlockAllocator.t) (capacity : Z)
          (usage : C2MemoryUsage) (w : World),
      C2AllocatorIon.mInit (C2DefaultBlockAllocator.mAllocator this) = C2_OK ->
      r_ret (drv (w_log w)
               (IonAlloc (C2AllocatorIon.mIonFd
                            (C2DefaultBlockAllocator.mAllocator this))
                  capacity 0 (2 ^ 32 - 1) 0)) = 0 ->
      exists (b : C2LinearBlock.t) (a : C2AllocationIon.t) (w' : World),
        C2DefaultBlockAllocator.allocateLinearBlock drv this capacity usage w
        = Some ((C2_OK, Some b), w') /\
        w_heap w !! C2LinearBlock.mAllocation (C2LinearBlock.mImpl b) = None /\
        w_heap w' !! C2LinearBlock.mAllocation (C2LinearBlock.mImpl b)
        = Some a /\
        C2LinearBlock.block1D_mAllocation b
        = C2LinearBlock.mAllocation (C2LinearBlock.mImpl b) /\
        C2AllocationIon.capacity a = capacity /\
        C2LinearBlock.capacity b = capacity /\
        C2LinearBlock.mBase (C2LinearBlock.mImpl b) = nullptr /\
        w_log w' = IonAlloc (C2AllocatorIon.mIonFd
                               (C2DefaultBlockAllocator.mAllocator this))
                     capacity 0 (2 ^ 32 - 1) 0 :: w_log w) /\
  (forall (this : C2DefaultBlockAllocator.t) (capacity : Z)
          (usage : C2MemoryUsage) (w : World),
      C2AllocatorIon.mInit (C2DefaultBlockAllocator.mAllocator this) = C2_OK ->
      is_int (r_ret (drv (w_log w)
                       (IonAlloc (C2AllocatorIon.mIonFd
                                    (C2DefaultBlockAllocator.mAllocator this))
                          capacity 0 (2 ^ 32 - 1) 0))) ->
      r_ret (drv (w_log w)
               (IonAlloc (C2AllocatorIon.mIonFd
                            (C2DefaultBlockAllocator.mAllocator this))
                  capacity 0 (2 ^ 32 - 1) 0)) <> 0 ->
      exists (err : C2Error) (w' : World),
        C2DefaultBlockAllocator.allocateLinearBlock drv this capacity usage w
        = Some ((err, None), w') /\
        err <> C2_OK /\ w_heap w' = w_heap w).
Proof.
  destruct C2_codes_pairwise as (_ & _ & _ & Hou & _).
  split; [|split].
  - intros this capacity usage w Hinit.
    unfold C2DefaultBlockAllocator.allocateLinearBlock, bind,
      C2AllocatorIon.allocateLinearBuffer.
    apply Z.eqb_neq in Hinit. rewrite Hinit. cbn [negb pure].
    assert (Hu : (C2_UNSUPPORTED =? C2_OK) = false)
      by (apply Z.eqb_neq; congruence).
    now rewrite Hu.
  - intros this capacity usage w Hinit Hret.
    unfold C2DefaultBlockAllocator.allocateLinearBlock. unfold bind at 1.
    rewrite (allocateLinearBuffer_success drv _ capacity usage w Hinit Hret).
    rewrite Z.eqb_refl. cbn [negb read].
    unfold bind, pure, C2LinearBlock.new, bind, deref. cbn [w_heap].
    rewrite lookup_insert_eq.
    eexists _, _, _. split; [reflexivity|].
    cbn [C2LinearBlock.mImpl C2LinearBlock.Impl_new C2LinearBlock.mAllocation
           C2LinearBlock.block1D_mAllocation w_heap w_log].
    split; [apply fresh_not_in_heap|].
    split; [apply lookup_insert_eq|].
    repeat split.
  - intros this capacity usage w Hinit Hint Hret.
    unfold C2DefaultBlockAllocator.allocateLinearBlock. unfold bind at 1.
    rewrite (allocateLinearBuffer_failure drv _ capacity usage w Hinit Hint Hret).
    assert (Hne : c2_map_errno [N_ENOMEM; N_EACCES; N_EINVAL]
                    (sint32 (- r_ret (drv (w_log w)
                       (IonAlloc (C2AllocatorIon.mIonFd
                                    (C2DefaultBlockAllocator.mAllocator this))
                          capacity 0 (2 ^ 32 - 1) 0)))) <> C2_OK).
    { apply c2_map_errno_nonzero.
      - simpl. intros [H | [H | [H | []]]]; discriminate.
      - now apply sint32_neg_nonzero. }
    pose proof Hne as Hne'. apply Z.eqb_neq in Hne'. rewrite Hne'.
    cbn [negb]. eexists _, _. split; [reflexivity|]. split; [exact Hne|].
    reflexivity.
Qed.
End BlockAllocatorFacts.

(** ** Runs of the further properties *)

Section FurtherRuns.
#[local] Existing Instance sample_codes.
#[local] Existing Instance sample_flags.

(** The stale mapping of [remapped_world] is what two blocks over one
    allocation leave: the mutable sample block maps, then the const
    sample block maps. *)
Lemma remapped_world_reached :
  exists (acq1 : C2Acquirable C2WriteView.t) (b1 : C2LinearBlock.t)
         (w1 : World) (acq2 : C2Acquirable C2ReadView.t)
         (b2 : C2ConstLinearBlock.t),
    C2LinearBlock.map good_driver sample_linear_block small_world
    = Some ((acq1, b1), w1) /\
    C2LinearBlock.mImpl b1 = mapped_linear_impl /\
    C2ConstLinearBlock.map good_driver sample_const_block w1
    = Some ((acq2, b2), remapped_world).
Proof.
  eexists _, _, _, _, _.
  split; [vm_compute; reflexivity|]. split; [reflexivity|].
  vm_compute. reflexivity.
Qed.

(** X2 on the table of [ion_alloc] and the table of the disabled usage
    mapper. *)
Lemma c2_map_errno_order_irrelevant_witness :
  (forall E : errno_case,
      In E [N_ENOMEM; N_EACCES; N_EINVAL] <-> In E [N_EINVAL; N_ENOMEM; N_EACCES]) /\
  c2_map_errno [N_ENOMEM; N_EACCES; N_EINVAL] ENOMEM
  = c2_map_errno [N_EINVAL; N_ENOMEM; N_EACCES] ENOMEM.
Proof.
  assert (H : forall E : errno_case,
             In E [N_ENOMEM; N_EACCES; N_EINVAL]
             <-> In E [N_EINVAL; N_ENOMEM; N_EACCES])
    by (intros E; simpl; tauto).
  split; [exact H|].
  exact (c2_map_errno_order_irrelevant _ _ ENOMEM H).
Defined.

(** X5 on the working sample allocator and the empty world. *)
Lemma allocateLinearBuffer_new_allocation_witness :
  C2AllocatorIon.mInit sample_allocator = C2_OK /\
  r_ret (good_driver (w_log empty_world)
           (IonAlloc (C2AllocatorIon.mIonFd sample_allocator) 100 0
              (2 ^ 32 - 1) 0)) = 0 /\
  exists (p : loc) (a : C2AllocationIon.t) (w' : World),
    C2AllocatorIon.allocateLinearBuffer good_driver sample_allocator 100
      rw_usage empty_world
    = Some ((C2_OK, Some p), w') /\
    w_log w' = IonAlloc (C2AllocatorIon.mIonFd sample_allocator) 100 0
                 (2 ^ 32 - 1) 0 :: w_log empty_world /\
    w_heap empty_world !! p = None /\
    w_heap w' !! p = Some a /\
    (forall q : loc, q <> p -> w_heap w' !! q = w_heap empty_world !! q) /\
    C2AllocationIon.capacity a = 100 /\
    C2AllocationIon.isValid a = true /\
    C2AllocationIon.mMapFd (C2AllocationIon.mImpl a) = -1 /\
    C2HandleIon.isValid (Some (C2AllocationIon.handle a)) = true /\
    C2HandleIon.ionFd (C2AllocationIon.handle a)
    = C2AllocatorIon.mIonFd sample_allocator /\
    C2HandleIon.buffer (C2AllocationIon.handle a)
    = r_out1 (good_driver (w_log empty_world)
                (IonAlloc (C2AllocatorIon.mIonFd sample_allocator) 100 0
                   (2 ^ 32 - 1) 0)).
Proof.
  split; [reflexivity|]. split; [reflexivity|].
  exact (allocateLinearBuffer_new_allocation good_driver sample_allocator 100
           rw_usage empty_world eq_refl eq_refl).
Defined.

(** X6 on a driver whose [ion_alloc] returns [-ENOMEM]. *)
Lemma allocateLinearBuffer_failure_codes_witness :
  C2AllocatorIon.mInit sample_allocator = C2_OK /\
  - ENOMEM
  = r_ret (alloc_failing_driver (w_log empty_world)
             (IonAlloc (C2AllocatorIon.mIonFd sample_allocator) 100 0
                (2 ^ 32 - 1) 0)) /\
  is_int (- ENOMEM) /\ - ENOMEM <> 0 /\
  exists (err : C2Error) (w' : World),
    C2AllocatorIon.allocateLinearBuffer alloc_failing_driver sample_allocator
      100 rw_usage empty_world
    = Some ((err, None), w') /\
    w_heap w' = w_heap empty_world /\
    w_log w' = IonFree (C2AllocatorIon.mIonFd sample_allocator) (-1)
               :: IonAlloc (C2AllocatorIon.mIonFd sample_allocator) 100 0
                    (2 ^ 32 - 1) 0 :: w_log empty_world /\
    err <> C2_OK /\
    (- ENOMEM = - ENOMEM -> err = C2_NO_MEMORY) /\
    (- ENOMEM = - EACCES -> err = C2_NO_PERMISSION) /\
    (- ENOMEM = - EINVAL -> err = C2_BAD_VALUE) /\
    (- ENOMEM <> - ENOMEM -> - ENOMEM <> - EACCES -> - ENOMEM <> - EINVAL ->
     err = C2_CORRUPTED).
Proof.
  assert (Hi : is_int (- ENOMEM)) by (unfold is_int, ENOMEM; lia).
  assert (Hn : - ENOMEM <> 0) by discriminate.
  split; [reflexivity|]. split; [reflexivity|].
  split; [exact Hi|]. split; [exact Hn|].
  exact (allocateLinearBuffer_failure_codes alloc_failing_driver
           sample_allocator 100 rw_usage empty_world (- ENOMEM) eq_refl
           eq_refl Hi Hn).
Defined.

(** X7 on the handle of an allocation on descriptor 3 with buffer 7. *)
Lemma recreateLinearBuffer_imports_witness :
  C2AllocatorIon.mInit sample_allocator = C2_OK /\
  C2HandleIon.isValid (Some (C2HandleIon.new 3 7)) = true /\
  exists (allocation : option loc) (w' : World) (rest : Log),
    C2AllocatorIon.recreateLinearBuffer good_driver sample_allocator
      (Some (C2HandleIon.new 3 7)) empty_world
    = Some ((r_ret (good_driver (w_log empty_world)
                      (IonImport (C2AllocatorIon.mIonFd sample_allocator)
                         (C2HandleIon.buffer (C2HandleIon.new 3 7)))),
             allocation), w') /\
    w_log w' = rest ++ IonImport (C2AllocatorIon.mIonFd sample_allocator)
                         (C2HandleIon.buffer (C2HandleIon.new 3 7))
                       :: w_log empty_world /\
    (allocation <> None <->
     r_ret (good_driver (w_log empty_world)
              (IonImport (C2AllocatorIon.mIonFd sample_allocator)
                 (C2HandleIon.buffer (C2HandleIon.new 3 7))))
     = C2_OK) /\
    (forall (p : loc), allocation = Some p ->
       exists a : C2AllocationIon.t,
         w_heap w' !! p = Some a /\ w_heap empty_world !! p = None /\
         C2AllocationIon.capacity a = 0 /\
         C2HandleIon.ionFd (C2AllocationIon.handle a)
         = C2AllocatorIon.mIonFd sample_allocator).
Proof.
  split; [reflexivity|]. split; [reflexivity|].
  exact (recreateLinearBuffer_imports good_driver sample_allocator
           (C2HandleIon.new 3 7) empty_world eq_refl eq_refl).
Defined.

(** X8 on a handle the allocation builds. *)
Lemma isValid_accepts_iff_witness :
  is_int (C2Handle.version (C2HandleIon.new 3 7)) /\
  is_int (C2Handle.numFds (C2HandleIon.new 3 7)) /\
  is_int (C2Handle.numInts (C2HandleIon.new 3 7)) /\
  (C2HandleIon.isValid (Some (C2HandleIon.new 3 7)) = true <->
   C2Handle.version (C2HandleIon.new 3 7) = C2HandleIon.version /\
   C2Handle.numFds (C2HandleIon.new 3 7) = C2HandleIon.numFds /\
   C2Handle.numInts (C2HandleIon.new 3 7) = C2HandleIon.numInts /\
   C2HandleIon.mMagic (C2HandleIon.new 3 7) = C2HandleIon.kMagic).
Proof.
  assert (H1 : is_int (C2Handle.version (C2HandleIon.new 3 7)))
    by (vm_compute; split; congruence).
  assert (H2 : is_int (C2Handle.numFds (C2HandleIon.new 3 7)))
    by (vm_compute; split; congruence).
  assert (H3 : is_int (C2Handle.numInts (C2HandleIon.new 3 7)))
    by (vm_compute; split; congruence).
  split; [exact H1|]. split; [exact H2|]. split; [exact H3|].
  exact (isValid_accepts_iff (C2HandleIon.new 3 7) H1 H2 H3).
Defined.

(** X11 on the first mapping of the sample allocation. *)
Lemma map_then_unmap_accepted_witness :
  C2AllocationIon.Impl_map good_driver fresh_impl 0 4096 rw_usage []
  = Some ((0, 65536, mapped_impl), [IonMap 3 7 4096 3 1 0]) /\
  65536 <> nullptr /\
  0 = C2_OK /\
  exists (a : Z) (err' : C2Error) (fence' : option Z),
    C2AllocationIon.mMapAddr mapped_impl = Some a /\
    65536 = ptr_add a (0 mod PAGE_SIZE) /\
    C2AllocationIon.Impl_unmap good_driver mapped_impl 65536 4096 None
      [IonMap 3 7 4096 3 1 0]
    = Some ((err', fence', mapped_impl),
            [Munmap a (size_t (4096 + 0 mod PAGE_SIZE));
             IonMap 3 7 4096 3 1 0]) /\
    (r_ret (good_driver [IonMap 3 7 4096 3 1 0]
              (Munmap a (size_t (4096 + 0 mod PAGE_SIZE)))) = 0 ->
     err' = C2_OK).
Proof.
  assert (H1 : C2AllocationIon.Impl_map good_driver fresh_impl 0 4096 rw_usage []
               = Some ((0, 65536, mapped_impl), [IonMap 3 7 4096 3 1 0]))
    by reflexivity.
  assert (H2 : 65536 <> nullptr) by discriminate.
  split; [exact H1|]. split; [exact H2|].
  exact (map_then_unmap_accepted good_driver fresh_impl mapped_impl 0 4096
           rw_usage [] [IonMap 3 7 4096 3 1 0] 0 65536 None H1 H2).
Defined.

(** X12 on 100 bytes at offset 5000: the call is for 1004 bytes from
    offset 4096. *)
Lemma map_requests_page_aligned_range_witness :
  0 <= 5000 /\ 0 <= 100 /\ 5000 + 100 < 2 ^ 64 /\
  exists (err : C2Error) (addr : Z) (this' : C2AllocationIon.Impl)
         (c : DriverCall) (mo ms : Z),
    C2AllocationIon.Impl_map good_driver fresh_impl 5000 100 rw_usage []
    = Some ((err, addr, this'), [c]) /\
    (c = IonMap (C2HandleIon.ionFd (C2AllocationIon.mHandle fresh_impl))
           (C2HandleIon.buffer (C2AllocationIon.mHandle fresh_impl)) ms
           (C2AllocationIon.map_prot rw_usage)
           (C2AllocationIon.map_flags rw_usage) mo
     \/ c = Mmap nullptr ms (C2AllocationIon.map_prot rw_usage)
              (C2AllocationIon.map_flags rw_usage)
              (C2AllocationIon.mMapFd fresh_impl) mo) /\
    mo mod PAGE_SIZE = 0 /\
    mo <= 5000 < mo + PAGE_SIZE /\
    mo + ms = 5000 + 100 /\
    (addr <> nullptr ->
     exists a : Z,
       C2AllocationIon.mMapAddr this' = Some a /\
       addr = ptr_add a (5000 - mo)).
Proof.
  assert (H1 : 0 <= 5000) by lia.
  assert (H2 : 0 <= 100) by lia.
  assert (H3 : 5000 + 100 < 2 ^ 64) by reflexivity.
  split; [exact H1|]. split; [exact H2|]. split; [exact H3|].
  exact (map_requests_page_aligned_range good_driver fresh_impl 5000 100
           rw_usage [] H1 H2 H3).
Defined.

(** X13 on a driver whose [ion_map] returns [-ENOMEM]. *)
Lemma failed_ion_map_changes_nothing_witness :
  C2AllocationIon.mMapFd fresh_impl = -1 /\
  - ENOMEM
  = r_ret (map_failing_driver []
             (IonMap (C2HandleIon.ionFd (C2AllocationIon.mHandle fresh_impl))
                (C2HandleIon.buffer (C2AllocationIon.mHandle fresh_impl))
                (size_t (4096 + 0 mod PAGE_SIZE))
                (C2AllocationIon.map_prot rw_usage)
                (C2AllocationIon.map_flags rw_usage)
                (size_t (0 - 0 mod PAGE_SIZE)))) /\
  is_int (- ENOMEM) /\ - ENOMEM <> 0 /\
  exists err : C2Error,
    C2AllocationIon.Impl_map map_failing_driver fresh_impl 0 4096 rw_usage []
    = Some ((err, nullptr, fresh_impl),
            [IonMap (C2HandleIon.ionFd (C2AllocationIon.mHandle fresh_impl))
               (C2HandleIon.buffer (C2AllocationIon.mHandle fresh_impl))
               (size_t (4096 + 0 mod PAGE_SIZE))
               (C2AllocationIon.map_prot rw_usage)
               (C2AllocationIon.map_flags rw_usage)
               (size_t (0 - 0 mod PAGE_SIZE))]) /\
    err <> C2_OK /\
    (- ENOMEM = - EINVAL -> err = C2_BAD_VALUE) /\
    (- ENOMEM <> - EINVAL -> err = C2_CORRUPTED).
Proof.
  assert (Hi : is_int (- ENOMEM)) by (unfold is_int, ENOMEM; lia).
  assert (Hn : - ENOMEM <> 0) by discriminate.
  split; [reflexivity|]. split; [reflexivity|].
  split; [exact Hi|]. split; [exact Hn|].
  exact (failed_ion_map_changes_nothing map_failing_driver fresh_impl 0 4096
           rw_usage [] (- ENOMEM) eq_refl eq_refl Hi Hn).
Defined.

(** X15 on the allocation of [remapped_world], which records the mapped
    descriptor 5. *)
Lemma release_never_unmaps_witness :
  w_heap remapped_world !! 1%positive = Some remapped_alloc /\
  exists (w' : World) (calls : list DriverCall),
    release good_driver 1%positive remapped_world = Some (tt, w') /\
    w_log w' = calls ++ w_log remapped_world /\
    w_heap w' = delete 1%positive (w_heap remapped_world) /\
    (forall q : loc, q <> 1%positive ->
       w_heap w' !! q = w_heap remapped_world !! q) /\
    (C2AllocationIon.mMapFd (C2AllocationIon.mImpl remapped_alloc) = -1 ->
     calls = [IonFree (C2HandleIon.ionFd (C2AllocationIon.handle remapped_alloc))
                (C2HandleIon.buffer (C2AllocationIon.handle remapped_alloc))]) /\
    (C2AllocationIon.mMapFd (C2AllocationIon.mImpl remapped_alloc) <> -1 ->
     calls = [IonFree (C2HandleIon.ionFd (C2AllocationIon.handle remapped_alloc))
                (C2HandleIon.buffer (C2AllocationIon.handle remapped_alloc));
              Close (C2AllocationIon.mMapFd
                       (C2AllocationIon.mImpl remapped_alloc))]) /\
    (forall addr length : Z, ~ In (Munmap addr length) calls).
Proof.
  split; [reflexivity|].
  exact (release_never_unmaps good_driver 1%positive remapped_world
           remapped_alloc eq_refl).
Defined.

(** X16 on the const sample block. *)
Lemma const_block_maps_read_only_witness :
  C2ConstLinearBlock.mBase (C2ConstLinearBlock.mImpl sample_const_block)
  = nullptr /\
  w_heap small_world
    !! C2ConstLinearBlock.mAllocation
         (C2ConstLinearBlock.mImpl sample_const_block)
  = Some small_alloc /\
  exists (this' : C2ConstLinearBlock.Impl) (w' : World) (prot : Z),
    C2ConstLinearBlock.Impl_map good_driver
      (C2ConstLinearBlock.mImpl sample_const_block) 10 50 small_world
    = Some (this', w') /\
    (prot = PROT_READ \/ prot = PROT_NONE) /\
    (w_log w' = IonMap (C2HandleIon.ionFd (C2AllocationIon.handle small_alloc))
                  (C2HandleIon.buffer (C2AllocationIon.handle small_alloc))
                  (size_t (50 + 10 mod PAGE_SIZE)) prot MAP_PRIVATE
                  (size_t (10 - 10 mod PAGE_SIZE)) :: w_log small_world /\
     C2AllocationIon.mMapFd (C2AllocationIon.mImpl small_alloc) = -1
     \/ w_log w' = Mmap nullptr (size_t (50 + 10 mod PAGE_SIZE)) prot
                     MAP_PRIVATE
                     (C2AllocationIon.mMapFd (C2AllocationIon.mImpl small_alloc))
                     (size_t (10 - 10 mod PAGE_SIZE)) :: w_log small_world /\
        C2AllocationIon.mMapFd (C2AllocationIon.mImpl small_alloc) <> -1).
Proof.
  split; [reflexivity|]. split; [reflexivity|].
  exact (const_block_maps_read_only good_driver
           (C2ConstLinearBlock.mImpl sample_const_block) 10 50 small_world
           small_alloc eq_refl eq_refl).
Defined.

(** X17 on the const sample block and a driver whose mappings fail. *)
Lemma const_block_failed_map_is_retried_witness :
  exists (this' : C2ConstLinearBlock.Impl) (w' : World),
    C2ConstLinearBlock.mBase (C2ConstLinearBlock.mImpl sample_const_block)
    = nullptr /\
    w_heap small_world
      !! C2ConstLinearBlock.mAllocation
           (C2ConstLinearBlock.mImpl sample_const_block)
    = Some small_alloc /\
    C2ConstLinearBlock.Impl_map map_failing_driver
      (C2ConstLinearBlock.mImpl sample_const_block) 10 50 small_world
    = Some (this', w') /\
    C2ConstLinearBlock.mError this' <> C2_OK /\
    C2ConstLinearBlock.mBase this' = nullptr /\
    C2ConstLinearBlock.mSize this'
    = C2ConstLinearBlock.mSize (C2ConstLinearBlock.mImpl sample_const_block) /\
    C2ConstLinearBlock.mAllocation this'
    = C2ConstLinearBlock.mAllocation
        (C2ConstLinearBlock.mImpl sample_const_block) /\
    exists (this'' : C2ConstLinearBlock.Impl) (w'' : World)
           (c1 c2 : DriverCall),
      w_log w' = c1 :: w_log small_world /\
      C2ConstLinearBlock.Impl_map map_failing_driver this' 10 50 w'
      = Some (this'', w'') /\
      w_log w'' = c2 :: c1 :: w_log small_world.
Proof.
  destruct (C2ConstLinearBlock.Impl_map map_failing_driver
              (C2ConstLinearBlock.mImpl sample_const_block) 10 50 small_world)
    as [[this' w']|] eqn:Hmap; [|vm_compute in Hmap; discriminate].
  assert (Herr : C2ConstLinearBlock.mError this' <> C2_OK).
  { vm_compute in Hmap. injection Hmap as <- _. discriminate. }
  exists this', w'.
  split; [reflexivity|]. split; [reflexivity|].
  split; [reflexivity|]. split; [exact Herr|].
  exact (const_block_failed_map_is_retried map_failing_driver
           (C2ConstLinearBlock.mImpl sample_const_block) this' 10 50
           small_world w' small_alloc eq_refl eq_refl Hmap Herr).
Defined.

(** X18 on the mutable sample block and a driver whose mappings fail. *)
Lemma linear_block_failed_map_view_witness :
  exists (acq : C2Acquirable C2WriteView.t) (b' : C2LinearBlock.t)
         (w' : World),
    C2LinearBlock.mBase (C2LinearBlock.mImpl sample_linear_block) = nullptr /\
    w_heap small_world
      !! C2LinearBlock.mAllocation (C2LinearBlock.mImpl sample_linear_block)
    = Some small_alloc /\
    C2LinearBlock.map map_failing_driver sample_linear_block small_world
    = Some ((acq, b'), w') /\
    acq_error acq <> C2_OK /\
    C2WriteView.error (acq_view acq) = acq_error acq /\
    C2WriteView.base (acq_view acq) = nullptr /\
    C2LinearBlock.Impl_error (C2LinearBlock.mImpl b') = acq_error acq /\
    C2LinearBlock.Impl_base (C2LinearBlock.mImpl b') = nullptr /\
    C2LinearBlock.range b' = C2LinearBlock.range sample_linear_block /\
    exists (addr : Z) (a' : C2AllocationIon.t) (c : DriverCall),
      C2AllocationIon.map map_failing_driver small_alloc 0
        (C2LinearBlock.capacity sample_linear_block)
        {| mConsumer := kSoftwareRead; mProducer := kSoftwareWrite |}
        (w_log small_world)
      = Some ((acq_error acq, addr, a'), c :: w_log small_world).
Proof.
  destruct (C2LinearBlock.map map_failing_driver sample_linear_block
              small_world) as [[[acq b'] w']|] eqn:Hmap;
    [|vm_compute in Hmap; discriminate].
  assert (Herr : acq_error acq <> C2_OK).
  { vm_compute in Hmap. injection Hmap as <- _ _. discriminate. }
  exists acq, b', w'.
  split; [reflexivity|]. split; [reflexivity|].
  split; [reflexivity|]. split; [exact Herr|].
  exact (linear_block_failed_map_view map_failing_driver sample_linear_block
           b' small_world w' small_alloc acq eq_refl eq_refl Hmap Herr).
Defined.

(** X20 on the mutable sample block after the const sample block mapped
    the allocation: its base [0x10000] is not the recorded [0x20000] plus
    10. *)
Lemma stale_block_is_not_unmapped_witness :
  C2LinearBlock.mBase mapped_linear_impl <> nullptr /\
  w_heap remapped_world !! C2LinearBlock.mAllocation mapped_linear_impl
  = Some remapped_alloc /\
  C2AllocationIon.mMapAddr (C2AllocationIon.mImpl remapped_alloc)
  = Some 131072 /\
  C2AllocationIon.mMapAlignmentBytes (C2AllocationIon.mImpl remapped_alloc)
  = Some 10 /\
  C2LinearBlock.mBase mapped_linear_impl <> ptr_add 131072 10 /\
  C2LinearBlock.Impl_destroy good_driver mapped_linear_impl remapped_world
  = Some (tt, remapped_world).
Proof.
  assert (H1 : C2LinearBlock.mBase mapped_linear_impl <> nullptr)
    by discriminate.
  assert (H2 : C2LinearBlock.mBase mapped_linear_impl <> ptr_add 131072 10)
    by discriminate.
  split; [exact H1|]. split; [reflexivity|]. split; [reflexivity|].
  split; [reflexivity|]. split; [exact H2|].
  exact (stale_block_is_not_unmapped good_driver mapped_linear_impl
           remapped_world remapped_alloc 131072 10 H1 eq_refl eq_refl eq_refl
           H2).
Defined.

(** X21 on a view of 50 bytes and a request that starts past its end. *)
Lemma subView_clamps_witness :
  0 <= C2ReadView.capacity sample_read_view < 2 ^ 32 /\ 0 <= 60 /\ 0 <= 10 /\
  C2ReadView.capacity (C2ReadView.subView sample_read_view 60 10)
  = Z.min 10 (C2ReadView.capacity sample_read_view
              - Z.min 60 (C2ReadView.capacity sample_read_view)) /\
  C2ReadView.data (C2ReadView.subView sample_read_view 60 10)
  = ptr_add (C2ReadView.data sample_read_view)
      (Z.min 60 (C2ReadView.capacity sample_read_view)) /\
  0 <= C2ReadView.capacity (C2ReadView.subView sample_read_view 60 10)
    <= C2ReadView.capacity sample_read_view /\
  C2ReadView.error (C2ReadView.subView sample_read_view 60 10) = C2_OK.
Proof.
  assert (H1 : 0 <= C2ReadView.capacity sample_read_view < 2 ^ 32)
    by (simpl; lia).
  assert (H2 : 0 <= 60) by lia.
  assert (H3 : 0 <= 10) by lia.
  split; [exact H1|]. split; [exact H2|]. split; [exact H3|].
  exact (subView_clamps sample_read_view 60 10 H1 H2 H3).
Defined.

(** X22 on a view of 50 bytes. *)
Lemma subView_of_subView_witness :
  C2ReadView.capacity sample_read_view < 2 ^ 32 /\
  0 <= 10 /\ 0 <= 30 /\ 10 + 30 <= C2ReadView.capacity sample_read_view /\
  0 <= 5 /\ 0 <= 20 /\ 5 + 20 <= 30 /\
  C2ReadView.subView (C2ReadView.subView sample_read_view 10 30) 5 20
  = C2ReadView.subView sample_read_view (10 + 5) 20.
Proof.
  assert (H1 : C2ReadView.capacity sample_read_view < 2 ^ 32) by reflexivity.
  assert (H2 : 0 <= 10) by lia.
  assert (H3 : 0 <= 30) by lia.
  assert (H4 : 10 + 30 <= C2ReadView.capacity sample_read_view)
    by (simpl; lia).
  assert (H5 : 0 <= 5) by lia.
  assert (H6 : 0 <= 20) by lia.
  assert (H7 : 5 + 20 <= 30) by lia.
  repeat (split; [assumption|]).
  exact (subView_of_subView sample_read_view 10 30 5 20 H1 H2 H3 H4 H5 H6 H7).
Defined.

(** X23 on the mutable sample block. *)
Lemma share_starts_unmapped_witness :
  w_heap small_world
    !! C2LinearBlock.mAllocation (C2LinearBlock.mImpl sample_linear_block)
  = Some small_alloc /\
  exists shared : C2ConstLinearBlock.t,
    C2LinearBlock.share sample_linear_block 0 50 C2Fence_default small_world
    = Some (shared, small_world) /\
    C2ConstLinearBlock.mAllocation (C2ConstLinearBlock.mImpl shared)
    = C2LinearBlock.mAllocation (C2LinearBlock.mImpl sample_linear_block) /\
    C2ConstLinearBlock.mBase (C2ConstLinearBlock.mImpl shared) = nullptr /\
    C2ConstLinearBlock.mSize (C2ConstLinearBlock.mImpl shared) = 0 /\
    C2ConstLinearBlock.mError (C2ConstLinearBlock.mImpl shared) = C2_CORRUPTED /\
    C2ConstLinearBlock.capacity shared = C2AllocationIon.capacity small_alloc /\
    (forall other : C2ConstLinearBlock.t,
        C2ConstLinearBlock.mAllocation (C2ConstLinearBlock.mImpl other)
        = C2LinearBlock.mAllocation (C2LinearBlock.mImpl sample_linear_block) ->
        C2ConstLinearBlock.subBlock other 0 50 small_world
        = Some (shared, small_world)).
Proof.
  split; [reflexivity|].
  exact (share_starts_unmapped sample_linear_block 0 50 C2Fence_default
           small_world small_alloc eq_refl).
Defined.
End FurtherRuns.
